(** * OTA example for AWS IoT Core: jobs topic protocol and block download

    A shallow embedding of the C sources

    - [lib/iot-core-jobs/source/core_jobs.c]  (topic and message builders,
      topic matchers, the two requests),
    - [lib/mqtt_wrapper/mqtt_wrapper.c]        (the stored thing name, the
      operations on the coreMQTT context),
    - [demo/ota_demo.c]                        (job acceptance, block download
      session, message router),
    - [main/src/main.c]                        (incoming messages, the clock),

    together with the properties of the protocol engine that the
    specification states about them, and further properties of the code.

    Conventions of the embedding.

    - A byte is an [ascii]; a memory object (array, string literal, caller
      buffer) is the [list ascii] of its bytes, its length being the size of
      the object.  A nullable pointer to the start of an object is an
      [option (list ascii)].
    - [size_t], [uint32_t] and [uint8_t] values are [Z] with the wrap-around
      written out.  [size_t] is 32 bits wide, as on the ESP32 target that
      [main/src/main.c] is written for.
    - A function that can fail at run time returns a [result]: [Fault
      OutOfBounds] for an access outside an object (undefined behaviour in C),
      [Fault AssertionFailed] for a failed [assert] (the process aborts).
    - Calls to code outside the modelled files are recorded, in order, in a
      trace of [Event]s, or taken as section variables. *)

From Stdlib Require Import ZArith List Ascii Bool Lia.
From Stdlib Require String.
Import ListNotations String.StringSyntax.
Delimit Scope string_scope with string.
Bind Scope string_scope with String.string.
Local Open Scope Z_scope.

(* ================================================================== *)
(** * The C run time used by the sources                               *)
(* ================================================================== *)

Module CLib.

Inductive fault : Type :=
| OutOfBounds
| AssertionFailed.

Inductive result (A : Type) : Type :=
| Ok (a : A)
| Fault (f : fault).

Arguments Ok {A} a.
Arguments Fault {A} f.

Definition bind {A B : Type} (r : result A) (k : A -> result B) : result B :=
  match r with
  | Ok a => k a
  | Fault f => Fault f
  end.

Notation "x <- c ;; k" := (bind c (fun x => k))
  (at level 61, c at next level, right associativity).
Notation "'perform' c ;; k" := (bind c (fun _ => k))
  (at level 61, c at next level, right associativity).
Notation "' pat <- c ;; k" := (bind c (fun pat => k))
  (at level 61, pat pattern, c at next level, right associativity).

Definition assert (b : bool) : result unit :=
  if b then Ok tt else Fault AssertionFailed.

(** ** Integer types *)

Definition SIZE_MAX : Z := 4294967295.
Definition size_t (x : Z) : Z := x mod (SIZE_MAX + 1).
Definition uint32_t (x : Z) : Z := x mod 4294967296.
Definition uint8_t (x : Z) : Z := x mod 256.

(** ** Memory objects *)

Definition NUL : ascii := Ascii.zero.
Definition is_nul (c : ascii) : bool := Ascii.eqb c NUL.

Definition len {A : Type} (m : list A) : Z := Z.of_nat (length m).
Definition take {A : Type} (n : Z) (m : list A) : list A := firstn (Z.to_nat n) m.
Definition drop {A : Type} (n : Z) (m : list A) : list A := skipn (Z.to_nat n) m.

(** [char buf[n] = { 0 }] *)
Definition zeros (n : Z) : list ascii := repeat NUL (Z.to_nat n).

(** The characters of a string literal, and the object the literal denotes
    (the characters followed by the terminator); [sizeof] of the literal. *)
Definition lit (s : String.string) : list ascii := String.list_ascii_of_string s.
Arguments lit s%_string.
Definition literal (s : list ascii) : list ascii := s ++ [NUL].
Definition sizeof (s : list ascii) : Z := len s + 1.

(** A literal of the sources that contains escaped double quotes is written
    here with an apostrophe in the place of each of them. *)
Definition dquote : ascii := "034"%char.
Definition quoted (s : String.string) : list ascii :=
  map (fun c => if Ascii.eqb c "'"%char then dquote else c) (lit s).
Arguments quoted s%_string.

Definition ptr : Type := option (list ascii).
Definition is_null (p : ptr) : bool :=
  match p with None => true | Some _ => false end.
Definition deref (p : ptr) : list ascii :=
  match p with None => [] | Some m => m end.

(** Reading [n] bytes from the start of [src]; writing [bytes] into [dst]
    at offset [off]. *)
Definition load (src : list ascii) (n : Z) : result (list ascii) :=
  if (0 <=? n) && (n <=? len src) then Ok (take n src) else Fault OutOfBounds.

Definition store (dst : list ascii) (off : Z) (bytes : list ascii)
  : result (list ascii) :=
  if (0 <=? off) && (off + len bytes <=? len dst)
  then Ok (take off dst ++ bytes ++ drop (off + len bytes) dst)
  else Fault OutOfBounds.

(** [memcpy( dst + off, src, n )] *)
Definition memcpy (dst : list ascii) (off : Z) (src : list ascii) (n : Z)
  : result (list ascii) :=
  bytes <- load src n ;;
  store dst off bytes.

(** [arr[ i ]] *)
Definition index {A : Type} (arr : list A) (i : Z) : result A :=
  if i <? 0 then Fault OutOfBounds
  else match nth_error arr (Z.to_nat i) with
       | Some x => Ok x
       | None => Fault OutOfBounds
       end.

(** ** Strings *)

(** Number of characters before the first terminator; running off the end
    of the object is an out-of-bounds read. *)
Fixpoint strlen_nat (m : list ascii) : option nat :=
  match m with
  | [] => None
  | c :: m' => if is_nul c then Some O else option_map S (strlen_nat m')
  end.

Definition strlen (m : list ascii) : result Z :=
  match strlen_nat m with
  | Some n => Ok (Z.of_nat n)
  | None => Fault OutOfBounds
  end.

(** The characters a [%s] conversion reads from [m]. *)
Definition string_at (m : list ascii) : result (list ascii) :=
  n <- strlen m ;;
  Ok (take n m).

Fixpoint strnlen_nat (m : list ascii) (n : nat) {struct n} : option nat :=
  match n with
  | O => Some O
  | S n' =>
      match m with
      | [] => None
      | c :: m' => if is_nul c then Some O else option_map S (strnlen_nat m' n')
      end
  end.

Definition strnlen (m : list ascii) (n : Z) : result Z :=
  match strnlen_nat m (Z.to_nat n) with
  | Some k => Ok (Z.of_nat k)
  | None => Fault OutOfBounds
  end.

Definition uchar (c : ascii) : Z := Z.of_nat (nat_of_ascii c).

(** [strncmp( a, b, n )]: at most [n] characters are compared, and the
    comparison stops after a terminator. *)
Fixpoint strncmp_nat (a b : list ascii) (n : nat) {struct n} : option Z :=
  match n with
  | O => Some 0
  | S n' =>
      match a, b with
      | x :: a', y :: b' =>
          if Ascii.eqb x y
          then if is_nul x then Some 0 else strncmp_nat a' b' n'
          else Some (uchar x - uchar y)
      | _, _ => None
      end
  end.

Definition strncmp (a b : list ascii) (n : Z) : result Z :=
  match strncmp_nat a b (Z.to_nat n) with
  | Some d => Ok d
  | None => Fault OutOfBounds
  end.

(** [strcmp( a, b )]: the comparison stops after a terminator or at the
    first difference. *)
Fixpoint strcmp_nat (a b : list ascii) {struct a} : option Z :=
  match a, b with
  | x :: a', y :: b' =>
      if Ascii.eqb x y
      then if is_nul x then Some 0 else strcmp_nat a' b'
      else Some (uchar x - uchar y)
  | _, _ => None
  end.

Definition strcmp (a b : list ascii) : result Z :=
  match strcmp_nat a b with
  | Some d => Ok d
  | None => Fault OutOfBounds
  end.

(** The [n] bytes [strncpy] writes: the characters of [src] up to its
    terminator, padded with terminators. *)
Fixpoint strncpy_bytes (src : list ascii) (n : nat) {struct n}
  : option (list ascii) :=
  match n with
  | O => Some []
  | S n' =>
      match src with
      | [] => None
      | c :: src' =>
          if is_nul c then Some (repeat NUL n)
          else option_map (cons c) (strncpy_bytes src' n')
      end
  end.

(** [strncpy( dst, src, n )] *)
Definition strncpy (dst src : list ascii) (n : Z) : result (list ascii) :=
  match strncpy_bytes src (Z.to_nat n) with
  | Some bytes => store dst 0 bytes
  | None => Fault OutOfBounds
  end.

Fixpoint strings_at (args : list (list ascii)) : result (list ascii) :=
  match args with
  | [] => Ok []
  | m :: args' =>
      s <- string_at m ;;
      rest <- strings_at args' ;;
      Ok (s ++ rest)
  end.

(** [snprintf( buf, size, "%s...%s", args... )]: the concatenation of the
    argument strings, cut to [size - 1] characters and terminated. *)
Definition snprintf (buf : list ascii) (size : Z) (args : list (list ascii))
  : result (list ascii) :=
  out <- strings_at args ;;
  if size <=? 0 then Ok buf
  else store buf 0 (take (size - 1) out ++ [NUL]).

End CLib.

Export CLib.

(* ================================================================== *)
(** * lib/mqtt_wrapper/mqtt_wrapper.c: the stored thing name           *)
(* ================================================================== *)

Module MqttWrapper.

Definition MAX_THING_NAME_SIZE : Z := 128.

(** [static char globalThingName[ MAX_THING_NAME_SIZE + 1 ];] *)
Definition globalThingName_initial : list ascii :=
  zeros (MAX_THING_NAME_SIZE + 1).

(** [thingName] is the object the argument points to. *)
Definition mqttWrapper_setThingName (globalThingName thingName : list ascii)
  : result (list ascii) :=
  strncpy globalThingName thingName MAX_THING_NAME_SIZE.

(** Returns the caller's buffer after the call. *)
Definition mqttWrapper_getThingName (globalThingName thingNameBuffer : list ascii)
  : result (list ascii) :=
  c0 <- index globalThingName 0 ;;
  perform assert (negb (is_nul c0)) ;;
  thingNameLength <- strlen globalThingName ;;
  thingNameBuffer <- memcpy thingNameBuffer 0 globalThingName thingNameLength ;;
  store thingNameBuffer thingNameLength [NUL].

End MqttWrapper.

Export MqttWrapper.

(* ================================================================== *)
(** * lib/iot-core-jobs/source/core_jobs.c                             *)
(* ================================================================== *)

Module CoreJobs.

Definition TOPIC_BUFFER_SIZE : Z := 256.
Definition MAX_THING_NAME_LENGTH : Z := 128.
Definition START_JOB_MSG_LENGTH : Z := 147.
Definition UPDATE_JOB_MSG_LENGTH : Z := 48.
Definition UPDATE_JOB_STATUS_MAX_LENGTH : Z := 8.

(** Modelled from the spec: [MAX_JOB_ID_LENGTH] comes from core_jobs.h, which
    is not among the sources; the job id is a bounded string of at most 64
    bytes, and demo/ota_demo.c defines the same macro as [64U]. *)
Definition MAX_JOB_ID_LENGTH : Z := 64.

(** Modelled from the spec: the enumerations [JobStatus_t] and
    [JobUpdateStatus_t] are declared in core_jobs.h, which is not among the
    sources.  Their enumerators are numbered in the order of the string
    tables below, which the code indexes with them.  A C enumeration value
    is an integer, so a value outside the enumeration can be passed. *)
Definition JobStatus_t : Type := Z.
Definition Queued : JobStatus_t := 0.
Definition InProgress : JobStatus_t := 1.
Definition Failed : JobStatus_t := 2.
Definition Succeeded : JobStatus_t := 3.
Definition Rejected : JobStatus_t := 4.

Definition JobUpdateStatus_t : Type := Z.
Definition JobUpdateStatus_Accepted : JobUpdateStatus_t := 0.
Definition JobUpdateStatus_Rejected : JobUpdateStatus_t := 1.

Definition jobStatusString : list (list ascii) :=
  [ literal (lit "QUEUED");
    literal (lit "IN_PROGRESS");
    literal (lit "FAILED");
    literal (lit "SUCCEEDED");
    literal (lit "REJECTED") ].

Definition jobStatusStringLengths : list Z :=
  [ sizeof (lit "QUEUED") - 1;
    sizeof (lit "IN_PROGRESS") - 1;
    sizeof (lit "FAILED") - 1;
    sizeof (lit "SUCCEEDED") - 1;
    sizeof (lit "REJECTED") - 1 ].

Definition jobUpdateStatusString : list (list ascii) :=
  [ literal (lit "accepted"); literal (lit "rejected") ].

Definition jobUpdateStatusStringLengths : list Z :=
  [ sizeof (lit "accepted") - 1; sizeof (lit "rejected") - 1 ].

(** ** Builders

    Each builder returns the length it reports together with the
    destination buffer after the call. *)

Definition getStartNextPendingJobExecutionTopic
  (thingname : ptr) (thingnameLength : Z) (buffer : list ascii) (bufferSize : Z)
  : result (Z * list ascii) :=
  let topicLength := 0 in
  if negb (is_null thingname) && (thingnameLength >? 0)
     && (bufferSize >=? size_t (28 + thingnameLength))
  then
    let topicLength := sizeof (lit "$aws/things/") - 1 in
    buffer <- memcpy buffer 0 (literal (lit "$aws/things/"))
                     (sizeof (lit "$aws/things/") - 1) ;;
    buffer <- memcpy buffer topicLength (deref thingname) thingnameLength ;;
    let topicLength := size_t (topicLength + thingnameLength) in
    buffer <- memcpy buffer topicLength (literal (lit "/jobs/start-next"))
                     (sizeof (lit "/jobs/start-next") - 1) ;;
    let topicLength := size_t (topicLength + (sizeof (lit "/jobs/start-next") - 1)) in
    Ok (topicLength, buffer)
  else Ok (topicLength, buffer).

Definition getStartNextPendingJobExecutionMsg
  (clientToken : ptr) (clientTokenLength : Z) (buffer : list ascii) (bufferSize : Z)
  : result (Z * list ascii) :=
  let messageLength := 0 in
  if negb (is_null clientToken) && (clientTokenLength >? 0)
     && (bufferSize >=? size_t (18 + clientTokenLength))
  then
    let messageLength := sizeof (quoted "{'clientToken':'") - 1 in
    buffer <- memcpy buffer 0 (literal (quoted "{'clientToken':'"))
                     (sizeof (quoted "{'clientToken':'") - 1) ;;
    buffer <- memcpy buffer messageLength (deref clientToken) clientTokenLength ;;
    let messageLength := size_t (messageLength + clientTokenLength) in
    buffer <- memcpy buffer messageLength (literal (quoted "'}"))
                     (sizeof (quoted "'}") - 1) ;;
    let messageLength := size_t (messageLength + (sizeof (quoted "'}") - 1)) in
    Ok (messageLength, buffer)
  else Ok (messageLength, buffer).

Definition getUpdateJobExecutionTopic
  (thingname : ptr) (thingnameLength : Z) (jobId : ptr) (jobIdLength : Z)
  (buffer : list ascii) (bufferSize : Z)
  : result (Z * list ascii) :=
  let topicLength := 0 in
  if negb (is_null thingname) && negb (is_null jobId)
     && (thingnameLength >? 0) && (jobIdLength >? 0)
     && (bufferSize >=? size_t (size_t (25 + thingnameLength) + jobIdLength))
  then
    let topicLength := sizeof (lit "$aws/things/") - 1 in
    buffer <- memcpy buffer 0 (literal (lit "$aws/things/"))
                     (sizeof (lit "$aws/things/") - 1) ;;
    buffer <- memcpy buffer topicLength (deref thingname) thingnameLength ;;
    let topicLength := size_t (topicLength + thingnameLength) in
    buffer <- memcpy buffer topicLength (literal (lit "/jobs/"))
                     (sizeof (lit "/jobs/") - 1) ;;
    let topicLength := size_t (topicLength + (sizeof (lit "/jobs/") - 1)) in
    buffer <- memcpy buffer topicLength (deref jobId) jobIdLength ;;
    let topicLength := size_t (topicLength + jobIdLength) in
    buffer <- memcpy buffer topicLength (literal (lit "/update"))
                     (sizeof (lit "/update") - 1) ;;
    let topicLength := size_t (topicLength + (sizeof (lit "/update") - 1)) in
    Ok (topicLength, buffer)
  else Ok (topicLength, buffer).

(** The third conjunct of the guard reads [jobStatusStringLengths[ status ]];
    [&&] evaluates it only when the first two hold. *)
Definition getUpdateJobExecutionMsg
  (status : JobStatus_t) (expectedVersion : ptr) (expectedVersionLength : Z)
  (buffer : list ascii) (bufferSize : Z)
  : result (Z * list ascii) :=
  let messageLength := 0 in
  if negb (is_null expectedVersion) && (expectedVersionLength >? 0)
  then
    statusLength <- index jobStatusStringLengths status ;;
    if bufferSize >=? size_t (size_t (34 + expectedVersionLength) + statusLength)
    then
      let messageLength := sizeof (quoted "{'status':'") - 1 in
      buffer <- memcpy buffer 0 (literal (quoted "{'status':'"))
                       (sizeof (quoted "{'status':'") - 1) ;;
      statusString <- index jobStatusString status ;;
      statusLength <- index jobStatusStringLengths status ;;
      buffer <- memcpy buffer messageLength statusString statusLength ;;
      statusLength <- index jobStatusStringLengths status ;;
      let messageLength := size_t (messageLength + statusLength) in
      buffer <- memcpy buffer messageLength
                       (literal (quoted "','expectedVersion':'"))
                       (sizeof (quoted "','expectedVersion':'") - 1) ;;
      let messageLength :=
        size_t (messageLength + (sizeof (quoted "','expectedVersion':'") - 1)) in
      buffer <- memcpy buffer messageLength (deref expectedVersion)
                       expectedVersionLength ;;
      let messageLength := size_t (messageLength + expectedVersionLength) in
      buffer <- memcpy buffer messageLength (literal (quoted "'}"))
                       (sizeof (quoted "'}") - 1) ;;
      let messageLength := size_t (messageLength + (sizeof (quoted "'}") - 1)) in
      Ok (messageLength, buffer)
    else Ok (messageLength, buffer)
  else Ok (messageLength, buffer).

(** ** Matchers *)

(** [globalThingName] is the state of mqtt_wrapper.c that the call to
    [mqttWrapper_getThingName] reads.  (The call passes a second argument,
    [&thingNameLength], which the function of mqtt_wrapper.c does not take
    and which is not read afterwards.) *)
Definition isThingnameTopicMatch
  (globalThingName : list ascii)
  (topic : ptr) (topicLength : Z) (topicSuffix : list ascii) (topicSuffixLength : Z)
  : result bool :=
  let expectedTopicBuffer := zeros (TOPIC_BUFFER_SIZE + 1) in
  let thingName := zeros (MAX_THING_NAME_LENGTH + 1) in
  let suffixTerminated := zeros (MAX_JOB_ID_LENGTH + 1) in
  let isMatch := true in
  let isMatch := if is_null topic || (topicLength =? 0) then false else isMatch in
  if isMatch
  then
    thingName <- mqttWrapper_getThingName globalThingName thingName ;;
    suffixTerminated <- memcpy suffixTerminated 0 topicSuffix topicSuffixLength ;;
    expectedTopicBuffer <-
      snprintf expectedTopicBuffer TOPIC_BUFFER_SIZE
               [ literal (lit "$aws/things/"); thingName; suffixTerminated ] ;;
    expectedLength <- strnlen expectedTopicBuffer TOPIC_BUFFER_SIZE ;;
    if uint32_t expectedLength =? topicLength
    then
      cmp <- strncmp expectedTopicBuffer (deref topic) topicLength ;;
      Ok (cmp =? 0)
    else Ok false
  else Ok isMatch.

Definition coreJobs_isStartNextAccepted
  (globalThingName : list ascii) (topic : ptr) (topicLength : Z) : result bool :=
  suffixLength <- strlen (literal (lit "/jobs/start-next/accepted")) ;;
  isThingnameTopicMatch globalThingName topic topicLength
    (literal (lit "/jobs/start-next/accepted")) suffixLength.

(** The local buffers of [coreJobs_isJobUpdateStatus] and the suffix it
    formats into [suffixBuffer]: the body of the function up to its call of
    [isThingnameTopicMatch].  Returns [suffixBuffer] and the [strnlen] of
    it that is passed on. *)
Definition jobUpdateStatusSuffix
  (jobId : ptr) (jobIdLength : Z) (expectedStatus : JobUpdateStatus_t)
  : result (list ascii * Z) :=
  let suffixBuffer := zeros (TOPIC_BUFFER_SIZE - MAX_THING_NAME_LENGTH - 4) in
  let jobIdTerminated := zeros (MAX_JOB_ID_LENGTH + 1) in
  let updateStatusString := zeros (UPDATE_JOB_STATUS_MAX_LENGTH + 1) in
  jobIdTerminated <- memcpy jobIdTerminated 0 (deref jobId) jobIdLength ;;
  statusString <- index jobUpdateStatusString expectedStatus ;;
  statusLength <- index jobUpdateStatusStringLengths expectedStatus ;;
  updateStatusString <- memcpy updateStatusString 0 statusString statusLength ;;
  suffixBuffer <-
    snprintf suffixBuffer (TOPIC_BUFFER_SIZE - MAX_THING_NAME_LENGTH - 4)
             [ literal (lit "/jobs/"); jobIdTerminated;
               literal (lit "/update/"); updateStatusString ] ;;
  suffixLength <-
    strnlen suffixBuffer (TOPIC_BUFFER_SIZE - MAX_THING_NAME_LENGTH - 4) ;;
  Ok (suffixBuffer, suffixLength).

Definition coreJobs_isJobUpdateStatus
  (globalThingName : list ascii)
  (topic : ptr) (topicLength : Z) (jobId : ptr) (jobIdLength : Z)
  (expectedStatus : JobUpdateStatus_t) : result bool :=
  '(suffixBuffer, suffixLength) <-
    jobUpdateStatusSuffix jobId jobIdLength expectedStatus ;;
  isThingnameTopicMatch globalThingName topic topicLength suffixBuffer suffixLength.

End CoreJobs.

Export CoreJobs.

(* ================================================================== *)
(** * demo/ota_demo.c                                                  *)
(* ================================================================== *)

Module OtaDemo.

Definition CONFIG_BLOCK_SIZE : Z := 256.
Definition CONFIG_MAX_FILE_SIZE : Z := 65536.
Definition NUM_OF_BLOCKS_REQUESTED : Z := 1.
Definition MAX_THING_NAME_SIZE : Z := 128.
Definition MAX_JOB_ID_LENGTH : Z := 64.

(** Modelled from the spec: [AfrOtaJobDocumentFields_t] is declared in
    ota_job_processor.h, which is not among the sources; the file transfer
    descriptor carries a file id, the total size in bytes and the image
    reference handed to the block-transfer collaborator.  Only the fields
    the demo reads are kept; [fileSize] and [fileId] are [uint32_t]. *)
Record AfrOtaJobDocumentFields_t : Type := {
  imageRef : ptr;
  fileId : Z;
  fileSize : Z
}.

(** Modelled from the spec: [MqttFileDownloaderDataBlockInfo_t] is declared
    in MQTTFileDownloader.h, which is not among the sources; a block is a
    payload and its length (a [size_t]). *)
Record MqttFileDownloaderDataBlockInfo_t : Type := {
  payload : list ascii;
  payloadLength : Z
}.

Inductive DataType : Type :=
| DATA_TYPE_JSON
| DATA_TYPE_CBOR.

(** The calls the demo makes into code outside ota_demo.c, and what it
    prints. *)
Inductive Event : Type :=
| ucMqttFileDownloaderInit (image : ptr) (thingName : list ascii) (dataType : DataType)
| ucRequestDataBlock (file blockSize blockOffset numberOfBlocks : Z)
| printf_downloaded (data : list ascii)
| jobs_reportJobStatusComplete
| printf_unrecognized (topic : ptr) (topicLength : Z) (message : ptr) (messageLength : Z).

(** The globals of ota_demo.c, and the trace of events so far (oldest
    first). *)
Record Demo : Type := {
  numOfBlocksRemaining : Z;
  currentBlockOffset : Z;
  currentFileId : Z;
  totalBytesReceived : Z;
  downloadedData : list ascii;
  globalJobId : list ascii;
  trace : list Event
}.

Definition initial : Demo := {|
  numOfBlocksRemaining := 0;
  currentBlockOffset := 0;
  currentFileId := 0;
  totalBytesReceived := 0;
  downloadedData := zeros CONFIG_MAX_FILE_SIZE;
  globalJobId := zeros MAX_JOB_ID_LENGTH;
  trace := []
|}.

Definition emit (e : Event) (d : Demo) : Demo := {|
  numOfBlocksRemaining := numOfBlocksRemaining d;
  currentBlockOffset := currentBlockOffset d;
  currentFileId := currentFileId d;
  totalBytesReceived := totalBytesReceived d;
  downloadedData := downloadedData d;
  globalJobId := globalJobId d;
  trace := trace d ++ [e]
|}.

Definition set_globalJobId (j : list ascii) (d : Demo) : Demo := {|
  numOfBlocksRemaining := numOfBlocksRemaining d;
  currentBlockOffset := currentBlockOffset d;
  currentFileId := currentFileId d;
  totalBytesReceived := totalBytesReceived d;
  downloadedData := downloadedData d;
  globalJobId := j;
  trace := trace d
|}.

(** The signature shared by the incoming-message handlers and by the
    job-accepted callback: two (pointer, length) pairs in, [bool] out. *)
Definition handler : Type :=
  ptr -> Z -> ptr -> Z -> Demo -> result (bool * Demo).

Section Collaborators.

(** Code the demo calls that lives outside the modelled files: the thing
    name accessor, the OTA job document parser, and the two library
    dispatchers of incoming messages. *)
Variable getThingName : list ascii -> result (list ascii).
Variable handleJobDoc : handler.
Variable coreJobsMQTTAPI_handleIncomingMQTTMessage : handler -> handler.
Variable mqttStreams_handleIncomingMessage : handler.

Definition otaDemo_finishDownload (d : Demo) : result Demo :=
  Ok (emit jobs_reportJobStatusComplete d).

Definition otaDemo_handleJobsStartNextAccepted : handler :=
  fun jobId jobIdLength jobDoc jobDocLength d =>
  let handled := false in
  c0 <- index (globalJobId d) 0 ;;
  if is_nul c0
  then
    j <- strncpy (globalJobId d) (deref jobId) jobIdLength ;;
    handleJobDoc jobId jobIdLength jobDoc jobDocLength (set_globalJobId j d)
  else Ok (handled, d).

Definition otaDemo_handleIncomingMQTTMessage : handler :=
  fun topic topicLength message messageLength d =>
  '(handled, d) <-
    coreJobsMQTTAPI_handleIncomingMQTTMessage
      otaDemo_handleJobsStartNextAccepted
      topic topicLength message messageLength d ;;
  '(handled, d) <-
    (if handled then Ok (true, d)
     else mqttStreams_handleIncomingMessage
            topic topicLength message messageLength d) ;;
  if negb handled
  then Ok (handled,
           emit (printf_unrecognized topic topicLength message messageLength) d)
  else Ok (handled, d).

Definition applicationSuppliedFunction_processAfrOtaDocument
  (params : AfrOtaJobDocumentFields_t) (d : Demo) : result Demo :=
  let thingName := zeros (MAX_THING_NAME_SIZE + 1) in
  thingName <- getThingName thingName ;;
  let numOfBlocksRemaining' := uint32_t (fileSize params / CONFIG_BLOCK_SIZE) in
  let numOfBlocksRemaining' :=
    uint32_t (numOfBlocksRemaining'
              + (if fileSize params mod CONFIG_BLOCK_SIZE >? 0 then 1 else 0)) in
  let currentFileId' := uint8_t (fileId params) in
  let currentBlockOffset' := 0 in
  let totalBytesReceived' := 0 in
  Ok {|
    numOfBlocksRemaining := numOfBlocksRemaining';
    currentBlockOffset := currentBlockOffset';
    currentFileId := currentFileId';
    totalBytesReceived := totalBytesReceived';
    downloadedData := downloadedData d;
    globalJobId := globalJobId d;
    trace := trace d
             ++ [ ucMqttFileDownloaderInit (imageRef params) thingName DATA_TYPE_CBOR;
                  ucRequestDataBlock currentFileId' CONFIG_BLOCK_SIZE
                    currentBlockOffset' NUM_OF_BLOCKS_REQUESTED ]
  |}.

Definition otaDemo_handleMqttStreamsBlockArrived
  (dataBlock : MqttFileDownloaderDataBlockInfo_t) (d : Demo) : result Demo :=
  perform assert (size_t (totalBytesReceived d + payloadLength dataBlock)
                <? CONFIG_MAX_FILE_SIZE) ;;
  downloadedData' <-
    memcpy (downloadedData d) (totalBytesReceived d)
           (payload dataBlock) (payloadLength dataBlock) ;;
  let totalBytesReceived' :=
    uint32_t (totalBytesReceived d + payloadLength dataBlock) in
  let numOfBlocksRemaining' := uint32_t (numOfBlocksRemaining d - 1) in
  let d := {|
    numOfBlocksRemaining := numOfBlocksRemaining';
    currentBlockOffset := currentBlockOffset d;
    currentFileId := currentFileId d;
    totalBytesReceived := totalBytesReceived';
    downloadedData := downloadedData';
    globalJobId := globalJobId d;
    trace := trace d
  |} in
  if numOfBlocksRemaining d =? 0
  then
    text <- string_at (downloadedData d) ;;
    otaDemo_finishDownload (emit (printf_downloaded text) d)
  else
    let currentBlockOffset' := uint32_t (currentBlockOffset d + 1) in
    Ok {|
      numOfBlocksRemaining := numOfBlocksRemaining d;
      currentBlockOffset := currentBlockOffset';
      currentFileId := currentFileId d;
      totalBytesReceived := totalBytesReceived d;
      downloadedData := downloadedData d;
      globalJobId := globalJobId d;
      trace := trace d
               ++ [ ucRequestDataBlock (currentFileId d) CONFIG_BLOCK_SIZE
                      currentBlockOffset' NUM_OF_BLOCKS_REQUESTED ]
    |}.

(** The blocks of a transfer arriving one after the other. *)
Fixpoint blocksArrive (blocks : list MqttFileDownloaderDataBlockInfo_t) (d : Demo)
  : result Demo :=
  match blocks with
  | [] => Ok d
  | b :: blocks' =>
      d <- otaDemo_handleMqttStreamsBlockArrived b d ;;
      blocksArrive blocks' d
  end.

End Collaborators.

End OtaDemo.

Export OtaDemo.

(* ================================================================== *)
(** * lib/mqtt_wrapper/mqtt_wrapper.c: the coreMQTT context             *)
(* ================================================================== *)

Module MqttClient.

(** The descriptors of coreMQTT that the wrapper fills in, with the fields
    it assigns after zero-initialising them. *)
Module MQTTConnectInfo_t.
Record t : Type := {
  pClientIdentifier : ptr;
  clientIdentifierLength : Z;
  pUserName : ptr;
  userNameLength : Z;
  pPassword : ptr;
  passwordLength : Z;
  keepAliveSeconds : Z;
  cleanSession : bool
}.
End MQTTConnectInfo_t.

Module MQTTPublishInfo_t.
Record t : Type := {
  qos : Z;
  retain : bool;
  dup : bool;
  pTopicName : ptr;
  topicNameLength : Z;
  pPayload : ptr;
  payloadLength : Z
}.
End MQTTPublishInfo_t.

Module MQTTSubscribeInfo_t.
Record t : Type := {
  qos : Z;
  pTopicFilter : ptr;
  topicFilterLength : Z
}.
End MQTTSubscribeInfo_t.

Section CoreMQTT.

(** coreMQTT, the library behind the wrapper: the context with its
    [connectStatus] field, the two codes the wrapper compares with, and the
    calls it makes.  A call returns its status together with the context as
    the call leaves it; [MQTT_Connect] also sets [sessionPresent]. *)
Variable MQTTContext_t : Type.
Variable connectStatus : MQTTContext_t -> Z.
Variable MQTTSuccess : Z.
Variable MQTTConnected : Z.
Variable MQTT_GetPacketId : MQTTContext_t -> Z * MQTTContext_t.
Variable MQTT_Connect :
  MQTTContext_t -> MQTTConnectInfo_t.t -> ptr -> Z -> Z * bool * MQTTContext_t.
Variable MQTT_Publish :
  MQTTContext_t -> MQTTPublishInfo_t.t -> Z -> Z * MQTTContext_t.
Variable MQTT_Subscribe :
  MQTTContext_t -> list MQTTSubscribeInfo_t.t -> Z -> Z -> Z * MQTTContext_t.
Variable MQTT_Unsubscribe :
  MQTTContext_t -> list MQTTSubscribeInfo_t.t -> Z -> Z -> Z * MQTTContext_t.

(** The statics of mqtt_wrapper.c.  [globalCoreMqttContext] points to the
    one context of the program, which is reached through this pointer only
    once it is set; the record holds the context it points to. *)
Record Wrapper : Type := {
  globalCoreMqttContext : option MQTTContext_t;
  globalThingName : list ascii
}.

Definition Wrapper_initial : Wrapper := {|
  globalCoreMqttContext := None;
  globalThingName := globalThingName_initial
|}.

(** [globalCoreMqttContext != NULL], and the context behind the pointer. *)
Definition context_is_set (w : Wrapper) : bool :=
  match globalCoreMqttContext w with Some _ => true | None => false end.

Definition pointee (p : option MQTTContext_t) : result MQTTContext_t :=
  match p with
  | Some context => Ok context
  | None => Fault OutOfBounds
  end.

Definition context_of (w : Wrapper) : result MQTTContext_t :=
  pointee (globalCoreMqttContext w).

Definition with_context (context : MQTTContext_t) (w : Wrapper) : Wrapper := {|
  globalCoreMqttContext := Some context;
  globalThingName := globalThingName w
|}.

Definition mqttWrapper_setCoreMqttContext
  (mqttContext : option MQTTContext_t) (w : Wrapper) : Wrapper := {|
  globalCoreMqttContext := mqttContext;
  globalThingName := globalThingName w
|}.

Definition mqttWrapper_getCoreMqttContext (w : Wrapper)
  : result (option MQTTContext_t) :=
  perform assert (context_is_set w) ;;
  Ok (globalCoreMqttContext w).

Definition mqttWrapper_connect (w : Wrapper) : result (bool * Wrapper) :=
  perform assert (context_is_set w) ;;
  clientIdentifierLength <- strlen (globalThingName w) ;;
  let connectInfo := {|
    MQTTConnectInfo_t.pClientIdentifier := Some (globalThingName w);
    MQTTConnectInfo_t.clientIdentifierLength := clientIdentifierLength;
    MQTTConnectInfo_t.pUserName := None;
    MQTTConnectInfo_t.userNameLength := 0;
    MQTTConnectInfo_t.pPassword := None;
    MQTTConnectInfo_t.passwordLength := 0;
    MQTTConnectInfo_t.keepAliveSeconds := 60;
    MQTTConnectInfo_t.cleanSession := true
  |} in
  context <- context_of w ;;
  let '(mqttStatus, sessionPresent, context) :=
    MQTT_Connect context connectInfo None 5000 in
  Ok (mqttStatus =? MQTTSuccess, with_context context w).

Definition mqttWrapper_isConnected (w : Wrapper) : result bool :=
  perform assert (context_is_set w) ;;
  context <- context_of w ;;
  let isConnected := connectStatus context =? MQTTConnected in
  Ok isConnected.

Definition mqttWrapper_publish
  (topic : ptr) (topicLength : Z) (message : ptr) (messageLength : Z)
  (w : Wrapper) : result (bool * Wrapper) :=
  perform assert (context_is_set w) ;;
  success <- mqttWrapper_isConnected w ;;
  if success
  then
    let pubInfo := {|
      MQTTPublishInfo_t.qos := 0;
      MQTTPublishInfo_t.retain := false;
      MQTTPublishInfo_t.dup := false;
      MQTTPublishInfo_t.pTopicName := topic;
      MQTTPublishInfo_t.topicNameLength := topicLength;
      MQTTPublishInfo_t.pPayload := message;
      MQTTPublishInfo_t.payloadLength := messageLength
    |} in
    context <- context_of w ;;
    let '(packetId, context) := MQTT_GetPacketId context in
    let '(mqttStatus, context) := MQTT_Publish context pubInfo packetId in
    let success := mqttStatus =? MQTTSuccess in
    Ok (success, with_context context w)
  else Ok (success, w).

Definition mqttWrapper_subscribe (topic : ptr) (topicLength : Z) (w : Wrapper)
  : result (bool * Wrapper) :=
  perform assert (context_is_set w) ;;
  success <- mqttWrapper_isConnected w ;;
  if success
  then
    let subscribeInfo := {|
      MQTTSubscribeInfo_t.qos := 0;
      MQTTSubscribeInfo_t.pTopicFilter := topic;
      MQTTSubscribeInfo_t.topicFilterLength := topicLength
    |} in
    context <- context_of w ;;
    let '(packetId, context) := MQTT_GetPacketId context in
    let '(mqttStatus, context) :=
      MQTT_Subscribe context [subscribeInfo] 1 packetId in
    let success := mqttStatus =? MQTTSuccess in
    Ok (success, with_context context w)
  else Ok (success, w).

Definition mqttWrapper_unsubscribe (topic : ptr) (topicLength : Z) (w : Wrapper)
  : result (bool * Wrapper) :=
  success <- mqttWrapper_isConnected w ;;
  if success
  then
    let unsubscribeList := {|
      MQTTSubscribeInfo_t.qos := 0;
      MQTTSubscribeInfo_t.pTopicFilter := topic;
      MQTTSubscribeInfo_t.topicFilterLength := topicLength
    |} in
    context <- mqttWrapper_getCoreMqttContext w ;;
    context <- pointee context ;;
    let '(packetId, context) := MQTT_GetPacketId context in
    let '(mqttStatus, context) :=
      MQTT_Unsubscribe context [unsubscribeList] 1 packetId in
    let success := mqttStatus =? MQTTSuccess in
    Ok (success, with_context context w)
  else Ok (success, w).

End CoreMQTT.

End MqttClient.

(* ================================================================== *)
(** * lib/iot-core-jobs/source/core_jobs.c: the two requests            *)
(* ================================================================== *)

Module CoreJobsRequests.

Section Publisher.

(** [mqttWrapper_publish] of mqtt_wrapper.c and the state it works on. *)
Variable Wrapper : Type.
Variable mqttWrapper_publish :
  ptr -> Z -> ptr -> Z -> Wrapper -> result (bool * Wrapper).

Definition coreJobs_startNextPendingJob
  (thingname : ptr) (thingnameLength : Z)
  (clientToken : ptr) (clientTokenLength : Z) (w : Wrapper)
  : result (bool * Wrapper) :=
  let published := false in
  let topicBuffer := zeros (TOPIC_BUFFER_SIZE + 1) in
  let messageBuffer := zeros START_JOB_MSG_LENGTH in
  '(topicLength, topicBuffer) <-
    getStartNextPendingJobExecutionTopic thingname thingnameLength
      topicBuffer TOPIC_BUFFER_SIZE ;;
  '(messageLength, messageBuffer) <-
    getStartNextPendingJobExecutionMsg clientToken clientTokenLength
      messageBuffer START_JOB_MSG_LENGTH ;;
  if (topicLength >? 0) && (messageLength >? 0)
  then mqttWrapper_publish (Some topicBuffer) topicLength
         (Some messageBuffer) messageLength w
  else Ok (published, w).

Definition coreJobs_updateJobStatus
  (thingname : ptr) (thingnameLength : Z) (jobId : ptr) (jobIdLength : Z)
  (status : JobStatus_t) (expectedVersion : ptr) (expectedVersionLength : Z)
  (w : Wrapper) : result (bool * Wrapper) :=
  let published := false in
  let topicBuffer := zeros (TOPIC_BUFFER_SIZE + 1) in
  let messageBuffer := zeros UPDATE_JOB_MSG_LENGTH in
  '(topicLength, topicBuffer) <-
    getUpdateJobExecutionTopic thingname thingnameLength jobId jobIdLength
      topicBuffer TOPIC_BUFFER_SIZE ;;
  '(messageLength, messageBuffer) <-
    getUpdateJobExecutionMsg status expectedVersion expectedVersionLength
      messageBuffer UPDATE_JOB_MSG_LENGTH ;;
  if (topicLength >? 0) && (messageLength >? 0)
  then mqttWrapper_publish (Some topicBuffer) topicLength
         (Some messageBuffer) messageLength w
  else Ok (published, w).

End Publisher.

End CoreJobsRequests.

(* ================================================================== *)
(** * main/src/main.c                                                  *)
(* ================================================================== *)

Module Main.

(** What main.c prints while it handles a message. *)
Inductive Output : Type :=
| printf_hello (message : list ascii)
| printf_unhandled (topic : ptr) (topicLength : Z) (message : ptr) (messageLength : Z).

(** The state that handling a message works on: the globals of ota_demo.c
    and the lines printed by main.c (oldest first). *)
Record State : Type := {
  demo : Demo;
  console : list Output
}.

Definition print (o : Output) (m : State) : State := {|
  demo := demo m;
  console := console m ++ [o]
|}.

Definition set_demo (d : Demo) (m : State) : State := {|
  demo := d;
  console := console m
|}.

Section Collaborators.

Variable handleJobDoc : handler.
Variable coreJobsMQTTAPI_handleIncomingMQTTMessage : handler -> handler.
Variable mqttStreams_handleIncomingMessage : handler.

Definition handleIncomingMQTTMessage
  (topic : ptr) (topicLength : Z) (message : ptr) (messageLength : Z)
  (m : State) : result State :=
  let messageHandled := false in
  cmp <- strcmp (literal (lit "Hello")) (deref topic) ;;
  '(messageHandled, m) <-
    (if cmp =? 0
     then
       text <- string_at (deref message) ;;
       Ok (true, print (printf_hello text) m)
     else
       '(handled, d) <-
         otaDemo_handleIncomingMQTTMessage handleJobDoc
           coreJobsMQTTAPI_handleIncomingMQTTMessage
           mqttStreams_handleIncomingMessage
           topic topicLength message messageLength (demo m) ;;
       Ok (handled, set_demo d m)) ;;
  if negb messageHandled
  then Ok (print (printf_unhandled topic topicLength message messageLength) m)
  else Ok m.

End Collaborators.

Section Clock.

(** [configTICK_RATE_HZ] comes from the FreeRTOS configuration of the
    board.  The tick count is cast to [uint32_t] first; the product and the
    quotient are computed in that type. *)
Variable configTICK_RATE_HZ : Z.

Definition getTimeMs (xTaskGetTickCount : Z) : Z :=
  uint32_t (uint32_t (uint32_t xTaskGetTickCount * 1000) / configTICK_RATE_HZ).

End Clock.

End Main.

(* ================================================================== *)
(** * Vocabulary of the statements                                    *)
(* ================================================================== *)

(** A string proper: no terminator among its characters. *)
Definition nul_free (s : list ascii) : Prop := Forall (fun c => c <> NUL) s.

(** [globalThingName] holds the device identity [name]. *)
Definition stored_name (globalThingName name : list ascii) : Prop :=
  nul_free name
  /\ 0 < len name <= MqttWrapper.MAX_THING_NAME_SIZE
  /\ exists rest, globalThingName = name ++ NUL :: rest.

(** [globalThingName] after [mqttWrapper_setThingName( "thingname" )], the
    device of the unit tests. *)
Definition thingname_stored : list ascii := lit "thingname" ++ repeat NUL 120.

(** The topic a matcher reconstructs for the device [name]. *)
Definition expectedTopic (name suffix : list ascii) : list ascii :=
  lit "$aws/things/" ++ name ++ suffix.

(** The status strings of the protocol, as the specification lists them. *)
Definition STATUS_STRING : list (JobStatus_t * list ascii) :=
  [ (Queued, lit "QUEUED");
    (InProgress, lit "IN_PROGRESS");
    (Failed, lit "FAILED");
    (Succeeded, lit "SUCCEEDED");
    (Rejected, lit "REJECTED") ].

(** The body of a status update. *)
Definition updateMessage (text version : list ascii) : list ascii :=
  quoted "{'status':'" ++ text ++ quoted "','expectedVersion':'"
  ++ version ++ quoted "'}".

(** The acknowledgement words, as the specification lists them. *)
Definition UPDATE_STATUS_STRING : list (JobUpdateStatus_t * list ascii) :=
  [ (JobUpdateStatus_Accepted, lit "accepted");
    (JobUpdateStatus_Rejected, lit "rejected") ].

(** What follows the device name in the topic of an update's outcome. *)
Definition updateSuffix (job word : list ascii) : list ascii :=
  lit "/jobs/" ++ job ++ lit "/update/" ++ word.

(** The reassembly buffer has its declared capacity, its last byte is still
    the zero it was initialised with, and the byte counter is below the
    capacity.  This holds initially and after every arrival that returns. *)
Definition buffer_ok (d : Demo) : Prop :=
  (exists body, downloadedData d = body ++ [NUL])
  /\ len (downloadedData d) = CONFIG_MAX_FILE_SIZE
  /\ 0 <= totalBytesReceived d < CONFIG_MAX_FILE_SIZE.

(** The block's length does not exceed the payload it points to, and is
    small enough for the sum of the capacity check not to wrap. *)
Definition block_ok (b : MqttFileDownloaderDataBlockInfo_t) : Prop :=
  0 <= payloadLength b <= len (payload b)
  /\ payloadLength b <= SIZE_MAX - CONFIG_MAX_FILE_SIZE.

(** The bytes a block delivers. *)
Definition received (b : MqttFileDownloaderDataBlockInfo_t) : list ascii :=
  take (payloadLength b) (payload b).

(** The sum of the payload lengths of [blocks]. *)
Definition total_length (blocks : list MqttFileDownloaderDataBlockInfo_t) : Z :=
  fold_right (fun b sum => payloadLength b + sum) 0 blocks.

(** The requests for [count] consecutive blocks starting at offset [from]. *)
Definition requests (file from : Z) (count : nat) : list Event :=
  map (fun i => ucRequestDataBlock file CONFIG_BLOCK_SIZE (from + Z.of_nat i)
                  NUM_OF_BLOCKS_REQUESTED)
      (seq 0 count).

(** [ceil( n / d )] *)
Definition ceiling (n d : Z) : Z := (n + d - 1) / d.

(** Completion has been signalled. *)
Definition completed (d : Demo) : Prop :=
  In jobs_reportJobStatusComplete (trace d).

(** A block that carries a full [CONFIG_BLOCK_SIZE] bytes. *)
Definition full_block (b : MqttFileDownloaderDataBlockInfo_t) : Prop :=
  payloadLength b = CONFIG_BLOCK_SIZE /\ CONFIG_BLOCK_SIZE <= len (payload b).

(** Every block carries what is left of the file, up to the block size. *)
Definition full_sized (fileSize : Z)
  (blocks : list MqttFileDownloaderDataBlockInfo_t) : Prop :=
  forall i b,
    nth_error blocks i = Some b ->
    payloadLength b
    = Z.min CONFIG_BLOCK_SIZE (fileSize - CONFIG_BLOCK_SIZE * Z.of_nat i).

(** The block offsets requested in a trace, in order, and the number of
    completion signals in it. *)
Fixpoint requested_offsets (t : list Event) : list Z :=
  match t with
  | [] => []
  | ucRequestDataBlock _ _ blockOffset _ :: t' => blockOffset :: requested_offsets t'
  | _ :: t' => requested_offsets t'
  end.

Fixpoint completions (t : list Event) : nat :=
  match t with
  | [] => O
  | jobs_reportJobStatusComplete :: t' => S (completions t')
  | _ :: t' => completions t'
  end.

(** Sample blocks: [n] bytes [c]; a block larger than the whole buffer;
    the 256 full blocks of a file of 65536 bytes. *)
Definition block_of (c : ascii) (n : Z) : MqttFileDownloaderDataBlockInfo_t :=
  {| payload := repeat c (Z.to_nat n); payloadLength := n |}.

Definition oversized_block : MqttFileDownloaderDataBlockInfo_t :=
  {| payload := repeat "a"%char (Z.to_nat 70000); payloadLength := 70000 |}.

Definition full_size_blocks : list MqttFileDownloaderDataBlockInfo_t :=
  repeat {| payload := repeat "a"%char 256; payloadLength := 256 |} 256.

(** A job document parser that hands the parsed fields to the download
    initialisation. *)
Definition handleJobDoc_with (params : AfrOtaJobDocumentFields_t) : handler :=
  fun _ _ _ _ d =>
    d' <- applicationSuppliedFunction_processAfrOtaDocument
            (fun buffer => Ok buffer) params d ;;
    Ok (true, d').

(** A jobs dispatch and a block-arrival dispatch that do not recognise the
    topic. *)
Definition jobs_dispatch_declines : handler -> handler :=
  fun _ _ _ _ _ d => Ok (false, d).

Definition streams_dispatch_declines : handler :=
  fun _ _ _ _ d => Ok (false, d).

(** [globalThingName] has its declared size and still ends with the zero
    it was initialised with. *)
Definition thingname_ok (globalThingName : list ascii) : Prop :=
  exists body,
    globalThingName = body ++ [NUL] /\ len body = MqttWrapper.MAX_THING_NAME_SIZE.

(** The bytes [blocks] deliver, in the order of arrival. *)
Definition contents (blocks : list MqttFileDownloaderDataBlockInfo_t)
  : list ascii :=
  concat (map received blocks).

(** The [n] bytes at [p] can be read, unless [p] is null. *)
Definition readable (p : ptr) (n : Z) : Prop :=
  is_null p = true \/ n <= len (deref p).

(** The topics of the two requests. *)
Definition startNextTopic (name : list ascii) : list ascii :=
  lit "$aws/things/" ++ name ++ lit "/jobs/start-next".

Definition startNextMessage (token : list ascii) : list ascii :=
  quoted "{'clientToken':'" ++ token ++ quoted "'}".

Definition updateTopic (name job : list ascii) : list ascii :=
  lit "$aws/things/" ++ name ++ lit "/jobs/" ++ job ++ lit "/update".

(** A local array of [size] zeros after [bytes] have been written at its
    start. *)
Definition filled (size : Z) (bytes : list ascii) : list ascii :=
  bytes ++ zeros (size - len bytes).

(** A stand-in for coreMQTT: the context is the connection status and the
    last packet id; a publish costs nothing and succeeds. *)
Definition loop_GetPacketId (context : Z * Z) : Z * (Z * Z) :=
  (snd context + 1, (fst context, snd context + 1)).

Definition loop_Publish (context : Z * Z) (info : MqttClient.MQTTPublishInfo_t.t)
  (packetId : Z) : Z * (Z * Z) :=
  (0, context).

Definition loop_Subscribe (context : Z * Z)
  (list : list MqttClient.MQTTSubscribeInfo_t.t) (count packetId : Z)
  : Z * (Z * Z) :=
  (0, context).

Definition loop_Connect (context : Z * Z) (info : MqttClient.MQTTConnectInfo_t.t)
  (will : ptr) (timeoutMs : Z) : Z * bool * (Z * Z) :=
  (0, false, (1, snd context)).

(** What [mqttWrapper_publish] hands to coreMQTT, and what it makes of the
    answer. *)
Definition published_as {MQTTContext_t : Type} (MQTTSuccess : Z)
  (MQTT_GetPacketId : MQTTContext_t -> Z * MQTTContext_t)
  (MQTT_Publish :
     MQTTContext_t -> MqttClient.MQTTPublishInfo_t.t -> Z -> Z * MQTTContext_t)
  (topic : ptr) (topicLength : Z) (message : ptr) (messageLength : Z)
  (c : MQTTContext_t) (w : MqttClient.Wrapper MQTTContext_t)
  : bool * MqttClient.Wrapper MQTTContext_t :=
  let info := {|
    MqttClient.MQTTPublishInfo_t.qos := 0;
    MqttClient.MQTTPublishInfo_t.retain := false;
    MqttClient.MQTTPublishInfo_t.dup := false;
    MqttClient.MQTTPublishInfo_t.pTopicName := topic;
    MqttClient.MQTTPublishInfo_t.topicNameLength := topicLength;
    MqttClient.MQTTPublishInfo_t.pPayload := message;
    MqttClient.MQTTPublishInfo_t.payloadLength := messageLength
  |} in
  let sent :=
    MQTT_Publish (snd (MQTT_GetPacketId c)) info (fst (MQTT_GetPacketId c)) in
  (fst sent =? MQTTSuccess, MqttClient.with_context MQTTContext_t (snd sent) w).

(** A wrapper whose context is the stand-in with connection status
    [status] (1 is connected), for the device of the unit tests. *)
Definition loop_wrapper (status : Z) : MqttClient.Wrapper (Z * Z) := {|
  MqttClient.globalCoreMqttContext := Some (status, 0);
  MqttClient.globalThingName := thingname_stored
|}.

(** main.c before any message. *)
Definition main_initial : Main.State := {|
  Main.demo := initial;
  Main.console := []
|}.

(* ================================================================== *)
(** * Facts about the run time                                         *)
(* ================================================================== *)

Global Opaque zeros.

Section ListFacts.

Context {A : Type}.
Implicit Types a b m : list A.

Lemma len_nonneg m : 0 <= len m.
Proof. unfold len; lia. Qed.

Lemma len_nil : len (@nil A) = 0.
Proof. reflexivity. Qed.

Lemma len_cons x m : len (x :: m) = 1 + len m.
Proof. unfold len; simpl length; lia. Qed.

Lemma len_app a b : len (a ++ b) = len a + len b.
Proof. unfold len; rewrite length_app; lia. Qed.

Lemma len_take n m : 0 <= n <= len m -> len (take n m) = n.
Proof. unfold len, take; rewrite length_firstn; lia. Qed.

Lemma len_drop n m : 0 <= n <= len m -> len (drop n m) = len m - n.
Proof. unfold len, drop; rewrite length_skipn; lia. Qed.

Lemma take_app_len a b : take (len a) (a ++ b) = a.
Proof.
  unfold take, len; rewrite Nat2Z.id, firstn_app, Nat.sub_diag, firstn_all.
  simpl; apply app_nil_r.
Qed.

Lemma drop_app_len a b : drop (len a) (a ++ b) = b.
Proof.
  unfold drop, len; rewrite Nat2Z.id, skipn_app, Nat.sub_diag, skipn_all.
  reflexivity.
Qed.

Lemma take_len m : take (len m) m = m.
Proof. unfold take, len; rewrite Nat2Z.id; apply firstn_all. Qed.

Lemma take_drop n m : take n m ++ drop n m = m.
Proof. apply firstn_skipn. Qed.

Lemma take_short n a b : 0 <= n <= len a -> take n (a ++ b) = take n a.
Proof.
  unfold take, len; intros H; rewrite firstn_app.
  replace (Z.to_nat n - length a)%nat with O by lia.
  simpl; apply app_nil_r.
Qed.

Lemma take_long n m : len m <= n -> take n m = m.
Proof. unfold take, len; intros H; apply firstn_all2; lia. Qed.

End ListFacts.

Lemma len_zeros n : 0 <= n -> len (zeros n) = n.
Proof.
  intros H; unfold len. Transparent zeros. unfold zeros. Opaque zeros.
  rewrite repeat_length; lia.
Qed.

Lemma load_ok src n : 0 <= n <= len src -> load src n = Ok (take n src).
Proof.
  intros H; unfold load.
  replace ((0 <=? n) && (n <=? len src)) with true; [reflexivity|].
  symmetry; apply andb_true_iff; split; apply Z.leb_le; lia.
Qed.

Lemma load_prefix s rest : load (s ++ rest) (len s) = Ok s.
Proof.
  rewrite load_ok, take_app_len; [reflexivity|].
  rewrite len_app; pose proof (len_nonneg s); pose proof (len_nonneg rest); lia.
Qed.

Lemma load_fault src n : len src < n -> load src n = Fault OutOfBounds.
Proof.
  intros H; unfold load.
  replace (n <=? len src) with false by (symmetry; apply Z.leb_gt; lia).
  rewrite andb_false_r; reflexivity.
Qed.

Lemma store_ok dst off bytes :
  0 <= off -> off + len bytes <= len dst ->
  store dst off bytes = Ok (take off dst ++ bytes ++ drop (off + len bytes) dst).
Proof.
  intros H1 H2; unfold store.
  replace ((0 <=? off) && (off + len bytes <=? len dst)) with true; [reflexivity|].
  symmetry; apply andb_true_iff; split; apply Z.leb_le; lia.
Qed.

Lemma store_fault dst off bytes :
  len dst < off + len bytes -> store dst off bytes = Fault OutOfBounds.
Proof.
  intros H; unfold store.
  replace (off + len bytes <=? len dst) with false by (symmetry; apply Z.leb_gt; lia).
  rewrite andb_false_r; reflexivity.
Qed.

(** Writing right after an already written prefix. *)
Lemma store_after pre rest bytes :
  len bytes <= len rest ->
  store (pre ++ rest) (len pre) bytes = Ok ((pre ++ bytes) ++ drop (len bytes) rest).
Proof.
  intros H. pose proof (len_nonneg pre). pose proof (len_nonneg bytes).
  rewrite store_ok; [|lia|rewrite len_app; lia].
  rewrite take_app_len. f_equal. rewrite <- app_assoc. do 2 f_equal.
  unfold drop, len in *. rewrite skipn_app.
  rewrite skipn_all2 by lia. simpl. f_equal. lia.
Qed.

Lemma memcpy_prefix dst off s rest :
  memcpy dst off (s ++ rest) (len s) = store dst off s.
Proof. unfold memcpy; rewrite load_prefix; reflexivity. Qed.

Lemma memcpy_literal dst off s :
  memcpy dst off (literal s) (sizeof s - 1) = store dst off s.
Proof.
  unfold literal, sizeof. replace (len s + 1 - 1) with (len s) by lia.
  apply memcpy_prefix.
Qed.

Lemma size_t_small x : 0 <= x <= SIZE_MAX -> size_t x = x.
Proof. unfold size_t, SIZE_MAX; intros H; apply Z.mod_small; lia. Qed.

Lemma uint32_t_small x : 0 <= x < 4294967296 -> uint32_t x = x.
Proof. unfold uint32_t; intros H; apply Z.mod_small; lia. Qed.

(** ** Zero-initialised arrays *)

Lemma zeros_repeat n : zeros n = repeat NUL (Z.to_nat n).
Proof. Transparent zeros. reflexivity. Opaque zeros. Qed.

Lemma zeros_0 : zeros 0 = [].
Proof. rewrite zeros_repeat; reflexivity. Qed.

Lemma zeros_succ n : 0 < n -> zeros n = NUL :: zeros (n - 1).
Proof.
  intros H; rewrite !zeros_repeat.
  replace (Z.to_nat n) with (S (Z.to_nat (n - 1))) by lia. reflexivity.
Qed.

Lemma take_zeros k n : 0 <= k <= n -> take k (zeros n) = zeros k.
Proof.
  intros H; rewrite !zeros_repeat; unfold take.
  replace (Z.to_nat n) with (Z.to_nat k + Z.to_nat (n - k))%nat by lia.
  rewrite repeat_app, firstn_app, repeat_length, Nat.sub_diag.
  rewrite firstn_all2 by (rewrite repeat_length; lia).
  simpl; apply app_nil_r.
Qed.

Lemma drop_zeros k n : 0 <= k <= n -> drop k (zeros n) = zeros (n - k).
Proof.
  intros H; rewrite !zeros_repeat; unfold drop.
  replace (Z.to_nat n) with (Z.to_nat k + Z.to_nat (n - k))%nat by lia.
  rewrite repeat_app, skipn_app, repeat_length, Nat.sub_diag.
  rewrite skipn_all2 by (rewrite repeat_length; lia).
  reflexivity.
Qed.

(** Filling the front of a zeroed array. *)
Lemma store_zeros n bytes :
  len bytes <= n -> store (zeros n) 0 bytes = Ok (bytes ++ zeros (n - len bytes)).
Proof.
  intros H. pose proof (len_nonneg bytes).
  rewrite store_ok; [|lia|rewrite len_zeros; lia].
  rewrite take_zeros, zeros_0 by lia. simpl.
  rewrite drop_zeros by lia. reflexivity.
Qed.

(** ** Strings without an embedded terminator *)

Lemma is_nul_NUL : is_nul NUL = true.
Proof. reflexivity. Qed.

Lemma is_nul_true c : is_nul c = true <-> c = NUL.
Proof. apply Ascii.eqb_eq. Qed.

Lemma is_nul_false c : is_nul c = false <-> c <> NUL.
Proof. apply Ascii.eqb_neq. Qed.

Lemma nul_free_forallb s :
  forallb (fun c => negb (is_nul c)) s = true -> nul_free s.
Proof.
  intros H; apply Forall_forall; intros c Hc.
  rewrite forallb_forall in H. specialize (H c Hc).
  apply is_nul_false. destruct (is_nul c); [discriminate|reflexivity].
Qed.

Lemma nul_free_app a b : nul_free a -> nul_free b -> nul_free (a ++ b).
Proof. intros Ha Hb; apply Forall_app; split; assumption. Qed.

Lemma nul_free_take n s : nul_free s -> nul_free (take n s).
Proof.
  unfold nul_free; intros H; apply Forall_forall; intros c Hc.
  rewrite Forall_forall in H; apply H.
  rewrite <- (take_drop n s); apply in_or_app; left; exact Hc.
Qed.

Ltac nul_free_lit := apply nul_free_forallb; vm_compute; reflexivity.

Lemma strlen_nat_terminated s rest :
  nul_free s -> strlen_nat (s ++ NUL :: rest) = Some (length s).
Proof.
  induction 1 as [|c s Hc Hs IH]; simpl.
  - reflexivity.
  - apply is_nul_false in Hc; rewrite Hc, IH; reflexivity.
Qed.

Lemma strlen_nat_unterminated s : nul_free s -> strlen_nat s = None.
Proof.
  induction 1 as [|c s Hc Hs IH]; simpl.
  - reflexivity.
  - apply is_nul_false in Hc; rewrite Hc, IH; reflexivity.
Qed.

Lemma strlen_terminated s rest :
  nul_free s -> strlen (s ++ NUL :: rest) = Ok (len s).
Proof. intros H; unfold strlen; rewrite strlen_nat_terminated by assumption; reflexivity. Qed.

Lemma string_at_terminated s rest :
  nul_free s -> string_at (s ++ NUL :: rest) = Ok s.
Proof.
  intros H; unfold string_at; rewrite strlen_terminated by assumption.
  simpl; rewrite take_app_len; reflexivity.
Qed.

Lemma string_at_literal s : nul_free s -> string_at (literal s) = Ok s.
Proof. apply string_at_terminated. Qed.

Lemma string_at_unterminated s : nul_free s -> string_at s = Fault OutOfBounds.
Proof.
  intros H; unfold string_at, strlen.
  rewrite strlen_nat_unterminated by assumption; reflexivity.
Qed.

Lemma strnlen_nat_terminated s rest n :
  nul_free s -> (length s <= n)%nat ->
  strnlen_nat (s ++ NUL :: rest) n = Some (length s).
Proof.
  intros H; revert n; induction H as [|c s Hc Hs IH]; intros n Hn; simpl in Hn.
  - destruct n; simpl; rewrite ?is_nul_NUL; reflexivity.
  - destruct n as [|n]; [lia|]. simpl.
    apply is_nul_false in Hc; rewrite Hc, IH by lia; reflexivity.
Qed.

Lemma strnlen_terminated s rest n :
  nul_free s -> len s <= n -> strnlen (s ++ NUL :: rest) n = Ok (len s).
Proof.
  intros H Hn; unfold strnlen, len in *.
  rewrite strnlen_nat_terminated by (assumption || lia); reflexivity.
Qed.

Lemma uchar_inj x y : uchar x = uchar y -> x = y.
Proof.
  unfold uchar; intros H; apply Nat2Z.inj in H.
  rewrite <- (ascii_nat_embedding x), <- (ascii_nat_embedding y), H; reflexivity.
Qed.

(** Comparing against a terminator-free expected string of exactly [n]
    characters decides equality with the first [n] bytes of the other
    operand. *)
Lemma strncmp_nat_exact e rest t :
  nul_free e -> (length e <= length t)%nat ->
  exists d, strncmp_nat (e ++ rest) t (length e) = Some d
            /\ (d = 0 <-> firstn (length e) t = e).
Proof.
  intros H; revert t; induction H as [|x e Hx He IH]; intros t Ht; simpl in *.
  - exists 0; split; [reflexivity|]. split; reflexivity.
  - destruct t as [|y t]; simpl in *; [lia|].
    destruct (Ascii.eqb_spec x y) as [->|Hxy].
    + apply is_nul_false in Hx; rewrite Hx.
      destruct (IH t) as [d [Hd Hiff]]; [lia|].
      exists d; split; [exact Hd|].
      rewrite Hiff; split; [intros ->; reflexivity|intros [= E]; exact E].
    + exists (uchar x - uchar y); split; [reflexivity|].
      split.
      * intros E; exfalso; apply Hxy, uchar_inj; lia.
      * intros [= E _]; exfalso; apply Hxy; symmetry; exact E.
Qed.

Lemma strncmp_exact e rest t n :
  nul_free e -> n = len e -> n <= len t ->
  exists d, strncmp (e ++ rest) t n = Ok d /\ (d = 0 <-> take n t = e).
Proof.
  intros H -> Ht; unfold strncmp, take, len in *; rewrite Nat2Z.id.
  destruct (strncmp_nat_exact e rest t H) as [d [Hd Hiff]]; [lia|].
  exists d; rewrite Hd; split; [reflexivity|exact Hiff].
Qed.

Lemma strncpy_bytes_terminated s rest n :
  nul_free s ->
  strncpy_bytes (s ++ NUL :: rest) n
  = Some (firstn n s ++ repeat NUL (n - length s)).
Proof.
  intros H; revert n; induction H as [|c s Hc Hs IH]; intros n.
  - destruct n; reflexivity.
  - destruct n as [|n]; [reflexivity|].
    simpl. apply is_nul_false in Hc; rewrite Hc, IH; reflexivity.
Qed.

Lemma strings_at_cons m args s out :
  string_at m = Ok s -> strings_at args = Ok out ->
  strings_at (m :: args) = Ok (s ++ out).
Proof. intros H1 H2; simpl; rewrite H1; simpl; rewrite H2; reflexivity. Qed.

Lemma snprintf_zeros cap size args out :
  strings_at args = Ok out -> 0 < size <= cap -> len out < size ->
  snprintf (zeros cap) size args = Ok (out ++ NUL :: zeros (cap - len out - 1)).
Proof.
  intros Hargs Hsize Hout; unfold snprintf; rewrite Hargs; simpl.
  replace (size <=? 0) with false by (symmetry; apply Z.leb_gt; lia).
  rewrite take_long by lia.
  rewrite store_zeros by (rewrite len_app, len_cons, len_nil; lia).
  replace (cap - len (out ++ [NUL])) with (cap - len out - 1)
    by (rewrite len_app, len_cons, len_nil; lia).
  rewrite <- app_assoc; reflexivity.
Qed.

(* ================================================================== *)
(** * The stored thing name and topic matching                         *)
(* ================================================================== *)

Ltac run_bind := cbn [bind].

Lemma mqttWrapper_setThingName_stored name rest :
  nul_free name -> 0 < len name <= MqttWrapper.MAX_THING_NAME_SIZE ->
  exists g,
    mqttWrapper_setThingName globalThingName_initial (name ++ NUL :: rest) = Ok g
    /\ stored_name g name.
Proof.
  intros Hfree Hlen.
  unfold mqttWrapper_setThingName, strncpy, globalThingName_initial,
    MqttWrapper.MAX_THING_NAME_SIZE in *.
  rewrite strncpy_bytes_terminated by assumption.
  rewrite firstn_all2 by (unfold len in Hlen; lia).
  set (pad := repeat NUL (Z.to_nat 128 - length name)).
  assert (Hpad : len (name ++ pad) = 128).
  { rewrite len_app; unfold pad, len in *; rewrite repeat_length; lia. }
  rewrite store_zeros by lia. rewrite Hpad.
  eexists; split; [reflexivity|].
  split; [assumption|]. split; [assumption|].
  exists (pad ++ zeros 0).
  rewrite <- app_assoc. f_equal.
  change (128 + 1 - 128) with 1. rewrite (zeros_succ 1) by lia.
  change (1 - 1) with 0. unfold pad.
  change (NUL :: repeat NUL (Z.to_nat 128 - length name) ++ zeros 0)
    with ((NUL :: repeat NUL (Z.to_nat 128 - length name)) ++ zeros 0).
  rewrite repeat_cons, <- app_assoc. reflexivity.
Qed.

Lemma mqttWrapper_getThingName_stored g name n :
  stored_name g name -> len name < n ->
  mqttWrapper_getThingName g (zeros n)
  = Ok (name ++ NUL :: zeros (n - len name - 1)).
Proof.
  intros (Hfree & Hlen & rest & ->) Hn.
  unfold mqttWrapper_getThingName.
  destruct name as [|c name]; [unfold len in Hlen; simpl in Hlen; lia|].
  assert (Hc : is_nul c = false).
  { apply is_nul_false; inversion Hfree; assumption. }
  change (index ((c :: name) ++ NUL :: rest) 0) with (@Ok ascii c). run_bind.
  rewrite Hc. cbn [negb assert]. run_bind.
  rewrite strlen_terminated by assumption. run_bind.
  rewrite memcpy_prefix, store_zeros by lia. run_bind.
  rewrite store_after.
  - rewrite <- app_assoc. cbn [app]. rewrite len_cons, len_nil.
    rewrite drop_zeros by lia. reflexivity.
  - rewrite len_cons, len_nil, len_zeros; lia.
Qed.

(** The match is an exact comparison with the reconstructed topic, as long
    as the suffix leaves room for its terminator in [suffixTerminated]. *)
Lemma isThingnameTopicMatch_spec g name t topicLength sfx tail :
  stored_name g name -> nul_free sfx -> len sfx <= CoreJobs.MAX_JOB_ID_LENGTH ->
  0 < topicLength <= len t ->
  exists b,
    isThingnameTopicMatch g (Some t) topicLength (sfx ++ tail) (len sfx) = Ok b
    /\ (b = true <-> take topicLength t = expectedTopic name sfx).
Proof.
  intros Hstored Hsfx Hlen Htopic.
  pose proof Hstored as (Hfree & Hname & _).
  pose proof (len_nonneg sfx) as Hsfx0.
  unfold CoreJobs.MAX_JOB_ID_LENGTH, MqttWrapper.MAX_THING_NAME_SIZE in *.
  unfold isThingnameTopicMatch.
  cbn [is_null orb].
  replace (topicLength =? 0) with false by (symmetry; apply Z.eqb_neq; lia).
  cbv iota.
  rewrite (mqttWrapper_getThingName_stored g name)
    by (assumption || (unfold MAX_THING_NAME_LENGTH; lia)).
  run_bind.
  rewrite memcpy_prefix, store_zeros
    by (unfold CoreJobs.MAX_JOB_ID_LENGTH; lia).
  run_bind.
  assert (Hout : strings_at
            [literal (lit "$aws/things/");
             name ++ NUL :: zeros (MAX_THING_NAME_LENGTH + 1 - len name - 1);
             sfx ++ zeros (CoreJobs.MAX_JOB_ID_LENGTH + 1 - len sfx)]
          = Ok (expectedTopic name sfx)).
  { unfold expectedTopic. cbn [strings_at].
    rewrite string_at_literal by nul_free_lit. run_bind.
    rewrite string_at_terminated by assumption. run_bind.
    rewrite zeros_succ by (unfold CoreJobs.MAX_JOB_ID_LENGTH; lia).
    rewrite string_at_terminated by assumption. run_bind.
    rewrite app_nil_r. reflexivity. }
  assert (HlenE : len (expectedTopic name sfx) = 12 + len name + len sfx).
  { unfold expectedTopic; rewrite !len_app.
    change (len (lit "$aws/things/")) with 12; lia. }
  assert (HfreeE : nul_free (expectedTopic name sfx)).
  { unfold expectedTopic; repeat apply nul_free_app; try assumption; nul_free_lit. }
  rewrite (snprintf_zeros _ _ _ _ Hout)
    by (unfold TOPIC_BUFFER_SIZE; lia).
  run_bind.
  rewrite strnlen_terminated by (assumption || (unfold TOPIC_BUFFER_SIZE; lia)).
  run_bind.
  rewrite uint32_t_small by lia.
  destruct (Z.eqb_spec (len (expectedTopic name sfx)) topicLength) as [E|E].
  - destruct (strncmp_exact (expectedTopic name sfx)
                (NUL :: zeros (TOPIC_BUFFER_SIZE + 1 - len (expectedTopic name sfx) - 1))
                t topicLength HfreeE) as [d [Hd Hiff]]; [lia|lia|].
    cbn [deref]. rewrite Hd. run_bind.
    eexists; split; [reflexivity|].
    rewrite Z.eqb_eq. exact Hiff.
  - exists false; split; [reflexivity|].
    split; [discriminate|].
    intros Heq; exfalso; apply E.
    rewrite <- Heq, len_take; lia.
Qed.

(** A suffix of [MAX_JOB_ID_LENGTH + 1] characters or more does not fit
    [suffixTerminated] together with its terminator. *)
Lemma isThingnameTopicMatch_overflow g name topic topicLength sfx tail :
  stored_name g name -> nul_free sfx -> CoreJobs.MAX_JOB_ID_LENGTH < len sfx ->
  is_null topic = false -> topicLength <> 0 ->
  isThingnameTopicMatch g topic topicLength (sfx ++ tail) (len sfx)
  = Fault OutOfBounds.
Proof.
  intros Hstored Hsfx Hlen Hnull Htopic.
  pose proof Hstored as (Hfree & Hname & _).
  unfold CoreJobs.MAX_JOB_ID_LENGTH, MqttWrapper.MAX_THING_NAME_SIZE in *.
  unfold isThingnameTopicMatch.
  rewrite Hnull. cbn [orb].
  replace (topicLength =? 0) with false by (symmetry; apply Z.eqb_neq; lia).
  cbv iota.
  rewrite (mqttWrapper_getThingName_stored g name)
    by (assumption || (unfold MAX_THING_NAME_LENGTH; lia)).
  run_bind.
  rewrite memcpy_prefix.
  destruct (Z.eq_dec (len sfx) 65) as [E|E].
  - rewrite store_zeros by (unfold CoreJobs.MAX_JOB_ID_LENGTH; lia).
    run_bind. unfold CoreJobs.MAX_JOB_ID_LENGTH.
    replace (64 + 1 - len sfx) with 0 by lia.
    rewrite zeros_0, app_nil_r.
    unfold snprintf. cbn [strings_at].
    rewrite string_at_literal by nul_free_lit. run_bind.
    rewrite string_at_terminated by assumption. run_bind.
    rewrite string_at_unterminated by assumption. reflexivity.
  - rewrite store_fault; [reflexivity|].
    rewrite len_zeros; unfold CoreJobs.MAX_JOB_ID_LENGTH; lia.
Qed.

(* ================================================================== *)
(** * The builders                                                     *)
(* ================================================================== *)

Lemma store_first whole bytes :
  len bytes <= len whole ->
  store whole 0 bytes = Ok (bytes ++ drop (len bytes) whole).
Proof.
  intros H. pose proof (len_nonneg bytes).
  rewrite store_ok by lia. reflexivity.
Qed.

Lemma store_next whole pre off bytes :
  off = len pre -> len pre + len bytes <= len whole ->
  store (pre ++ drop (len pre) whole) off bytes
  = Ok ((pre ++ bytes) ++ drop (len (pre ++ bytes)) whole).
Proof.
  intros -> H.
  pose proof (len_nonneg pre). pose proof (len_nonneg bytes).
  rewrite store_after by (rewrite len_drop; lia).
  do 2 f_equal. rewrite len_app. unfold drop.
  rewrite skipn_skipn. f_equal. lia.
Qed.

Lemma memcpy_first whole s tail n :
  n = len s -> len s <= len whole ->
  memcpy whole 0 (s ++ tail) n = Ok (s ++ drop (len s) whole).
Proof. intros -> H; rewrite memcpy_prefix; apply store_first; assumption. Qed.

Lemma memcpy_next whole pre off s tail n :
  off = len pre -> n = len s -> len pre + len s <= len whole ->
  memcpy (pre ++ drop (len pre) whole) off (s ++ tail) n
  = Ok ((pre ++ s) ++ drop (len (pre ++ s)) whole).
Proof. intros Hoff -> H; rewrite memcpy_prefix; apply store_next; assumption. Qed.

Lemma gtb_true a b : b < a -> (a >? b) = true.
Proof. intros H; apply Z.gtb_lt; exact H. Qed.

Lemma gtb_false a b : a <= b -> (a >? b) = false.
Proof. intros H; rewrite Z.gtb_ltb; apply Z.ltb_ge; exact H. Qed.

Lemma geb_true a b : b <= a -> (a >=? b) = true.
Proof. intros H; apply Z.geb_le; exact H. Qed.

Lemma geb_false a b : a < b -> (a >=? b) = false.
Proof. intros H; rewrite Z.geb_leb; apply Z.leb_gt; exact H. Qed.

(** Lengths of the literals of the sources, by computation. *)
Ltac lit_len :=
  unfold sizeof in *;
  repeat match goal with
    | |- context [len (lit ?s)] =>
        let v := eval vm_compute in (len (lit s)) in
        change (len (lit s)) with v
    | |- context [len (quoted ?s)] =>
        let v := eval vm_compute in (len (quoted s)) in
        change (len (quoted s)) with v
    end.

Ltac no_wrap :=
  repeat match goal with
    | |- context [size_t ?x] => rewrite (size_t_small x) by (unfold SIZE_MAX in *; lia)
    end.

Ltac len_solve :=
  rewrite ?len_app; lit_len; no_wrap; unfold SIZE_MAX in *; lia.

Ltac copy_literal_first :=
  unfold literal at 1; rewrite memcpy_first by len_solve; run_bind.
Ltac copy_literal_next :=
  unfold literal at 1; rewrite memcpy_next by len_solve; run_bind.
Ltac copy_next := rewrite memcpy_next by len_solve; run_bind.

Lemma getStartNextPendingJobExecutionTopic_ok name tail buffer bufferSize :
  0 < len name -> 28 + len name <= bufferSize ->
  bufferSize <= len buffer -> bufferSize <= SIZE_MAX ->
  let topic := lit "$aws/things/" ++ name ++ lit "/jobs/start-next" in
  getStartNextPendingJobExecutionTopic (Some (name ++ tail)) (len name)
    buffer bufferSize
  = Ok (len topic, topic ++ drop (len topic) buffer).
Proof.
  intros Hname Hsize Hbuf Hmax topic.
  unfold getStartNextPendingJobExecutionTopic. cbn [is_null negb andb deref].
  rewrite gtb_true, geb_true by len_solve. cbn [andb].
  copy_literal_first. copy_next. copy_literal_next.
  subst topic. rewrite !app_assoc. do 2 f_equal. len_solve.
Qed.

Lemma getStartNextPendingJobExecutionMsg_ok token tail buffer bufferSize :
  0 < len token -> 18 + len token <= bufferSize ->
  bufferSize <= len buffer -> bufferSize <= SIZE_MAX ->
  let message := quoted "{'clientToken':'" ++ token ++ quoted "'}" in
  getStartNextPendingJobExecutionMsg (Some (token ++ tail)) (len token)
    buffer bufferSize
  = Ok (len message, message ++ drop (len message) buffer).
Proof.
  intros Htoken Hsize Hbuf Hmax message.
  unfold getStartNextPendingJobExecutionMsg. cbn [is_null negb andb deref].
  rewrite gtb_true, geb_true by len_solve. cbn [andb].
  copy_literal_first. copy_next. copy_literal_next.
  subst message. rewrite !app_assoc. do 2 f_equal. len_solve.
Qed.

Lemma getUpdateJobExecutionTopic_ok name tail job tail' buffer bufferSize :
  0 < len name -> 0 < len job -> 25 + len name + len job <= bufferSize ->
  bufferSize <= len buffer -> bufferSize <= SIZE_MAX ->
  let topic := lit "$aws/things/" ++ name ++ lit "/jobs/" ++ job ++ lit "/update" in
  getUpdateJobExecutionTopic (Some (name ++ tail)) (len name)
    (Some (job ++ tail')) (len job) buffer bufferSize
  = Ok (len topic, topic ++ drop (len topic) buffer).
Proof.
  intros Hname Hjob Hsize Hbuf Hmax topic.
  unfold getUpdateJobExecutionTopic. cbn [is_null negb andb deref].
  rewrite !gtb_true, geb_true by len_solve. cbn [andb].
  copy_literal_first. copy_next. copy_literal_next. copy_next. copy_literal_next.
  subst topic. rewrite !app_assoc. do 2 f_equal. len_solve.
Qed.

Lemma status_tables status text :
  In (status, text) STATUS_STRING ->
  index jobStatusStringLengths status = Ok (len text)
  /\ index jobStatusString status = Ok (literal text)
  /\ 0 < len text <= 11.
Proof.
  unfold STATUS_STRING; cbn [In].
  intros [H|[H|[H|[H|[H|[]]]]]]; injection H as <- <-;
    (split; [reflexivity|split; [reflexivity|vm_compute; split; [reflexivity|discriminate]]]).
Qed.

Lemma getUpdateJobExecutionMsg_ok status text version tail buffer bufferSize :
  In (status, text) STATUS_STRING ->
  0 < len version -> 34 + len version + len text <= bufferSize ->
  bufferSize <= len buffer -> bufferSize <= SIZE_MAX ->
  getUpdateJobExecutionMsg status (Some (version ++ tail)) (len version)
    buffer bufferSize
  = Ok (len (updateMessage text version),
        updateMessage text version ++ drop (len (updateMessage text version)) buffer).
Proof.
  intros Hstatus Hversion Hsize Hbuf Hmax.
  destruct (status_tables _ _ Hstatus) as (Hlen & Hstr & Htext).
  unfold getUpdateJobExecutionMsg. cbn [is_null negb andb deref].
  rewrite gtb_true by lia. cbn [andb].
  rewrite Hlen. run_bind.
  rewrite geb_true by len_solve.
  copy_literal_first.
  rewrite Hstr. run_bind.
  copy_literal_next.
  copy_literal_next. copy_next. copy_literal_next.
  unfold updateMessage. rewrite !app_assoc. do 2 f_equal. len_solve.
Qed.

(** ** Rejected requests *)

Lemma getStartNextPendingJobExecutionTopic_rejects
  thingname thingnameLength buffer bufferSize :
  0 <= thingnameLength -> 28 + thingnameLength <= SIZE_MAX ->
  is_null thingname = true \/ thingnameLength = 0
  \/ bufferSize < 28 + thingnameLength ->
  getStartNextPendingJobExecutionTopic thingname thingnameLength buffer bufferSize
  = Ok (0, buffer).
Proof.
  intros H0 Hmax H. unfold getStartNextPendingJobExecutionTopic.
  rewrite size_t_small by lia.
  destruct H as [H|[H|H]].
  - rewrite H; reflexivity.
  - rewrite gtb_false by lia. rewrite andb_false_r; reflexivity.
  - rewrite geb_false by lia. rewrite andb_false_r; reflexivity.
Qed.

Lemma getStartNextPendingJobExecutionMsg_rejects
  clientToken clientTokenLength buffer bufferSize :
  0 <= clientTokenLength -> 18 + clientTokenLength <= SIZE_MAX ->
  is_null clientToken = true \/ clientTokenLength = 0
  \/ bufferSize < 18 + clientTokenLength ->
  getStartNextPendingJobExecutionMsg clientToken clientTokenLength buffer bufferSize
  = Ok (0, buffer).
Proof.
  intros H0 Hmax H. unfold getStartNextPendingJobExecutionMsg.
  rewrite size_t_small by lia.
  destruct H as [H|[H|H]].
  - rewrite H; reflexivity.
  - rewrite gtb_false by lia. rewrite andb_false_r; reflexivity.
  - rewrite geb_false by lia. rewrite andb_false_r; reflexivity.
Qed.

Lemma getUpdateJobExecutionTopic_rejects
  thingname thingnameLength jobId jobIdLength buffer bufferSize :
  0 <= thingnameLength -> 0 <= jobIdLength ->
  25 + thingnameLength + jobIdLength <= SIZE_MAX ->
  is_null thingname = true \/ is_null jobId = true
  \/ thingnameLength = 0 \/ jobIdLength = 0
  \/ bufferSize < 25 + thingnameLength + jobIdLength ->
  getUpdateJobExecutionTopic thingname thingnameLength jobId jobIdLength
    buffer bufferSize
  = Ok (0, buffer).
Proof.
  intros H0 H1 Hmax H. unfold getUpdateJobExecutionTopic.
  rewrite (size_t_small (25 + thingnameLength)) by lia.
  rewrite size_t_small by lia.
  destruct H as [H|[H|[H|[H|H]]]].
  - rewrite H; reflexivity.
  - rewrite H. cbn [negb]. rewrite andb_false_r; reflexivity.
  - rewrite (gtb_false thingnameLength) by lia. rewrite andb_false_r; reflexivity.
  - rewrite (gtb_false jobIdLength) by lia. rewrite andb_false_r; reflexivity.
  - rewrite geb_false by lia. rewrite andb_false_r; reflexivity.
Qed.

Lemma getUpdateJobExecutionMsg_rejects
  status text expectedVersion expectedVersionLength buffer bufferSize :
  In (status, text) STATUS_STRING ->
  0 <= expectedVersionLength -> 34 + expectedVersionLength + len text <= SIZE_MAX ->
  is_null expectedVersion = true \/ expectedVersionLength = 0
  \/ bufferSize < 34 + expectedVersionLength + len text ->
  getUpdateJobExecutionMsg status expectedVersion expectedVersionLength
    buffer bufferSize
  = Ok (0, buffer).
Proof.
  intros Hstatus H0 Hmax H.
  destruct (status_tables _ _ Hstatus) as (Hlen & _ & Htext).
  unfold getUpdateJobExecutionMsg.
  destruct H as [H|[H|H]].
  - rewrite H; reflexivity.
  - rewrite gtb_false by lia. rewrite andb_false_r; reflexivity.
  - destruct (negb (is_null expectedVersion) && (expectedVersionLength >? 0));
      [|reflexivity].
    rewrite Hlen. run_bind.
    rewrite (size_t_small (34 + expectedVersionLength)) by lia.
    rewrite size_t_small by lia.
    rewrite geb_false by lia. reflexivity.
Qed.

(* ================================================================== *)
(** * TopicProtocol: builders and the start-next matcher               *)
(* ================================================================== *)

Lemma coreJobs_isStartNextAccepted_spec g name t :
  stored_name g name -> 0 < len t ->
  exists b,
    coreJobs_isStartNextAccepted g (Some t) (len t) = Ok b
    /\ (b = true <-> t = expectedTopic name (lit "/jobs/start-next/accepted")).
Proof.
  intros Hstored Ht. unfold coreJobs_isStartNextAccepted, literal.
  rewrite strlen_terminated by nul_free_lit. run_bind.
  destruct (isThingnameTopicMatch_spec g name t (len t)
              (lit "/jobs/start-next/accepted") [NUL] Hstored)
    as [b [Hb Hiff]].
  - nul_free_lit.
  - vm_compute; discriminate.
  - lia.
  - exists b; split; [exact Hb|]. rewrite take_len in Hiff. exact Hiff.
Qed.

(** C4.  For a device identity that is not empty, has no embedded
    terminator and fits the stored thing name (at most 128 bytes) and the
    destination buffer, the start-next topic built for it, followed by
    "/accepted", is recognised by [coreJobs_isStartNextAccepted] once that
    identity is the stored one; the accepted topic of any other identity,
    of the same or of another length, is not. *)
Theorem C4_start_next_accepted_matches_own_topic_only
  (deviceId other buffer : list ascii) (bufferSize : Z) :
  nul_free deviceId ->
  0 < len deviceId <= MqttWrapper.MAX_THING_NAME_SIZE ->
  28 + len deviceId <= bufferSize ->
  bufferSize <= len buffer -> bufferSize <= SIZE_MAX ->
  exists g topicLength buffer',
    mqttWrapper_setThingName globalThingName_initial (literal deviceId) = Ok g
    /\ getStartNextPendingJobExecutionTopic
         (Some (literal deviceId)) (len deviceId) buffer bufferSize
       = Ok (topicLength, buffer')
    /\ take topicLength buffer'
       = lit "$aws/things/" ++ deviceId ++ lit "/jobs/start-next"
    /\ (let accepted := take topicLength buffer' ++ lit "/accepted" in
        coreJobs_isStartNextAccepted g (Some accepted) (len accepted) = Ok true)
    /\ (other <> deviceId ->
        let foreign :=
          lit "$aws/things/" ++ other ++ lit "/jobs/start-next/accepted" in
        coreJobs_isStartNextAccepted g (Some foreign) (len foreign) = Ok false).
Proof.
  intros Hfree Hlen Hsize Hbuf Hmax.
  destruct (mqttWrapper_setThingName_stored deviceId [] Hfree Hlen)
    as [g [Hset Hstored]].
  exists g. eexists. eexists.
  split; [exact Hset|].
  split.
  { unfold literal.
    apply (getStartNextPendingJobExecutionTopic_ok deviceId [NUL]); lia. }
  rewrite take_app_len.
  split; [reflexivity|].
  split.
  - cbv zeta.
    set (accepted := (lit "$aws/things/" ++ deviceId ++ lit "/jobs/start-next")
                     ++ lit "/accepted").
    destruct (coreJobs_isStartNextAccepted_spec g deviceId accepted Hstored)
      as [b [Hb Hiff]].
    { unfold accepted; rewrite !len_app; lit_len; lia. }
    rewrite Hb. f_equal. apply Hiff.
    unfold accepted, expectedTopic. rewrite <- !app_assoc. reflexivity.
  - intros Hother. cbv zeta.
    set (foreign := lit "$aws/things/" ++ other ++ lit "/jobs/start-next/accepted").
    destruct (coreJobs_isStartNextAccepted_spec g deviceId foreign Hstored)
      as [b [Hb Hiff]].
    { unfold foreign; rewrite !len_app; lit_len.
      pose proof (len_nonneg other); lia. }
    rewrite Hb. f_equal.
    destruct b; [|reflexivity].
    exfalso; apply Hother.
    assert (E : foreign = expectedTopic deviceId (lit "/jobs/start-next/accepted"))
      by (apply Hiff; reflexivity).
    unfold foreign, expectedTopic in E.
    apply app_inv_head in E. apply app_inv_tail in E. exact E.
Qed.

Lemma C4_witness :
  exists g topicLength buffer',
    mqttWrapper_setThingName globalThingName_initial (literal (lit "thingname")) = Ok g
    /\ getStartNextPendingJobExecutionTopic
         (Some (literal (lit "thingname"))) (len (lit "thingname")) (zeros 257) 256
       = Ok (topicLength, buffer')
    /\ take topicLength buffer'
       = lit "$aws/things/" ++ lit "thingname" ++ lit "/jobs/start-next"
    /\ (let accepted := take topicLength buffer' ++ lit "/accepted" in
        coreJobs_isStartNextAccepted g (Some accepted) (len accepted) = Ok true)
    /\ (lit "different" <> lit "thingname" ->
        let foreign :=
          lit "$aws/things/" ++ lit "different" ++ lit "/jobs/start-next/accepted" in
        coreJobs_isStartNextAccepted g (Some foreign) (len foreign) = Ok false).
Proof.
  apply (C4_start_next_accepted_matches_own_topic_only
           (lit "thingname") (lit "different") (zeros 257) 256).
  - nul_free_lit.
  - vm_compute; split; [reflexivity|discriminate].
  - vm_compute; discriminate.
  - rewrite len_zeros; lia.
  - vm_compute; discriminate.
Defined.

(** C6.  For each status of the enumeration and a version that is not
    empty and fits the capacity, [getUpdateJobExecutionMsg] writes exactly
    [{"status":"<STATUS_STRING>","expectedVersion":"<expectedVersion>"}]
    and returns its length; it returns a zero length, leaving the buffer
    as it was, when the version is empty or the capacity is too small. *)
Theorem C6_update_message_format
  (status : JobStatus_t) (text version tail buffer : list ascii) (bufferSize : Z) :
  In (status, text) STATUS_STRING ->
  bufferSize <= len buffer -> bufferSize <= SIZE_MAX ->
  34 + len version + len text <= SIZE_MAX ->
  let message :=
    quoted "{'status':'" ++ text ++ quoted "','expectedVersion':'"
    ++ version ++ quoted "'}" in
  let result :=
    getUpdateJobExecutionMsg status (Some (version ++ tail)) (len version)
      buffer bufferSize in
  (0 < len version -> 34 + len version + len text <= bufferSize ->
   result = Ok (len message, message ++ drop (len message) buffer))
  /\ (len version = 0 -> result = Ok (0, buffer))
  /\ (bufferSize < 34 + len version + len text -> result = Ok (0, buffer)).
Proof.
  intros Hstatus Hbuf Hmax Hwrap message result.
  pose proof (len_nonneg version).
  split; [|split].
  - intros Hversion Hsize.
    apply getUpdateJobExecutionMsg_ok; assumption.
  - intros Hempty.
    apply (getUpdateJobExecutionMsg_rejects status text); auto; lia.
  - intros Hsmall.
    apply (getUpdateJobExecutionMsg_rejects status text); auto; lia.
Qed.

Lemma C6_witness :
  getUpdateJobExecutionMsg Succeeded (Some (literal (lit "1.0.1"))) 5
    (zeros UPDATE_JOB_MSG_LENGTH) UPDATE_JOB_MSG_LENGTH
  = Ok (48, quoted "{'status':'SUCCEEDED','expectedVersion':'1.0.1'}"
            ++ drop 48 (zeros UPDATE_JOB_MSG_LENGTH)).
Proof.
  apply (C6_update_message_format Succeeded (lit "SUCCEEDED") (lit "1.0.1")
           [NUL] (zeros UPDATE_JOB_MSG_LENGTH) UPDATE_JOB_MSG_LENGTH).
  - simpl; tauto.
  - rewrite len_zeros; vm_compute; discriminate.
  - vm_compute; discriminate.
  - vm_compute; discriminate.
  - vm_compute; reflexivity.
  - vm_compute; discriminate.
Defined.

(** A null pointer or a zero length stops a builder at its first test,
    before any length is added up and before the status is looked at. *)
Lemma getStartNextPendingJobExecutionTopic_without_name
  thingname thingnameLength buffer bufferSize :
  is_null thingname = true \/ thingnameLength = 0 ->
  getStartNextPendingJobExecutionTopic thingname thingnameLength buffer bufferSize
  = Ok (0, buffer).
Proof.
  intros [H| ->]; unfold getStartNextPendingJobExecutionTopic.
  - rewrite H. reflexivity.
  - change (0 >? 0) with false. rewrite andb_false_r. reflexivity.
Qed.

Lemma getStartNextPendingJobExecutionMsg_without_token
  clientToken clientTokenLength buffer bufferSize :
  is_null clientToken = true \/ clientTokenLength = 0 ->
  getStartNextPendingJobExecutionMsg clientToken clientTokenLength buffer bufferSize
  = Ok (0, buffer).
Proof.
  intros [H| ->]; unfold getStartNextPendingJobExecutionMsg.
  - rewrite H. reflexivity.
  - change (0 >? 0) with false. rewrite andb_false_r. reflexivity.
Qed.

Lemma getUpdateJobExecutionTopic_without_name_or_job
  thingname thingnameLength jobId jobIdLength buffer bufferSize :
  is_null thingname = true \/ is_null jobId = true
  \/ thingnameLength = 0 \/ jobIdLength = 0 ->
  getUpdateJobExecutionTopic thingname thingnameLength jobId jobIdLength
    buffer bufferSize
  = Ok (0, buffer).
Proof.
  intros [H|[H|[->| ->]]]; unfold getUpdateJobExecutionTopic.
  - rewrite H. reflexivity.
  - rewrite H. cbn [negb]. rewrite andb_false_r. reflexivity.
  - change (0 >? 0) with false. rewrite !andb_false_r. reflexivity.
  - change (0 >? 0) with false. rewrite !andb_false_r. reflexivity.
Qed.

Lemma getUpdateJobExecutionMsg_without_version
  status expectedVersion expectedVersionLength buffer bufferSize :
  is_null expectedVersion = true \/ expectedVersionLength = 0 ->
  getUpdateJobExecutionMsg status expectedVersion expectedVersionLength
    buffer bufferSize
  = Ok (0, buffer).
Proof.
  intros [H| ->]; unfold getUpdateJobExecutionMsg.
  - rewrite H. reflexivity.
  - change (0 >? 0) with false. rewrite andb_false_r. reflexivity.
Qed.

(** C7, as the code has it.  Each of the four builders returns a zero
    length and leaves the destination buffer exactly as it was

    - when a pointer is null or a length is zero: for every other argument,
      whatever the capacity and whatever the status value, also one outside
      the enumeration;
    - when the capacity is below the length of the output, provided that
      length does not exceed [SIZE_MAX] (the builders add the lengths up in
      [size_t]) and, for the update message, that the status is one of the
      enumeration (its length is read from the table before the capacity
      is compared). *)
Theorem C7_builders_reject_without_writing
  (thingname clientToken jobId expectedVersion : ptr)
  (thingnameLength clientTokenLength jobIdLength expectedVersionLength : Z)
  (status : JobStatus_t) (buffer : list ascii) (bufferSize : Z) :
  (is_null thingname = true \/ thingnameLength = 0
   \/ (0 <= thingnameLength /\ 28 + thingnameLength <= SIZE_MAX
       /\ bufferSize < 28 + thingnameLength) ->
   getStartNextPendingJobExecutionTopic thingname thingnameLength buffer bufferSize
   = Ok (0, buffer))
  /\ (is_null clientToken = true \/ clientTokenLength = 0
      \/ (0 <= clientTokenLength /\ 18 + clientTokenLength <= SIZE_MAX
          /\ bufferSize < 18 + clientTokenLength) ->
      getStartNextPendingJobExecutionMsg clientToken clientTokenLength
        buffer bufferSize
      = Ok (0, buffer))
  /\ (is_null thingname = true \/ is_null jobId = true
      \/ thingnameLength = 0 \/ jobIdLength = 0
      \/ (0 <= thingnameLength /\ 0 <= jobIdLength
          /\ 25 + thingnameLength + jobIdLength <= SIZE_MAX
          /\ bufferSize < 25 + thingnameLength + jobIdLength) ->
      getUpdateJobExecutionTopic thingname thingnameLength jobId jobIdLength
        buffer bufferSize
      = Ok (0, buffer))
  /\ (is_null expectedVersion = true \/ expectedVersionLength = 0
      \/ (exists text,
            In (status, text) STATUS_STRING
            /\ 0 <= expectedVersionLength
            /\ 34 + expectedVersionLength + len text <= SIZE_MAX
            /\ bufferSize < 34 + expectedVersionLength + len text) ->
      getUpdateJobExecutionMsg status expectedVersion expectedVersionLength
        buffer bufferSize
      = Ok (0, buffer)).
Proof.
  split; [|split; [|split]].
  - intros [H|[H|(H0 & Hmax & H)]].
    + apply getStartNextPendingJobExecutionTopic_without_name. left; exact H.
    + apply getStartNextPendingJobExecutionTopic_without_name. right; exact H.
    + apply getStartNextPendingJobExecutionTopic_rejects; auto.
  - intros [H|[H|(H0 & Hmax & H)]].
    + apply getStartNextPendingJobExecutionMsg_without_token. left; exact H.
    + apply getStartNextPendingJobExecutionMsg_without_token. right; exact H.
    + apply getStartNextPendingJobExecutionMsg_rejects; auto.
  - intros [H|[H|[H|[H|(H0 & H1 & Hmax & H)]]]].
    1-4: apply getUpdateJobExecutionTopic_without_name_or_job; tauto.
    apply getUpdateJobExecutionTopic_rejects; auto 6.
  - intros [H|[H|(text & Hstatus & H0 & Hmax & H)]].
    + apply getUpdateJobExecutionMsg_without_version. left; exact H.
    + apply getUpdateJobExecutionMsg_without_version. right; exact H.
    + apply (getUpdateJobExecutionMsg_rejects status text); auto.
Qed.

Lemma C7_witness :
  getStartNextPendingJobExecutionTopic None 10
    (zeros TOPIC_BUFFER_SIZE) TOPIC_BUFFER_SIZE
  = Ok (0, zeros TOPIC_BUFFER_SIZE)
  /\ getUpdateJobExecutionTopic (Some (literal (lit "thingname"))) 9
       (Some (literal (lit "job-id"))) 6 (zeros 39) 39
     = Ok (0, zeros 39)
  /\ getUpdateJobExecutionMsg 5 (Some (literal (lit "1.0.1"))) 0 (zeros 48) 48
     = Ok (0, zeros 48)
  /\ getUpdateJobExecutionMsg Succeeded (Some (literal (lit "1.0.1"))) 5
       (zeros 40) 40
     = Ok (0, zeros 40).
Proof.
  destruct (C7_builders_reject_without_writing
              None None None None 10 0 0 0 Succeeded
              (zeros TOPIC_BUFFER_SIZE) TOPIC_BUFFER_SIZE) as (H1 & _).
  destruct (C7_builders_reject_without_writing
              (Some (literal (lit "thingname"))) None
              (Some (literal (lit "job-id"))) None 9 0 6 0 Succeeded
              (zeros 39) 39) as (_ & _ & H2 & _).
  destruct (C7_builders_reject_without_writing
              None None None (Some (literal (lit "1.0.1"))) 0 0 0 0 5
              (zeros 48) 48) as (_ & _ & _ & H3).
  destruct (C7_builders_reject_without_writing
              None None None (Some (literal (lit "1.0.1"))) 0 0 0 5 Succeeded
              (zeros 40) 40) as (_ & _ & _ & H4).
  split; [|split; [|split]].
  - apply H1. left. reflexivity.
  - apply H2. do 4 right. vm_compute. repeat split; discriminate || reflexivity.
  - apply H3. right. left. reflexivity.
  - apply H4. right. right. exists (lit "SUCCEEDED").
    split; [simpl; tauto|]. vm_compute. repeat split; discriminate || reflexivity.
Defined.

(** C7 as stated fails, in two ways.  A status outside the enumeration,
    passed with a valid version, makes [getUpdateJobExecutionMsg] read
    [jobStatusStringLengths] out of bounds instead of returning a zero
    length.  And a capacity that is too small is not noticed when the
    length wraps in [size_t]: with a thing name length of 4294967295 the
    sum [28 + thingnameLength] is 27, the capacity of 256 passes the test
    and the builder copies beyond the thing name. *)
Lemma C7_counterexample :
  (getUpdateJobExecutionMsg 5 (Some (literal (lit "1.0.1"))) 5 (repeat NUL 48) 48
   = Fault OutOfBounds
   /\ getUpdateJobExecutionMsg 5 (Some (literal (lit "1.0.1"))) 5 (repeat NUL 48) 48
      <> Ok (0, repeat NUL 48))
  /\ (256 < 28 + 4294967295
      /\ getStartNextPendingJobExecutionTopic (Some (literal (lit "thingname")))
           4294967295 (repeat NUL 257) 256
         = Fault OutOfBounds
      /\ getStartNextPendingJobExecutionTopic (Some (literal (lit "thingname")))
           4294967295 (repeat NUL 257) 256
         <> Ok (0, repeat NUL 257)).
Proof.
  split; [split; [vm_compute; reflexivity|vm_compute; discriminate]|].
  split; [reflexivity|].
  split; [vm_compute; reflexivity|vm_compute; discriminate].
Qed.

(* ================================================================== *)
(** * TopicProtocol: the job update matcher                            *)
(* ================================================================== *)

Lemma update_status_tables status word :
  In (status, word) UPDATE_STATUS_STRING ->
  index jobUpdateStatusString status = Ok (literal word)
  /\ index jobUpdateStatusStringLengths status = Ok (len word)
  /\ len word = 8 /\ nul_free word.
Proof.
  unfold UPDATE_STATUS_STRING; cbn [In].
  intros [H|[H|[]]]; injection H as <- <-;
    (split; [reflexivity|split; [reflexivity|split; [reflexivity|nul_free_lit]]]).
Qed.

Lemma update_status_range status :
  (exists word, In (status, word) UPDATE_STATUS_STRING)
  <-> status = JobUpdateStatus_Accepted \/ status = JobUpdateStatus_Rejected.
Proof.
  unfold UPDATE_STATUS_STRING; cbn [In]; split.
  - intros [word [H|[H|[]]]]; injection H as <- _; auto.
  - intros [->| ->]; eexists; [left|right; left]; reflexivity.
Qed.

Lemma index_update_status_fault status :
  status <> JobUpdateStatus_Accepted -> status <> JobUpdateStatus_Rejected ->
  index jobUpdateStatusString status = Fault OutOfBounds.
Proof.
  unfold JobUpdateStatus_Accepted, JobUpdateStatus_Rejected; intros H0 H1.
  unfold index. destruct (Z.ltb_spec status 0) as [Hneg|Hpos]; [reflexivity|].
  destruct (Z.to_nat status) as [|[|n]] eqn:E; try lia.
  destruct n; reflexivity.
Qed.

(** What a [%s] conversion reads from an array that has a terminator
    somewhere: it succeeds, and yields no more than what precedes it. *)
Lemma string_at_bounded a rest :
  exists s, string_at (a ++ NUL :: rest) = Ok s /\ len s <= len a.
Proof.
  assert (H : exists n, strlen_nat (a ++ NUL :: rest) = Some n
                        /\ (n <= length a)%nat).
  { induction a as [|c a IH]; simpl.
    - exists O; split; [reflexivity|lia].
    - destruct (is_nul c); [exists O; split; [reflexivity|lia]|].
      destruct IH as [n [Hn Hle]]. rewrite Hn.
      exists (S n); split; [reflexivity|lia]. }
  destruct H as [n [Hn Hle]].
  unfold string_at, strlen. rewrite Hn. run_bind.
  eexists; split; [reflexivity|].
  rewrite len_take; unfold len; rewrite ?length_app; simpl; lia.
Qed.

Lemma memcpy_fault_kind dst off src n f :
  memcpy dst off src n = Fault f -> f = OutOfBounds.
Proof.
  unfold memcpy, load, store.
  destruct ((0 <=? n) && (n <=? len src)); cbn [bind].
  - destruct ((0 <=? off) && (off + len (take n src) <=? len dst));
      [discriminate|intros [= <-]; reflexivity].
  - intros [= <-]; reflexivity.
Qed.

Lemma strnlen_in_bounds m n :
  0 <= n <= len m -> exists k, strnlen m n = Ok k.
Proof.
  intros H.
  assert (Hnat : exists k, strnlen_nat m (Z.to_nat n) = Some k).
  { assert (Hle : (Z.to_nat n <= length m)%nat) by (unfold len in H; lia).
    clear H. revert m Hle. induction (Z.to_nat n) as [|k IH]; intros m Hle.
    - exists O; reflexivity.
    - destruct m as [|c m]; [simpl in Hle; lia|]. simpl.
      destruct (is_nul c); [exists O; reflexivity|].
      destruct (IH m) as [j Hj]; [simpl in Hle; lia|].
      rewrite Hj; exists (S j); reflexivity. }
  destruct Hnat as [k Hk]. unfold strnlen. rewrite Hk. eexists; reflexivity.
Qed.

(** With a job id of at most [MAX_JOB_ID_LENGTH] characters and a declared
    status, the suffix is formatted as intended. *)
Lemma jobUpdateStatusSuffix_ok jid tail status word :
  nul_free jid -> len jid <= CoreJobs.MAX_JOB_ID_LENGTH ->
  In (status, word) UPDATE_STATUS_STRING ->
  jobUpdateStatusSuffix (Some (jid ++ tail)) (len jid) status
  = Ok (updateSuffix jid word
          ++ NUL :: zeros (TOPIC_BUFFER_SIZE - MAX_THING_NAME_LENGTH - 4
                           - len (updateSuffix jid word) - 1),
        len (updateSuffix jid word)).
Proof.
  intros Hfree Hlen Hstatus.
  destruct (update_status_tables _ _ Hstatus) as (Hstr & Hidx & Hword & Hwfree).
  pose proof (len_nonneg jid) as Hjid0.
  unfold CoreJobs.MAX_JOB_ID_LENGTH in Hlen.
  unfold jobUpdateStatusSuffix. cbn [deref].
  rewrite memcpy_prefix, store_zeros by (unfold CoreJobs.MAX_JOB_ID_LENGTH; lia).
  run_bind. rewrite Hstr, Hidx. run_bind.
  unfold literal at 1.
  rewrite memcpy_prefix, store_zeros
    by (unfold UPDATE_JOB_STATUS_MAX_LENGTH; lia).
  run_bind.
  assert (Hout : strings_at
            [literal (lit "/jobs/");
             jid ++ zeros (CoreJobs.MAX_JOB_ID_LENGTH + 1 - len jid);
             literal (lit "/update/");
             word ++ zeros (UPDATE_JOB_STATUS_MAX_LENGTH + 1 - len word)]
          = Ok (updateSuffix jid word)).
  { unfold updateSuffix. cbn [strings_at].
    rewrite string_at_literal by nul_free_lit. run_bind.
    rewrite zeros_succ by (unfold CoreJobs.MAX_JOB_ID_LENGTH; lia).
    rewrite string_at_terminated by assumption. run_bind.
    rewrite string_at_literal by nul_free_lit. run_bind.
    rewrite zeros_succ by (unfold UPDATE_JOB_STATUS_MAX_LENGTH; lia).
    rewrite string_at_terminated by assumption. run_bind.
    rewrite app_nil_r. reflexivity. }
  assert (HlenS : len (updateSuffix jid word) = 22 + len jid).
  { unfold updateSuffix; rewrite !len_app; lit_len; lia. }
  assert (HfreeS : nul_free (updateSuffix jid word)).
  { unfold updateSuffix; repeat apply nul_free_app; try assumption; nul_free_lit. }
  rewrite (snprintf_zeros _ _ _ _ Hout)
    by (unfold TOPIC_BUFFER_SIZE, MAX_THING_NAME_LENGTH; lia).
  run_bind.
  rewrite strnlen_terminated
    by (assumption || (unfold TOPIC_BUFFER_SIZE, MAX_THING_NAME_LENGTH; lia)).
  reflexivity.
Qed.

(** Whatever bytes the job id holds, the accesses to the local buffers are
    in bounds under the two preconditions. *)
Lemma jobUpdateStatusSuffix_in_bounds jid tail status word :
  len jid <= CoreJobs.MAX_JOB_ID_LENGTH ->
  In (status, word) UPDATE_STATUS_STRING ->
  exists suffixBuffer suffixLength,
    jobUpdateStatusSuffix (Some (jid ++ tail)) (len jid) status
    = Ok (suffixBuffer, suffixLength).
Proof.
  intros Hlen Hstatus.
  destruct (update_status_tables _ _ Hstatus) as (Hstr & Hidx & Hword & Hwfree).
  pose proof (len_nonneg jid) as Hjid0.
  unfold CoreJobs.MAX_JOB_ID_LENGTH in Hlen.
  unfold jobUpdateStatusSuffix. cbn [deref].
  rewrite memcpy_prefix, store_zeros by (unfold CoreJobs.MAX_JOB_ID_LENGTH; lia).
  run_bind. rewrite Hstr, Hidx. run_bind.
  unfold literal at 1.
  rewrite memcpy_prefix, store_zeros
    by (unfold UPDATE_JOB_STATUS_MAX_LENGTH; lia).
  run_bind.
  rewrite (zeros_succ (CoreJobs.MAX_JOB_ID_LENGTH + 1 - len jid))
    by (unfold CoreJobs.MAX_JOB_ID_LENGTH; lia).
  destruct (string_at_bounded jid
              (zeros (CoreJobs.MAX_JOB_ID_LENGTH + 1 - len jid - 1)))
    as [s [Hs Hsle]].
  pose proof (len_nonneg s) as Hs0.
  assert (Hout : strings_at
            [literal (lit "/jobs/");
             jid ++ NUL :: zeros (CoreJobs.MAX_JOB_ID_LENGTH + 1 - len jid - 1);
             literal (lit "/update/");
             word ++ zeros (UPDATE_JOB_STATUS_MAX_LENGTH + 1 - len word)]
          = Ok (updateSuffix s word)).
  { unfold updateSuffix. cbn [strings_at].
    rewrite string_at_literal by nul_free_lit. run_bind.
    rewrite Hs. run_bind.
    rewrite string_at_literal by nul_free_lit. run_bind.
    rewrite zeros_succ by (unfold UPDATE_JOB_STATUS_MAX_LENGTH; lia).
    rewrite string_at_terminated by assumption. run_bind.
    rewrite app_nil_r. reflexivity. }
  assert (HlenS : len (updateSuffix s word) = 22 + len s).
  { unfold updateSuffix; rewrite !len_app; lit_len; lia. }
  rewrite (snprintf_zeros _ _ _ _ Hout)
    by (unfold TOPIC_BUFFER_SIZE, MAX_THING_NAME_LENGTH; lia).
  run_bind.
  destruct (strnlen_in_bounds
              (updateSuffix s word
               ++ NUL :: zeros (TOPIC_BUFFER_SIZE - MAX_THING_NAME_LENGTH - 4
                                - len (updateSuffix s word) - 1))
              (TOPIC_BUFFER_SIZE - MAX_THING_NAME_LENGTH - 4)) as [k Hk].
  { rewrite len_app, len_cons, len_zeros;
      unfold TOPIC_BUFFER_SIZE, MAX_THING_NAME_LENGTH; lia. }
  rewrite Hk. run_bind. eexists; eexists; reflexivity.
Qed.

Lemma jobUpdateStatusSuffix_bad_status jobId jobIdLength status :
  status <> JobUpdateStatus_Accepted -> status <> JobUpdateStatus_Rejected ->
  jobUpdateStatusSuffix jobId jobIdLength status = Fault OutOfBounds.
Proof.
  intros H0 H1. unfold jobUpdateStatusSuffix.
  destruct (memcpy (zeros (CoreJobs.MAX_JOB_ID_LENGTH + 1)) 0 (deref jobId)
              jobIdLength) as [b|f] eqn:E; run_bind.
  - rewrite index_update_status_fault by assumption. reflexivity.
  - apply memcpy_fault_kind in E; subst f; reflexivity.
Qed.

Lemma jobUpdateStatusSuffix_long_job_id jid tail status :
  nul_free jid -> CoreJobs.MAX_JOB_ID_LENGTH < len jid ->
  jobUpdateStatusSuffix (Some (jid ++ tail)) (len jid) status
  = Fault OutOfBounds.
Proof.
  intros Hfree Hlen.
  destruct (Z.eq_dec status JobUpdateStatus_Accepted) as [E0|N0];
    [|destruct (Z.eq_dec status JobUpdateStatus_Rejected) as [E1|N1]];
    [| |apply jobUpdateStatusSuffix_bad_status; assumption].
  all: assert (Hstatus : exists word, In (status, word) UPDATE_STATUS_STRING)
         by (apply update_status_range; auto).
  all: destruct Hstatus as [word Hstatus].
  all: destruct (update_status_tables _ _ Hstatus) as (Hstr & Hidx & Hword & Hwfree).
  all: unfold CoreJobs.MAX_JOB_ID_LENGTH in Hlen.
  all: unfold jobUpdateStatusSuffix; cbn [deref]; rewrite memcpy_prefix.
  all: destruct (Z.eq_dec (len jid) 65) as [E|E];
         [|rewrite store_fault;
           [reflexivity|rewrite len_zeros; unfold CoreJobs.MAX_JOB_ID_LENGTH; lia]].
  all: rewrite store_zeros by (unfold CoreJobs.MAX_JOB_ID_LENGTH; lia).
  all: run_bind; rewrite Hstr, Hidx; run_bind.
  all: unfold literal at 1.
  all: rewrite memcpy_prefix, store_zeros
         by (unfold UPDATE_JOB_STATUS_MAX_LENGTH; lia).
  all: run_bind.
  all: unfold CoreJobs.MAX_JOB_ID_LENGTH.
  all: replace (64 + 1 - len jid) with 0 by lia.
  all: rewrite zeros_0, app_nil_r.
  all: unfold snprintf; cbn [strings_at].
  all: rewrite string_at_literal by nul_free_lit; run_bind.
  all: rewrite string_at_unterminated by assumption; reflexivity.
Qed.

(** C10.  [coreJobs_isJobUpdateStatus] copies the job id and the status
    word into its fixed local buffers without a length check.  With
    [jobIdLength <= 64] and a declared status every access to them is in
    bounds; with a status outside the two declared values, or with a job
    id of more than 64 characters, the function runs into an out-of-bounds
    access. *)
Theorem C10_job_update_status_preconditions
  (jid tail : list ascii) (expectedStatus : JobUpdateStatus_t) :
  let outcome :=
    jobUpdateStatusSuffix (Some (jid ++ tail)) (len jid) expectedStatus in
  (len jid <= CoreJobs.MAX_JOB_ID_LENGTH ->
   expectedStatus = JobUpdateStatus_Accepted
   \/ expectedStatus = JobUpdateStatus_Rejected ->
   exists suffixBuffer suffixLength, outcome = Ok (suffixBuffer, suffixLength))
  /\ (expectedStatus <> JobUpdateStatus_Accepted ->
      expectedStatus <> JobUpdateStatus_Rejected ->
      outcome = Fault OutOfBounds)
  /\ (CoreJobs.MAX_JOB_ID_LENGTH < len jid -> nul_free jid ->
      outcome = Fault OutOfBounds).
Proof.
  intros outcome. split; [|split].
  - intros Hlen Hstatus.
    apply update_status_range in Hstatus. destruct Hstatus as [word Hword].
    apply (jobUpdateStatusSuffix_in_bounds jid tail expectedStatus word);
      assumption.
  - intros H0 H1. apply jobUpdateStatusSuffix_bad_status; assumption.
  - intros Hlen Hfree. apply jobUpdateStatusSuffix_long_job_id; assumption.
Qed.

Lemma C10_witness :
  (exists suffixBuffer suffixLength,
     jobUpdateStatusSuffix (Some (literal (lit "job-id"))) 6
       JobUpdateStatus_Accepted
     = Ok (suffixBuffer, suffixLength))
  /\ jobUpdateStatusSuffix (Some (literal (lit "job-id"))) 6 2
     = Fault OutOfBounds
  /\ jobUpdateStatusSuffix (Some (literal (repeat "a"%char 65))) 65
       JobUpdateStatus_Accepted
     = Fault OutOfBounds.
Proof.
  destruct (C10_job_update_status_preconditions (lit "job-id") [NUL]
              JobUpdateStatus_Accepted) as [H1 _].
  destruct (C10_job_update_status_preconditions (lit "job-id") [NUL] 2)
    as [_ [H2 _]].
  destruct (C10_job_update_status_preconditions (repeat "a"%char 65) [NUL]
              JobUpdateStatus_Accepted) as [_ [_ H3]].
  split; [|split].
  - apply H1; [vm_compute; discriminate|left; reflexivity].
  - apply H2; discriminate.
  - apply H3; [vm_compute; reflexivity|apply nul_free_forallb; vm_compute; reflexivity].
Defined.

(** As long as the formatted suffix fits [suffixTerminated] with its
    terminator (a job id of at most 42 characters), the matcher is the exact
    comparison with the reconstructed topic. *)
Theorem isJobUpdateStatus_exact_when_suffix_fits
  (g name t jid tail word : list ascii) (topicLength : Z)
  (expectedStatus : JobUpdateStatus_t) :
  stored_name g name -> nul_free jid -> len jid <= 42 ->
  In (expectedStatus, word) UPDATE_STATUS_STRING ->
  0 < topicLength <= len t ->
  exists b,
    coreJobs_isJobUpdateStatus g (Some t) topicLength
      (Some (jid ++ tail)) (len jid) expectedStatus = Ok b
    /\ (b = true <->
        take topicLength t
        = lit "$aws/things/" ++ name ++ lit "/jobs/" ++ jid
          ++ lit "/update/" ++ word).
Proof.
  intros Hstored Hfree Hlen Hstatus Htopic.
  destruct (update_status_tables _ _ Hstatus) as (_ & _ & Hword & Hwfree).
  unfold coreJobs_isJobUpdateStatus.
  rewrite (jobUpdateStatusSuffix_ok jid tail expectedStatus word)
    by (assumption || (unfold CoreJobs.MAX_JOB_ID_LENGTH; lia)).
  run_bind.
  apply isThingnameTopicMatch_spec; try assumption.
  - unfold updateSuffix; repeat apply nul_free_app; try assumption; nul_free_lit.
  - unfold updateSuffix, CoreJobs.MAX_JOB_ID_LENGTH.
    rewrite !len_app; lit_len; lia.
Qed.

Lemma isJobUpdateStatus_exact_witness :
  coreJobs_isJobUpdateStatus thingname_stored
    (Some (lit "$aws/things/thingname/jobs/job-id/update/accepted")) 49
    (Some (literal (lit "job-id"))) 6 JobUpdateStatus_Accepted
  = Ok true.
Proof.
  destruct (isJobUpdateStatus_exact_when_suffix_fits
              thingname_stored (lit "thingname")
              (lit "$aws/things/thingname/jobs/job-id/update/accepted")
              (lit "job-id") [NUL] (lit "accepted") 49
              JobUpdateStatus_Accepted) as [b [Hb Hiff]].
  - split; [nul_free_lit|].
    split; [vm_compute; split; [reflexivity|discriminate]|].
    exists (repeat NUL 119); reflexivity.
  - nul_free_lit.
  - vm_compute; discriminate.
  - left; reflexivity.
  - vm_compute; split; [reflexivity|discriminate].
  - change (len (lit "job-id")) with 6 in Hb. unfold literal. rewrite Hb.
    f_equal. apply Hiff. reflexivity.
Defined.

(** C8, at the inputs where the code departs from it.  For a job id of 43
    to 64 characters, which the data model allows, the suffix
    ["/jobs/<jobId>/update/<accepted|rejected>"] has 65 characters or more
    and does not fit the [MAX_JOB_ID_LENGTH + 1] bytes of
    [suffixTerminated] in [isThingnameTopicMatch]: whatever the topic,
    also the one that equals the reconstructed topic, the call runs into
    an out-of-bounds access instead of returning a verdict. *)
Theorem C8_job_update_status_overruns_suffix_buffer
  (g name jid tail word : list ascii) (topic : ptr) (topicLength : Z)
  (expectedStatus : JobUpdateStatus_t) :
  stored_name g name -> nul_free jid ->
  43 <= len jid <= CoreJobs.MAX_JOB_ID_LENGTH ->
  In (expectedStatus, word) UPDATE_STATUS_STRING ->
  is_null topic = false -> topicLength <> 0 ->
  coreJobs_isJobUpdateStatus g topic topicLength
    (Some (jid ++ tail)) (len jid) expectedStatus
  = Fault OutOfBounds.
Proof.
  intros Hstored Hfree Hlen Hstatus Hnull Htopic.
  destruct (update_status_tables _ _ Hstatus) as (_ & _ & Hword & Hwfree).
  unfold coreJobs_isJobUpdateStatus.
  rewrite (jobUpdateStatusSuffix_ok jid tail expectedStatus word)
    by (assumption || lia).
  run_bind.
  apply (isThingnameTopicMatch_overflow g name); try assumption.
  - unfold updateSuffix; repeat apply nul_free_app; try assumption; nul_free_lit.
  - unfold updateSuffix, CoreJobs.MAX_JOB_ID_LENGTH.
    rewrite !len_app; lit_len; lia.
Qed.

Lemma C8_witness :
  let jobId := repeat "a"%char 43 in
  let topic := lit "$aws/things/thingname/jobs/" ++ jobId ++ lit "/update/accepted" in
  coreJobs_isJobUpdateStatus thingname_stored
    (Some topic) (len topic) (Some (literal jobId)) (len jobId)
    JobUpdateStatus_Accepted
  = Fault OutOfBounds.
Proof.
  intros jobId topic.
  apply (C8_job_update_status_overruns_suffix_buffer
           thingname_stored (lit "thingname")
           jobId [NUL] (lit "accepted")).
  - split; [nul_free_lit|].
    split; [vm_compute; split; [reflexivity|discriminate]|].
    exists (repeat NUL 119); reflexivity.
  - apply nul_free_forallb; vm_compute; reflexivity.
  - vm_compute; split; discriminate.
  - left; reflexivity.
  - reflexivity.
  - vm_compute; discriminate.
Defined.

(** A null or empty topic is no match, whatever the job id the function
    can copy. *)
Theorem isJobUpdateStatus_without_topic
  (g jid tail word : list ascii) (topic : ptr) (topicLength : Z)
  (expectedStatus : JobUpdateStatus_t) :
  nul_free jid -> len jid <= CoreJobs.MAX_JOB_ID_LENGTH ->
  In (expectedStatus, word) UPDATE_STATUS_STRING ->
  is_null topic = true \/ topicLength = 0 ->
  coreJobs_isJobUpdateStatus g topic topicLength
    (Some (jid ++ tail)) (len jid) expectedStatus
  = Ok false.
Proof.
  intros Hfree Hlen Hstatus Htopic.
  unfold coreJobs_isJobUpdateStatus.
  rewrite (jobUpdateStatusSuffix_ok jid tail expectedStatus word) by assumption.
  run_bind. unfold isThingnameTopicMatch.
  destruct Htopic as [-> | ->]; [reflexivity|].
  rewrite orb_true_r. reflexivity.
Qed.

Lemma isJobUpdateStatus_without_topic_witness :
  coreJobs_isJobUpdateStatus thingname_stored None 1
    (Some (literal (lit "job-id"))) 6 JobUpdateStatus_Accepted
  = Ok false.
Proof.
  apply (isJobUpdateStatus_without_topic thingname_stored (lit "job-id") [NUL]
           (lit "accepted") None 1 JobUpdateStatus_Accepted).
  - nul_free_lit.
  - vm_compute; discriminate.
  - left; reflexivity.
  - left; reflexivity.
Defined.

(** ** The unit tests of core_jobs_utest.c, replayed on the embedding *)

Example thingname_is_stored :
  mqttWrapper_setThingName globalThingName_initial (literal (lit "thingname"))
  = Ok thingname_stored.
Proof. vm_compute; reflexivity. Qed.

Example test_isStartNextAccepted :
  coreJobs_isStartNextAccepted thingname_stored
    (Some (literal (lit "$aws/things/thingname/jobs/start-next/accepted"))) 46
  = Ok true
  /\ coreJobs_isStartNextAccepted thingname_stored
       (Some (literal (lit "thingname/random/topic"))) 22
     = Ok false
  /\ coreJobs_isStartNextAccepted thingname_stored
       (Some (literal (lit "$aws/things/differntThignName/jobs/start-next/accepted")))
       54
     = Ok false
  /\ coreJobs_isStartNextAccepted thingname_stored
       (Some (literal (lit "$aws/things/different/jobs/start-next/accepted"))) 46
     = Ok false
  /\ coreJobs_isStartNextAccepted thingname_stored None 1 = Ok false
  /\ coreJobs_isStartNextAccepted thingname_stored
       (Some (literal (lit "$aws/things/differntThignName/jobs/start-next/accepted")))
       0
     = Ok false.
Proof. vm_compute. repeat split. Qed.

Example test_startNextPendingJob :
  getStartNextPendingJobExecutionTopic (Some (literal (lit "thingname"))) 9
    (repeat NUL 257) TOPIC_BUFFER_SIZE
  = Ok (37, lit "$aws/things/thingname/jobs/start-next" ++ repeat NUL 220)
  /\ getStartNextPendingJobExecutionMsg (Some (literal (lit "clientToken"))) 11
       (repeat NUL 147) START_JOB_MSG_LENGTH
     = Ok (29, quoted "{'clientToken':'clientToken'}" ++ repeat NUL 118)
  /\ getStartNextPendingJobExecutionTopic None 10
       (repeat NUL 257) TOPIC_BUFFER_SIZE
     = Ok (0, repeat NUL 257)
  /\ getStartNextPendingJobExecutionMsg None 1
       (repeat NUL 147) START_JOB_MSG_LENGTH
     = Ok (0, repeat NUL 147)
  /\ getStartNextPendingJobExecutionTopic (Some (literal (lit "thingname"))) 0
       (repeat NUL 257) TOPIC_BUFFER_SIZE
     = Ok (0, repeat NUL 257)
  /\ getStartNextPendingJobExecutionMsg (Some (literal (lit "clientToken"))) 0
       (repeat NUL 147) START_JOB_MSG_LENGTH
     = Ok (0, repeat NUL 147).
Proof. vm_compute. repeat split. Qed.

Example test_updateJobStatus :
  getUpdateJobExecutionTopic (Some (literal (lit "thingname"))) 9
    (Some (literal (lit "job-id"))) 6 (repeat NUL 257) TOPIC_BUFFER_SIZE
  = Ok (40, lit "$aws/things/thingname/jobs/job-id/update" ++ repeat NUL 217)
  /\ getUpdateJobExecutionMsg Succeeded (Some (literal (lit "1.0.1"))) 5
       (repeat NUL 48) UPDATE_JOB_MSG_LENGTH
     = Ok (48, quoted "{'status':'SUCCEEDED','expectedVersion':'1.0.1'}")
  /\ getUpdateJobExecutionTopic None 1
       (Some (literal (lit "job-id"))) 6 (repeat NUL 257) TOPIC_BUFFER_SIZE
     = Ok (0, repeat NUL 257)
  /\ getUpdateJobExecutionTopic (Some (literal (lit "thingname"))) 9
       None 1 (repeat NUL 257) TOPIC_BUFFER_SIZE
     = Ok (0, repeat NUL 257)
  /\ getUpdateJobExecutionMsg Succeeded None 1
       (repeat NUL 48) UPDATE_JOB_MSG_LENGTH
     = Ok (0, repeat NUL 48)
  /\ getUpdateJobExecutionTopic (Some (literal (lit "thingname"))) 0
       (Some (literal (lit "job-id"))) 6 (repeat NUL 257) TOPIC_BUFFER_SIZE
     = Ok (0, repeat NUL 257)
  /\ getUpdateJobExecutionTopic (Some (literal (lit "thingname"))) 9
       (Some (literal (lit "job-id"))) 0 (repeat NUL 257) TOPIC_BUFFER_SIZE
     = Ok (0, repeat NUL 257)
  /\ getUpdateJobExecutionMsg Succeeded (Some (literal (lit "1.0.1"))) 0
       (repeat NUL 48) UPDATE_JOB_MSG_LENGTH
     = Ok (0, repeat NUL 48).
Proof. vm_compute. repeat split. Qed.

Example test_isJobUpdateAccepted :
  coreJobs_isJobUpdateStatus thingname_stored
    (Some (literal (lit "$aws/things/thingname/jobs/job-id/update/accepted"))) 49
    (Some (literal (lit "job-id"))) 6 JobUpdateStatus_Accepted
  = Ok true
  /\ coreJobs_isJobUpdateStatus thingname_stored
       (Some (literal (lit "$aws/things/thingname/jobs/jobtwo/update/accepted"))) 49
       (Some (literal (lit "job-id"))) 6 JobUpdateStatus_Accepted
     = Ok false
  /\ coreJobs_isJobUpdateStatus thingname_stored
       (Some (literal
                (lit "$aws/things/thingname/jobs/different-length/update/accepted")))
       59
       (Some (literal (lit "job-id"))) 6 JobUpdateStatus_Accepted
     = Ok false
  /\ coreJobs_isJobUpdateStatus thingname_stored
       (Some (literal (lit "$aws/things/thingname/jobs/some-other-topic"))) 43
       (Some (literal (lit "job-id"))) 6 JobUpdateStatus_Accepted
     = Ok false
  /\ coreJobs_isJobUpdateStatus thingname_stored None 1
       (Some (literal (lit "job-id"))) 6 JobUpdateStatus_Accepted
     = Ok false
  /\ coreJobs_isJobUpdateStatus thingname_stored
       (Some (literal (lit "$aws/things/thingname/jobs/start-next/accepted"))) 0
       (Some (literal (lit "job-id"))) 6 JobUpdateStatus_Accepted
     = Ok false.
Proof. vm_compute. repeat split. Qed.

(* ================================================================== *)
(** * BlockDownloadSession                                             *)
(* ================================================================== *)

Lemma buffer_ok_initial : buffer_ok initial.
Proof.
  unfold buffer_ok, initial; cbn [downloadedData totalBytesReceived].
  split; [|split].
  - exists (zeros (CONFIG_MAX_FILE_SIZE - 1)).
    rewrite !zeros_repeat.
    replace (Z.to_nat CONFIG_MAX_FILE_SIZE)
      with (S (Z.to_nat (CONFIG_MAX_FILE_SIZE - 1)))
      by (unfold CONFIG_MAX_FILE_SIZE; lia).
    rewrite <- repeat_cons. reflexivity.
  - apply len_zeros; unfold CONFIG_MAX_FILE_SIZE; lia.
  - unfold CONFIG_MAX_FILE_SIZE; lia.
Qed.

Lemma requests_snoc file from count :
  requests file from (S count)
  = requests file from count
    ++ [ucRequestDataBlock file CONFIG_BLOCK_SIZE (from + Z.of_nat count)
          NUM_OF_BLOCKS_REQUESTED].
Proof. unfold requests; rewrite seq_S, map_app; reflexivity. Qed.

Lemma requests_cons file from count :
  requests file from (S count)
  = ucRequestDataBlock file CONFIG_BLOCK_SIZE from NUM_OF_BLOCKS_REQUESTED
    :: requests file (from + 1) count.
Proof.
  unfold requests. cbn [seq map]. f_equal.
  - f_equal; lia.
  - rewrite <- seq_shift, map_map. apply map_ext; intros i.
    f_equal; lia.
Qed.

Lemma length_requests file from count : length (requests file from count) = count.
Proof. unfold requests; rewrite length_map, length_seq; reflexivity. Qed.

(** The block count the initialisation computes is the ceiling. *)
Lemma block_count_ceiling fileSize :
  0 <= fileSize < 4294967296 ->
  uint32_t (uint32_t (fileSize / CONFIG_BLOCK_SIZE)
            + (if fileSize mod CONFIG_BLOCK_SIZE >? 0 then 1 else 0))
  = ceiling fileSize CONFIG_BLOCK_SIZE.
Proof.
  intros H. unfold ceiling, CONFIG_BLOCK_SIZE.
  pose proof (Z.div_mod fileSize 256 ltac:(lia)) as Hdm.
  pose proof (Z.mod_pos_bound fileSize 256 ltac:(lia)) as Hmod.
  assert (Hq : 0 <= fileSize / 256 < 16777216).
  { split; [apply Z.div_pos; lia|apply Z.div_lt_upper_bound; lia]. }
  rewrite (uint32_t_small (fileSize / 256)) by lia.
  destruct (Z.gtb_spec (fileSize mod 256) 0) as [Hpos|Hzero].
  - rewrite uint32_t_small by lia.
    apply Z.div_unique with (r := fileSize mod 256 - 1); lia.
  - rewrite uint32_t_small by lia.
    apply Z.div_unique with (r := 255); lia.
Qed.

Lemma ceiling_bounds n :
  0 < n ->
  CONFIG_BLOCK_SIZE * (ceiling n CONFIG_BLOCK_SIZE - 1) < n
  <= CONFIG_BLOCK_SIZE * ceiling n CONFIG_BLOCK_SIZE.
Proof.
  intros H. unfold ceiling, CONFIG_BLOCK_SIZE.
  pose proof (Z.div_mod (n + 256 - 1) 256 ltac:(lia)) as Hdm.
  pose proof (Z.mod_pos_bound (n + 256 - 1) 256 ltac:(lia)) as Hmod.
  lia.
Qed.

Ltac demo_fields :=
  cbn [numOfBlocksRemaining currentBlockOffset currentFileId totalBytesReceived
       downloadedData globalJobId trace emit set_globalJobId] in *.

Lemma drop_before_last k (body : list ascii) :
  0 <= k <= len body -> drop k (body ++ [NUL]) = drop k body ++ [NUL].
Proof.
  intros H; unfold drop, len in *. rewrite skipn_app.
  replace (Z.to_nat k - length body)%nat with O by lia. reflexivity.
Qed.

(** An arrival that would reach or pass the capacity fails the assertion;
    nothing is copied and nothing is reported. *)
Lemma arrival_aborts d b :
  buffer_ok d -> block_ok b ->
  CONFIG_MAX_FILE_SIZE <= totalBytesReceived d + payloadLength b ->
  otaDemo_handleMqttStreamsBlockArrived b d = Fault AssertionFailed.
Proof.
  intros (_ & _ & Htbr) (Hlen & Hwrap) Hover.
  unfold otaDemo_handleMqttStreamsBlockArrived.
  rewrite size_t_small by (unfold SIZE_MAX, CONFIG_MAX_FILE_SIZE in *; lia).
  replace (totalBytesReceived d + payloadLength b <? CONFIG_MAX_FILE_SIZE)
    with false by (symmetry; apply Z.ltb_ge; lia).
  reflexivity.
Qed.

(** An arrival that stays below the capacity is copied behind the bytes
    received so far; then either the transfer is complete, or the next
    block is requested. *)
Lemma arrival_accepts d b :
  buffer_ok d -> block_ok b ->
  totalBytesReceived d + payloadLength b < CONFIG_MAX_FILE_SIZE ->
  exists d',
    otaDemo_handleMqttStreamsBlockArrived b d = Ok d'
    /\ buffer_ok d'
    /\ downloadedData d'
       = take (totalBytesReceived d) (downloadedData d) ++ received b
         ++ drop (totalBytesReceived d + payloadLength b) (downloadedData d)
    /\ totalBytesReceived d' = totalBytesReceived d + payloadLength b
    /\ numOfBlocksRemaining d' = uint32_t (numOfBlocksRemaining d - 1)
    /\ currentFileId d' = currentFileId d
    /\ globalJobId d' = globalJobId d
    /\ ((numOfBlocksRemaining d' = 0
         /\ currentBlockOffset d' = currentBlockOffset d
         /\ exists text,
              trace d' = trace d ++ [printf_downloaded text;
                                     jobs_reportJobStatusComplete])
        \/ (numOfBlocksRemaining d' <> 0
            /\ currentBlockOffset d' = uint32_t (currentBlockOffset d + 1)
            /\ trace d'
               = trace d ++ [ucRequestDataBlock (currentFileId d) CONFIG_BLOCK_SIZE
                               (uint32_t (currentBlockOffset d + 1))
                               NUM_OF_BLOCKS_REQUESTED])).
Proof.
  intros ([body Hbody] & Hcap & Htbr) (Hlen & Hwrap) Hfits.
  assert (Hrecv : len (received b) = payloadLength b)
    by (unfold received; apply len_take; lia).
  assert (Hbodylen : len body = CONFIG_MAX_FILE_SIZE - 1).
  { rewrite Hbody, len_app, len_cons, len_nil in Hcap; lia. }
  set (data' := take (totalBytesReceived d) (downloadedData d) ++ received b
                ++ drop (totalBytesReceived d + payloadLength b) (downloadedData d)).
  assert (Hcopy : memcpy (downloadedData d) (totalBytesReceived d)
                    (payload b) (payloadLength b) = Ok data').
  { unfold memcpy. rewrite load_ok by lia. run_bind.
    fold (received b). rewrite store_ok by lia.
    rewrite Hrecv. reflexivity. }
  assert (Hdata' : data'
            = (take (totalBytesReceived d) (downloadedData d) ++ received b
               ++ drop (totalBytesReceived d + payloadLength b) body) ++ [NUL]).
  { unfold data'. rewrite Hbody at 2. rewrite drop_before_last by lia.
    rewrite <- !app_assoc. reflexivity. }
  assert (Hok' : (exists body', data' = body' ++ [NUL])
                 /\ len data' = CONFIG_MAX_FILE_SIZE).
  { split; [eexists; exact Hdata'|].
    unfold data'. rewrite !len_app, len_take, len_drop, Hrecv by lia. lia. }
  unfold otaDemo_handleMqttStreamsBlockArrived.
  rewrite size_t_small by (unfold SIZE_MAX, CONFIG_MAX_FILE_SIZE in *; lia).
  replace (totalBytesReceived d + payloadLength b <? CONFIG_MAX_FILE_SIZE)
    with true by (symmetry; apply Z.ltb_lt; lia).
  cbn [assert]. run_bind. rewrite Hcopy. run_bind. cbv zeta. demo_fields.
  rewrite (uint32_t_small (totalBytesReceived d + payloadLength b))
    by (unfold CONFIG_MAX_FILE_SIZE in *; lia).
  destruct (Z.eqb_spec (uint32_t (numOfBlocksRemaining d - 1)) 0) as [Hdone|Hmore].
  - destruct (string_at_bounded
                (take (totalBytesReceived d) (downloadedData d) ++ received b
                 ++ drop (totalBytesReceived d + payloadLength b) body) [])
      as [text [Htext _]].
    rewrite <- Hdata' in Htext. rewrite Htext. run_bind.
    unfold otaDemo_finishDownload.
    eexists; split; [reflexivity|]. demo_fields.
    split; [unfold buffer_ok; demo_fields; split; [apply Hok'|split; [apply Hok'|lia]]|].
    repeat (split; [reflexivity || assumption|]).
    left. split; [assumption|]. split; [reflexivity|].
    exists text. rewrite <- app_assoc. reflexivity.
  - eexists; split; [reflexivity|]. demo_fields.
    split; [unfold buffer_ok; demo_fields; split; [apply Hok'|split; [apply Hok'|lia]]|].
    repeat (split; [reflexivity || assumption|]).
    right. split; [assumption|]. split; reflexivity.
Qed.

Lemma total_length_nonneg blocks :
  Forall block_ok blocks -> 0 <= total_length blocks.
Proof.
  induction 1 as [|b blocks [[Hb _] _] _ IH]; cbn [total_length fold_right].
  - lia.
  - fold (total_length blocks). lia.
Qed.

Lemma total_length_app front back :
  total_length (front ++ back) = total_length front + total_length back.
Proof.
  induction front as [|b front IH]; cbn [total_length fold_right app].
  - reflexivity.
  - fold (total_length (front ++ back)) (total_length front). lia.
Qed.

Lemma blocksArrive_app front back d :
  blocksArrive (front ++ back) d
  = (d' <- blocksArrive front d ;; blocksArrive back d').
Proof.
  revert d; induction front as [|b front IH]; intros d; cbn [blocksArrive app].
  - reflexivity.
  - destruct (otaDemo_handleMqttStreamsBlockArrived b d) as [d1|f]; run_bind.
    + apply IH.
    + reflexivity.
Qed.

(** While more blocks remain than arrive, every arrival is answered by the
    request for the next offset. *)
Lemma blocksArrive_requests blocks :
  forall d,
    buffer_ok d -> Forall block_ok blocks ->
    totalBytesReceived d + total_length blocks < CONFIG_MAX_FILE_SIZE ->
    len blocks < numOfBlocksRemaining d < 4294967296 ->
    0 <= currentBlockOffset d ->
    currentBlockOffset d + len blocks < 4294967296 ->
    exists d',
      blocksArrive blocks d = Ok d'
      /\ buffer_ok d'
      /\ numOfBlocksRemaining d' = numOfBlocksRemaining d - len blocks
      /\ currentBlockOffset d' = currentBlockOffset d + len blocks
      /\ totalBytesReceived d' = totalBytesReceived d + total_length blocks
      /\ currentFileId d' = currentFileId d
      /\ globalJobId d' = globalJobId d
      /\ trace d'
         = trace d ++ requests (currentFileId d) (currentBlockOffset d + 1)
                        (length blocks).
Proof.
  induction blocks as [|b blocks IH]; intros d Hok Hblocks Hfits Hn Hoff0 Hoff.
  - exists d. cbn [blocksArrive total_length fold_right length requests seq map].
    rewrite len_nil, app_nil_r. repeat split; try assumption; try lia; apply Hok.
  - inversion Hblocks as [|b' blocks' Hb Hrest]; subst.
    pose proof (total_length_nonneg _ Hrest) as Hsum.
    pose proof (len_nonneg blocks) as Hlen0.
    rewrite len_cons in *.
    cbn [total_length fold_right] in Hfits.
    fold (total_length blocks) in Hfits.
    destruct (arrival_accepts d b Hok Hb) as
      (d1 & Hstep & Hok1 & _ & Htbr1 & Hn1 & Hfile1 & Hjob1 & Hcase); [lia|].
    rewrite uint32_t_small in Hn1 by lia.
    destruct Hcase as [(Hzero & _)|(_ & Hoff1 & Htrace1)]; [lia|].
    rewrite uint32_t_small in Hoff1, Htrace1 by lia.
    destruct (IH d1) as
      (d' & Hrun & Hok' & Hn' & Hoff' & Htbr' & Hfile' & Hjob' & Htrace');
      try assumption; try lia.
    exists d'. cbn [blocksArrive]. rewrite Hstep. run_bind.
    split; [exact Hrun|]. split; [exact Hok'|].
    cbn [total_length fold_right]. fold (total_length blocks).
    repeat split; try lia; try congruence.
    rewrite Htrace', Htrace1, Hfile1, Hoff1. cbn [length].
    rewrite requests_cons, <- app_assoc. reflexivity.
Qed.

(** When exactly as many blocks arrive as remain, the last arrival signals
    completion, once, and requests nothing more. *)
Lemma blocksArrive_completes blocks d :
  buffer_ok d -> Forall block_ok blocks -> blocks <> [] ->
  totalBytesReceived d + total_length blocks < CONFIG_MAX_FILE_SIZE ->
  numOfBlocksRemaining d = len blocks -> len blocks < 4294967296 ->
  0 <= currentBlockOffset d ->
  currentBlockOffset d + len blocks < 4294967296 ->
  exists d' text,
    blocksArrive blocks d = Ok d'
    /\ buffer_ok d'
    /\ numOfBlocksRemaining d' = 0
    /\ totalBytesReceived d' = totalBytesReceived d + total_length blocks
    /\ trace d'
       = trace d
         ++ requests (currentFileId d) (currentBlockOffset d + 1)
              (length blocks - 1)
         ++ [printf_downloaded text; jobs_reportJobStatusComplete].
Proof.
  intros Hok Hblocks Hne Hfits Hn Hmax Hoff0 Hoff.
  destruct (exists_last Hne) as (front & last & ->).
  apply Forall_app in Hblocks. destruct Hblocks as [Hfront Hlast].
  inversion Hlast as [|b' l' Hb _]; subst.
  rewrite total_length_app in Hfits.
  cbn [total_length fold_right] in Hfits.
  rewrite len_app, len_cons, len_nil in *.
  pose proof (len_nonneg front) as Hlen0.
  pose proof (total_length_nonneg _ Hfront) as Hsum.
  destruct Hb as [[Hb0 Hb1] Hb2].
  destruct (blocksArrive_requests front d) as
    (d1 & Hrun & Hok1 & Hn1 & Hoff1 & Htbr1 & Hfile1 & Hjob1 & Htrace1);
    try assumption; try lia.
  destruct (arrival_accepts d1 last Hok1) as
    (d' & Hstep & Hok' & _ & Htbr' & Hn' & Hfile' & Hjob' & Hcase);
    [repeat split; assumption|lia|].
  assert (Hlast1 : numOfBlocksRemaining d1 - 1 = 0) by lia.
  rewrite Hlast1 in Hn'. change (uint32_t 0) with 0 in Hn'.
  destruct Hcase as [(_ & _ & text & Htrace')|(Hnz & _)]; [|lia].
  exists d', text.
  rewrite blocksArrive_app, Hrun. run_bind. cbn [blocksArrive].
  rewrite Hstep. run_bind.
  split; [reflexivity|]. split; [exact Hok'|]. split; [exact Hn'|].
  split.
  - rewrite total_length_app. cbn [total_length fold_right]. lia.
  - rewrite Htrace', Htrace1, length_app. cbn [length].
    replace (length front + 1 - 1)%nat with (length front) by lia.
    rewrite <- app_assoc. reflexivity.
Qed.

Lemma processAfrOtaDocument_spec
  (getThingName : list ascii -> result (list ascii))
  (params : AfrOtaJobDocumentFields_t) (d : Demo) (thingName : list ascii) :
  getThingName (zeros (OtaDemo.MAX_THING_NAME_SIZE + 1)) = Ok thingName ->
  0 <= fileSize params < 4294967296 ->
  applicationSuppliedFunction_processAfrOtaDocument getThingName params d
  = Ok {|
      numOfBlocksRemaining := ceiling (fileSize params) CONFIG_BLOCK_SIZE;
      currentBlockOffset := 0;
      currentFileId := uint8_t (fileId params);
      totalBytesReceived := 0;
      downloadedData := downloadedData d;
      globalJobId := globalJobId d;
      trace := trace d
               ++ [ ucMqttFileDownloaderInit (imageRef params) thingName
                      DATA_TYPE_CBOR;
                    ucRequestDataBlock (uint8_t (fileId params)) CONFIG_BLOCK_SIZE
                      0 NUM_OF_BLOCKS_REQUESTED ]
    |}.
Proof.
  intros Hname Hsize.
  unfold applicationSuppliedFunction_processAfrOtaDocument.
  rewrite Hname. run_bind. cbv zeta.
  rewrite block_count_ceiling by assumption. reflexivity.
Qed.

(** C1, as the code has it.  An arrival whose payload would carry the byte
    counter past the capacity is not copied: the assertion fails and the
    process is aborted, so that nothing is reported either.  No arrival
    accesses the reassembly buffer outside its bounds: an arrival that
    returns has written its payload at the byte counter, within the
    capacity, and has left every other byte of the buffer as it was. *)
Theorem C1_oversized_arrival_is_not_copied
  (d : Demo) (b : MqttFileDownloaderDataBlockInfo_t) :
  buffer_ok d -> block_ok b ->
  (CONFIG_MAX_FILE_SIZE < totalBytesReceived d + payloadLength b ->
   otaDemo_handleMqttStreamsBlockArrived b d = Fault AssertionFailed)
  /\ otaDemo_handleMqttStreamsBlockArrived b d <> Fault OutOfBounds
  /\ (forall d',
        otaDemo_handleMqttStreamsBlockArrived b d = Ok d' ->
        totalBytesReceived d + payloadLength b <= CONFIG_MAX_FILE_SIZE
        /\ len (downloadedData d') = CONFIG_MAX_FILE_SIZE
        /\ downloadedData d'
           = take (totalBytesReceived d) (downloadedData d) ++ received b
             ++ drop (totalBytesReceived d + payloadLength b) (downloadedData d)
        /\ buffer_ok d').
Proof.
  intros Hok Hb.
  destruct (Z.lt_ge_cases (totalBytesReceived d + payloadLength b)
              CONFIG_MAX_FILE_SIZE) as [Hfits|Hover].
  - destruct (arrival_accepts d b Hok Hb Hfits)
      as (d1 & Hstep & Hok1 & Hdata & _).
    split; [lia|]. split; [rewrite Hstep; discriminate|].
    intros d' Hd'. rewrite Hstep in Hd'. injection Hd' as <-.
    split; [lia|]. split; [apply Hok1|]. split; assumption.
  - pose proof (arrival_aborts d b Hok Hb Hover) as Habort.
    split; [intros _; exact Habort|].
    split; [rewrite Habort; discriminate|].
    intros d' Hd'. rewrite Habort in Hd'. discriminate Hd'.
Qed.

Lemma C1_witness :
  otaDemo_handleMqttStreamsBlockArrived oversized_block initial
  = Fault AssertionFailed.
Proof.
  destruct (C1_oversized_arrival_is_not_copied initial oversized_block)
    as [Habort _].
  - exact buffer_ok_initial.
  - unfold block_ok, oversized_block, len; cbn [payload payloadLength].
    rewrite repeat_length. vm_compute. repeat split; discriminate.
  - apply Habort. vm_compute. reflexivity.
Defined.

(** C1 as stated fails: the first block of a transfer arrives with 70000
    bytes.  The call does not return, so no failure status is reported:
    the assertion aborts the process. *)
Lemma C1_counterexample :
  CONFIG_MAX_FILE_SIZE
    < totalBytesReceived initial + payloadLength oversized_block
  /\ otaDemo_handleMqttStreamsBlockArrived oversized_block initial
     = Fault AssertionFailed
  /\ ~ (exists d',
          otaDemo_handleMqttStreamsBlockArrived oversized_block initial = Ok d').
Proof.
  assert (H : otaDemo_handleMqttStreamsBlockArrived oversized_block initial
              = Fault AssertionFailed) by reflexivity.
  split; [reflexivity|]. split; [exact H|].
  intros [d' Hd']. rewrite H in Hd'. discriminate Hd'.
Qed.

Lemma total_length_uniform n blocks :
  Forall (fun b => payloadLength b = n) blocks ->
  total_length blocks = n * len blocks.
Proof.
  induction 1 as [|b blocks Hb _ IH]; cbn [total_length fold_right].
  - unfold len; simpl; lia.
  - fold (total_length blocks). rewrite len_cons, IH, Hb. lia.
Qed.

Lemma full_block_ok b : full_block b -> block_ok b.
Proof.
  unfold full_block, block_ok, CONFIG_BLOCK_SIZE, SIZE_MAX, CONFIG_MAX_FILE_SIZE.
  intros [-> H]. lia.
Qed.

(** C2, on the code.  With [fileSize = 65536] and full 256-byte blocks the
    session does issue the 256 requests for the offsets 0 to 255, one after
    each of the first 255 arrivals; but the 256th arrival brings the byte
    counter to 65536, which the assertion [< CONFIG_MAX_FILE_SIZE] rejects:
    the process is aborted and completion is never signalled. *)
Theorem C2_last_block_of_a_full_size_file_aborts
  (getThingName : list ascii -> result (list ascii))
  (params : AfrOtaJobDocumentFields_t) (d : Demo) (thingName : list ascii)
  (blocks : list MqttFileDownloaderDataBlockInfo_t) :
  getThingName (zeros (OtaDemo.MAX_THING_NAME_SIZE + 1)) = Ok thingName ->
  buffer_ok d -> ~ completed d ->
  fileSize params = 65536 ->
  length blocks = 256%nat -> Forall full_block blocks ->
  exists d0 d255,
    applicationSuppliedFunction_processAfrOtaDocument getThingName params d
    = Ok d0
    /\ blocksArrive (firstn 255 blocks) d0 = Ok d255
    /\ trace d255
       = trace d
         ++ ucMqttFileDownloaderInit (imageRef params) thingName DATA_TYPE_CBOR
            :: requests (uint8_t (fileId params)) 0 256
    /\ ~ completed d255
    /\ blocksArrive blocks d0 = Fault AssertionFailed.
Proof.
  intros Hname Hok Hnot Hsize Hcount Hfull.
  rewrite (processAfrOtaDocument_spec getThingName params d thingName Hname)
    by lia.
  rewrite Hsize. change (ceiling 65536 CONFIG_BLOCK_SIZE) with 256.
  match goal with
  | |- exists d0 d255, Ok ?r = Ok d0 /\ _ => set (d0 := r)
  end.
  assert (Hok0 : buffer_ok d0).
  { destruct Hok as (Hbody & Hcap & _). unfold buffer_ok, d0; demo_fields.
    split; [exact Hbody|]. split; [exact Hcap|].
    unfold CONFIG_MAX_FILE_SIZE; lia. }
  assert (Hsplit : blocks = firstn 255 blocks ++ skipn 255 blocks)
    by (symmetry; apply firstn_skipn).
  assert (Hfront : Forall full_block (firstn 255 blocks)).
  { rewrite Hsplit in Hfull. apply Forall_app in Hfull. apply Hfull. }
  assert (Hback : Forall full_block (skipn 255 blocks)).
  { rewrite Hsplit in Hfull. apply Forall_app in Hfull. apply Hfull. }
  assert (Hlenfront : len (firstn 255 blocks) = 255).
  { unfold len. rewrite length_firstn, Hcount. reflexivity. }
  assert (Hsum : total_length (firstn 255 blocks) = 65280).
  { rewrite (total_length_uniform CONFIG_BLOCK_SIZE).
    - rewrite Hlenfront. reflexivity.
    - eapply Forall_impl; [|exact Hfront]. intros b [Hb _]; exact Hb. }
  destruct (blocksArrive_requests (firstn 255 blocks) d0) as
    (d255 & Hrun & Hok255 & Hn & Hoff & Htbr & Hfile & Hjob & Htrace).
  - exact Hok0.
  - eapply Forall_impl; [|exact Hfront]. exact full_block_ok.
  - rewrite Hsum. unfold d0; demo_fields. unfold CONFIG_MAX_FILE_SIZE; lia.
  - rewrite Hlenfront. unfold d0; demo_fields. lia.
  - unfold d0; demo_fields. lia.
  - rewrite Hlenfront. unfold d0; demo_fields. lia.
  - assert (Htrace255 :
      trace d255
      = trace d
        ++ ucMqttFileDownloaderInit (imageRef params) thingName DATA_TYPE_CBOR
           :: requests (uint8_t (fileId params)) 0 256).
    { rewrite Htrace. unfold d0; demo_fields.
      assert (Hl : length (firstn 255 blocks) = 255%nat)
        by (rewrite length_firstn, Hcount; reflexivity).
      rewrite Hl, (requests_cons _ 0 255), <- app_assoc. reflexivity. }
    exists d0, d255. split; [reflexivity|].
    split; [exact Hrun|]. split; [exact Htrace255|].
    split.
    + unfold completed. rewrite Htrace255. intros Hin.
      apply in_app_or in Hin. destruct Hin as [Hin|[Hin|Hin]].
      * apply Hnot; exact Hin.
      * discriminate Hin.
      * unfold requests in Hin. apply in_map_iff in Hin.
        destruct Hin as [i [Hi _]]. discriminate Hi.
    + rewrite Hsplit, blocksArrive_app, Hrun. run_bind.
      destruct (skipn 255 blocks) as [|last rest] eqn:Hlast.
      { exfalso. apply (f_equal (@length _)) in Hlast.
        rewrite length_skipn, Hcount in Hlast. discriminate Hlast. }
      cbn [blocksArrive].
      inversion Hback as [|b' l' Hb _]; subst.
      rewrite (arrival_aborts d255 last Hok255 (full_block_ok _ Hb)).
      * reflexivity.
      * destruct Hb as [Hb _]. rewrite Htbr, Hsum, Hb.
        unfold d0; demo_fields.
        unfold CONFIG_MAX_FILE_SIZE, CONFIG_BLOCK_SIZE; lia.
Qed.

Lemma C2_witness :
  exists d0 d255,
    applicationSuppliedFunction_processAfrOtaDocument (fun buffer => Ok buffer)
      {| imageRef := None; fileId := 7; fileSize := 65536 |} initial
    = Ok d0
    /\ blocksArrive (firstn 255 full_size_blocks) d0 = Ok d255
    /\ trace d255
       = trace initial
         ++ ucMqttFileDownloaderInit None (zeros (OtaDemo.MAX_THING_NAME_SIZE + 1))
              DATA_TYPE_CBOR
            :: requests (uint8_t 7) 0 256
    /\ ~ completed d255
    /\ blocksArrive full_size_blocks d0 = Fault AssertionFailed.
Proof.
  apply (C2_last_block_of_a_full_size_file_aborts (fun buffer => Ok buffer)
           {| imageRef := None; fileId := 7; fileSize := 65536 |}
           initial (zeros (OtaDemo.MAX_THING_NAME_SIZE + 1)) full_size_blocks).
  - reflexivity.
  - exact buffer_ok_initial.
  - unfold completed; simpl; tauto.
  - reflexivity.
  - apply repeat_length.
  - apply Forall_forall; intros b Hb.
    apply repeat_spec in Hb; subst b.
    split; [reflexivity|vm_compute; discriminate].
Defined.

(** ** Counting requests and completions in a trace *)

Lemma requested_offsets_app t u :
  requested_offsets (t ++ u) = requested_offsets t ++ requested_offsets u.
Proof.
  induction t as [|e t IH]; [reflexivity|].
  destruct e; cbn [app requested_offsets]; rewrite IH; reflexivity.
Qed.

Lemma completions_app t u : completions (t ++ u) = (completions t + completions u)%nat.
Proof.
  induction t as [|e t IH]; [reflexivity|].
  destruct e; cbn [app completions]; rewrite IH; reflexivity.
Qed.

Lemma requested_offsets_requests file from count :
  requested_offsets (requests file from count)
  = map (fun i => from + Z.of_nat i) (seq 0 count).
Proof.
  unfold requests. induction (seq 0 count) as [|i l IH]; [reflexivity|].
  cbn [map requested_offsets]. rewrite IH. reflexivity.
Qed.

Lemma completions_requests file from count :
  completions (requests file from count) = O.
Proof.
  unfold requests. induction (seq 0 count) as [|i l IH]; [reflexivity|].
  cbn [map completions]. exact IH.
Qed.

Lemma full_sized_total blocks :
  forall fileSize,
    full_sized fileSize blocks -> 0 < fileSize ->
    CONFIG_BLOCK_SIZE * (len blocks - 1) < fileSize <= CONFIG_BLOCK_SIZE * len blocks ->
    total_length blocks = fileSize.
Proof.
  unfold full_sized, CONFIG_BLOCK_SIZE.
  induction blocks as [|b blocks IH]; intros fileSize Hsized Hpos Hbounds.
  - unfold len in Hbounds; simpl in Hbounds. lia.
  - rewrite len_cons in Hbounds. pose proof (len_nonneg blocks) as Hlen.
    cbn [total_length fold_right]. fold (total_length blocks).
    pose proof (Hsized O b eq_refl) as Hb. change (Z.of_nat 0) with 0 in Hb.
    destruct blocks as [|b' blocks'].
    + unfold len in Hbounds; simpl in Hbounds.
      cbn [total_length fold_right]. lia.
    + rewrite (IH (fileSize - 256)).
      * rewrite len_cons in Hbounds. pose proof (len_nonneg blocks'). lia.
      * intros i x Hx. rewrite (Hsized (S i) x Hx). lia.
      * rewrite len_cons in Hbounds. pose proof (len_nonneg blocks'). lia.
      * lia.
Qed.

(** C3, as the code has it.  The block size is the constant
    [CONFIG_BLOCK_SIZE = 256].  For every [fileSize] the initialisation sets
    the block counter to [ceil(fileSize / 256)], resets the byte counter and
    the offset, and requests block 0 with a block count of 1.  For a file
    that is not empty, when as many blocks arrive as the counter says and
    their payloads stay below the capacity together, the offsets requested
    are [0 .. ceil(fileSize/256) - 1], completion is signalled once, by the
    last arrival, and the byte counter is then the sum of the accepted
    payload lengths; that sum is [fileSize] when every block carries what is
    left of the file up to the block size. *)
Theorem C3_block_count_and_bytes_at_completion
  (getThingName : list ascii -> result (list ascii))
  (params : AfrOtaJobDocumentFields_t) (d : Demo) (thingName : list ascii)
  (blocks : list MqttFileDownloaderDataBlockInfo_t) :
  getThingName (zeros (OtaDemo.MAX_THING_NAME_SIZE + 1)) = Ok thingName ->
  buffer_ok d ->
  0 <= fileSize params < 4294967296 ->
  let count := ceiling (fileSize params) CONFIG_BLOCK_SIZE in
  exists d0,
    applicationSuppliedFunction_processAfrOtaDocument getThingName params d
    = Ok d0
    /\ numOfBlocksRemaining d0 = count
    /\ currentBlockOffset d0 = 0
    /\ totalBytesReceived d0 = 0
    /\ trace d0
       = trace d
         ++ [ ucMqttFileDownloaderInit (imageRef params) thingName DATA_TYPE_CBOR;
              ucRequestDataBlock (uint8_t (fileId params)) CONFIG_BLOCK_SIZE 0
                NUM_OF_BLOCKS_REQUESTED ]
    /\ (0 < fileSize params ->
        len blocks = count -> Forall block_ok blocks ->
        total_length blocks < CONFIG_MAX_FILE_SIZE ->
        exists d' session,
          blocksArrive blocks d0 = Ok d'
          /\ trace d' = trace d ++ session
          /\ requested_offsets session = map Z.of_nat (seq 0 (Z.to_nat count))
          /\ completions session = 1%nat
          /\ last session (ucRequestDataBlock 0 0 0 0) = jobs_reportJobStatusComplete
          /\ numOfBlocksRemaining d' = 0
          /\ totalBytesReceived d' = total_length blocks
          /\ (full_sized (fileSize params) blocks ->
              total_length blocks = fileSize params)).
Proof.
  intros Hname Hok Hsize count.
  rewrite (processAfrOtaDocument_spec getThingName params d thingName Hname Hsize).
  eexists. split; [reflexivity|]. demo_fields.
  do 4 (split; [reflexivity|]).
  intros Hpos Hcount Hblocks Hfits.
  pose proof (ceiling_bounds (fileSize params) Hpos) as Hceil.
  fold count in Hceil.
  assert (Hcountpos : 0 < count < 16777217).
  { unfold CONFIG_BLOCK_SIZE in Hceil. lia. }
  set (d0 := {| numOfBlocksRemaining := ceiling (fileSize params) CONFIG_BLOCK_SIZE |}).
  assert (Hok0 : buffer_ok d0).
  { destruct Hok as (Hbody & Hcap & _). unfold buffer_ok, d0; demo_fields.
    split; [exact Hbody|]. split; [exact Hcap|].
    unfold CONFIG_MAX_FILE_SIZE; lia. }
  destruct (blocksArrive_completes blocks d0) as
    (d' & text & Hrun & Hok' & Hn' & Htbr' & Htrace'); try assumption.
  - intros ->. unfold len in Hcount; simpl in Hcount. lia.
  - unfold d0; demo_fields. symmetry; exact Hcount.
  - lia.
  - unfold d0; demo_fields. lia.
  - unfold d0; demo_fields. lia.
  - unfold d0 in Htbr', Htrace'; demo_fields.
    assert (Hlen : length blocks = Z.to_nat count) by (unfold len in Hcount; lia).
    assert (Hcount1 : Z.to_nat count = S (length blocks - 1)) by lia.
    exists d'. eexists.
    split; [exact Hrun|].
    split; [rewrite Htrace', <- app_assoc; reflexivity|].
    split.
    { cbn [app requested_offsets]. rewrite requested_offsets_app.
      rewrite requested_offsets_requests. cbn [requested_offsets].
      rewrite app_nil_r, Hcount1. cbn [seq map].
      f_equal. rewrite <- seq_shift, map_map. apply map_ext.
      intros i. lia. }
    split.
    { cbn [app completions]. rewrite completions_app, completions_requests.
      reflexivity. }
    split.
    { change (?a :: ?b :: ?l ++ ?m) with ((a :: b :: l) ++ m).
      rewrite app_assoc.
      change [printf_downloaded text; jobs_reportJobStatusComplete]
        with ([printf_downloaded text] ++ [jobs_reportJobStatusComplete]).
      rewrite app_assoc. apply last_last. }
    split; [exact Hn'|]. split; [lia|].
    intros Hsized. apply full_sized_total; [exact Hsized|exact Hpos|].
    rewrite Hcount. exact Hceil.
Qed.

Lemma block_of_ok c n : 0 <= n <= 65536 -> block_ok (block_of c n).
Proof.
  intros H. unfold block_ok, block_of, len; cbn [payload payloadLength].
  rewrite repeat_length. unfold SIZE_MAX, CONFIG_MAX_FILE_SIZE. lia.
Qed.

Lemma C3_witness :
  let params := {| imageRef := None; fileId := 7; fileSize := 600 |} in
  let blocks := [block_of "a" 256; block_of "b" 256; block_of "c" 88] in
  exists d0,
    applicationSuppliedFunction_processAfrOtaDocument (fun buffer => Ok buffer)
      params initial
    = Ok d0
    /\ numOfBlocksRemaining d0 = 3
    /\ currentBlockOffset d0 = 0
    /\ totalBytesReceived d0 = 0
    /\ trace d0
       = [ ucMqttFileDownloaderInit None (zeros (OtaDemo.MAX_THING_NAME_SIZE + 1))
             DATA_TYPE_CBOR;
           ucRequestDataBlock 7 CONFIG_BLOCK_SIZE 0 NUM_OF_BLOCKS_REQUESTED ]
    /\ exists d' session,
         blocksArrive blocks d0 = Ok d'
         /\ trace d' = session
         /\ requested_offsets session = [0; 1; 2]
         /\ completions session = 1%nat
         /\ last session (ucRequestDataBlock 0 0 0 0) = jobs_reportJobStatusComplete
         /\ numOfBlocksRemaining d' = 0
         /\ totalBytesReceived d' = 600.
Proof.
  intros params blocks.
  destruct (C3_block_count_and_bytes_at_completion (fun buffer => Ok buffer)
              params initial (zeros (OtaDemo.MAX_THING_NAME_SIZE + 1)) blocks)
    as (d0 & Hinit & Hn & Hoff & Htbr & Htrace & Hrun).
  - reflexivity.
  - exact buffer_ok_initial.
  - vm_compute; split; [discriminate|reflexivity].
  - exists d0. split; [exact Hinit|]. split; [exact Hn|].
    split; [exact Hoff|]. split; [exact Htbr|]. split; [exact Htrace|].
    destruct Hrun as (d' & session & H1 & H2 & H3 & H4 & H5 & H6 & H7 & _).
    + vm_compute; reflexivity.
    + reflexivity.
    + repeat constructor; apply block_of_ok; lia.
    + vm_compute; reflexivity.
    + exists d', session. repeat split; assumption.
Defined.

(** C3 as stated fails: the session counts blocks, not bytes.  A file of
    512 bytes is announced; the second block arrives with 100 bytes.  Both
    arrivals are accepted, each decrements the counter, and completion is
    signalled with 356 bytes received. *)
Lemma C3_counterexample :
  let params := {| imageRef := None; fileId := 7; fileSize := 512 |} in
  let blocks := [block_of "a" 256; block_of "b" 100] in
  match
    (d0 <- applicationSuppliedFunction_processAfrOtaDocument
             (fun buffer => Ok buffer) params initial ;;
     blocksArrive blocks d0)
  with
  | Ok d' =>
      completions (trace d') = 1%nat
      /\ requested_offsets (trace d') = [0; 1]
      /\ numOfBlocksRemaining d' = 0
      /\ totalBytesReceived d' = total_length blocks
      /\ total_length blocks = 356
      /\ total_length blocks <> fileSize params
  | Fault _ => False
  end.
Proof. vm_compute. repeat split; discriminate. Qed.

(** The same holds at the lower end: for an empty file the counter is
    [ceil(0/256) = 0], yet block 0 is requested; when a block arrives the
    counter wraps around to [2^32 - 1] and the next block is requested. *)
Lemma empty_file_still_requests_blocks :
  let params := {| imageRef := None; fileId := 7; fileSize := 0 |} in
  match
    applicationSuppliedFunction_processAfrOtaDocument
      (fun buffer => Ok buffer) params initial
  with
  | Ok d0 =>
      numOfBlocksRemaining d0 = ceiling 0 CONFIG_BLOCK_SIZE
      /\ ceiling 0 CONFIG_BLOCK_SIZE = 0
      /\ requested_offsets (trace d0) = [0]
      /\ match blocksArrive [block_of "a" 0] d0 with
         | Ok d' =>
             numOfBlocksRemaining d' = 4294967295
             /\ requested_offsets (trace d') = [0; 1]
             /\ completions (trace d') = O
         | Fault _ => False
         end
  | Fault _ => False
  end.
Proof. vm_compute. repeat split. Qed.

(* ================================================================== *)
(** * JobLifecycleManager                                              *)
(* ================================================================== *)

Lemma strncpy_bytes_exact s tail :
  nul_free s -> strncpy_bytes (s ++ tail) (length s) = Some s.
Proof.
  induction 1 as [|c s Hc Hs IH]; [reflexivity|].
  cbn [app length strncpy_bytes].
  apply is_nul_false in Hc. rewrite Hc, IH. reflexivity.
Qed.

Section JobAcceptance.

Variable handleJobDoc : handler.

(** No job recorded yet: the id is copied into [globalJobId] and the
    document is handed on. *)
Lemma first_acceptance_records d job tail jobDoc jobDocLength rest :
  globalJobId d = NUL :: rest -> nul_free job ->
  len job <= len (globalJobId d) ->
  otaDemo_handleJobsStartNextAccepted handleJobDoc
    (Some (job ++ tail)) (len job) jobDoc jobDocLength d
  = handleJobDoc (Some (job ++ tail)) (len job) jobDoc jobDocLength
      (set_globalJobId (job ++ drop (len job) (globalJobId d)) d).
Proof.
  intros Hempty Hfree Hlen.
  unfold otaDemo_handleJobsStartNextAccepted.
  rewrite Hempty at 1. change (index (NUL :: rest) 0) with (@Ok ascii NUL).
  run_bind. rewrite is_nul_NUL.
  unfold strncpy, len at 1. rewrite Nat2Z.id. cbn [deref].
  rewrite strncpy_bytes_exact by assumption.
  rewrite store_first by assumption. run_bind. reflexivity.
Qed.

(** A job id is recorded: the call changes nothing and reports that it did
    not handle the message. *)
Lemma later_acceptance_ignored d c rest jobId jobIdLength jobDoc jobDocLength :
  globalJobId d = c :: rest -> c <> NUL ->
  otaDemo_handleJobsStartNextAccepted handleJobDoc
    jobId jobIdLength jobDoc jobDocLength d
  = Ok (false, d).
Proof.
  intros Hset Hc. unfold otaDemo_handleJobsStartNextAccepted.
  rewrite Hset. change (index (c :: rest) 0) with (@Ok ascii c).
  run_bind. apply is_nul_false in Hc. rewrite Hc. reflexivity.
Qed.

(** The job document parser works on the download session and leaves the
    recorded job id alone. *)
Hypothesis handleJobDoc_keeps_job_id :
  forall jobId jobIdLength jobDoc jobDocLength d handled d',
    handleJobDoc jobId jobIdLength jobDoc jobDocLength d = Ok (handled, d') ->
    globalJobId d' = globalJobId d.

(** C5.  When a first job, with a non-empty id of at most 64 characters,
    has been accepted while no job was recorded, a second call with any
    job id returns false and changes nothing: the recorded id is still the
    first one. *)
Theorem C5_second_job_is_ignored
  (d0 d1 : Demo) (handled1 : bool)
  (job1 tail1 : list ascii) (jobDoc1 : ptr) (jobDocLength1 : Z)
  (jobId2 : ptr) (jobIdLength2 : Z) (jobDoc2 : ptr) (jobDocLength2 : Z) :
  len (globalJobId d0) = OtaDemo.MAX_JOB_ID_LENGTH ->
  (exists rest, globalJobId d0 = NUL :: rest) ->
  nul_free job1 -> 0 < len job1 <= OtaDemo.MAX_JOB_ID_LENGTH ->
  otaDemo_handleJobsStartNextAccepted handleJobDoc
    (Some (job1 ++ tail1)) (len job1) jobDoc1 jobDocLength1 d0
  = Ok (handled1, d1) ->
  otaDemo_handleJobsStartNextAccepted handleJobDoc
    jobId2 jobIdLength2 jobDoc2 jobDocLength2 d1
  = Ok (false, d1)
  /\ take (len job1) (globalJobId d1) = job1.
Proof.
  intros Hcap [rest Hempty] Hfree Hlen Hfirst.
  rewrite (first_acceptance_records d0 job1 tail1 jobDoc1 jobDocLength1 rest)
    in Hfirst by (assumption || lia).
  apply handleJobDoc_keeps_job_id in Hfirst. cbn [set_globalJobId globalJobId] in Hfirst.
  destruct job1 as [|c job1]; [unfold len in Hlen; simpl in Hlen; lia|].
  split.
  - apply (later_acceptance_ignored d1 c
             (job1 ++ drop (len (c :: job1)) (globalJobId d0))).
    + rewrite Hfirst. reflexivity.
    + inversion Hfree; assumption.
  - rewrite Hfirst. apply take_app_len.
Qed.

End JobAcceptance.

Lemma handleJobDoc_with_keeps_job_id params :
  forall jobId jobIdLength jobDoc jobDocLength d handled d',
    handleJobDoc_with params jobId jobIdLength jobDoc jobDocLength d
    = Ok (handled, d') ->
    globalJobId d' = globalJobId d.
Proof.
  intros jobId jobIdLength jobDoc jobDocLength d handled d'.
  unfold handleJobDoc_with, applicationSuppliedFunction_processAfrOtaDocument.
  cbn [bind]. intros [= _ <-]. reflexivity.
Qed.

Lemma C5_witness :
  let h := handleJobDoc_with {| imageRef := None; fileId := 7; fileSize := 600 |} in
  exists handled1 d1,
    otaDemo_handleJobsStartNextAccepted h
      (Some (lit "job-one" ++ quoted "','jobDocument':")) 7
      (Some (lit "{}")) 2 initial
    = Ok (handled1, d1)
    /\ otaDemo_handleJobsStartNextAccepted h
         (Some (lit "job-two" ++ quoted "','jobDocument':")) 7
         (Some (lit "{}")) 2 d1
       = Ok (false, d1)
    /\ take 7 (globalJobId d1) = lit "job-one".
Proof.
  intros h.
  assert (Hempty : globalJobId initial
                   = NUL :: zeros (OtaDemo.MAX_JOB_ID_LENGTH - 1)).
  { cbn [globalJobId initial]. apply zeros_succ. reflexivity. }
  assert (Hcap : len (globalJobId initial) = OtaDemo.MAX_JOB_ID_LENGTH).
  { cbn [globalJobId initial]. apply len_zeros. discriminate. }
  assert (Hfree : nul_free (lit "job-one")) by nul_free_lit.
  assert (E : exists handled1 d1,
             otaDemo_handleJobsStartNextAccepted h
               (Some (lit "job-one" ++ quoted "','jobDocument':")) 7
               (Some (lit "{}")) 2 initial
             = Ok (handled1, d1)).
  { change 7 with (len (lit "job-one")).
    rewrite (first_acceptance_records h initial (lit "job-one") _ _ _ _
               Hempty Hfree)
      by (rewrite Hcap; vm_compute; discriminate).
    eexists; eexists. reflexivity. }
  destruct E as (handled1 & d1 & E).
  exists handled1, d1. split; [exact E|].
  apply (C5_second_job_is_ignored h (handleJobDoc_with_keeps_job_id _)
           initial d1 handled1 (lit "job-one") (quoted "','jobDocument':")
           (Some (lit "{}")) 2).
  - exact Hcap.
  - eexists; exact Hempty.
  - exact Hfree.
  - vm_compute; split; [reflexivity|discriminate].
  - exact E.
Defined.

(* ================================================================== *)
(** * MessageRouter                                                    *)
(* ================================================================== *)

Section Router.

Variable handleJobDoc : handler.
Variable coreJobsMQTTAPI_handleIncomingMQTTMessage : handler -> handler.
Variable mqttStreams_handleIncomingMessage : handler.

(** C9.  The router offers the message to the jobs dispatch first.  If
    that handled it, the router returns true and the block-arrival
    dispatch is not consulted.  Otherwise the message goes to the
    block-arrival dispatch, whose verdict is the router's; when neither
    handled the message the router logs it and returns false. *)
Theorem C9_router_tries_jobs_then_streams
  (topic : ptr) (topicLength : Z) (message : ptr) (messageLength : Z)
  (d d1 : Demo) (handledByJobs : bool) :
  coreJobsMQTTAPI_handleIncomingMQTTMessage
    (otaDemo_handleJobsStartNextAccepted handleJobDoc)
    topic topicLength message messageLength d
  = Ok (handledByJobs, d1) ->
  let routed :=
    otaDemo_handleIncomingMQTTMessage handleJobDoc
      coreJobsMQTTAPI_handleIncomingMQTTMessage mqttStreams_handleIncomingMessage
      topic topicLength message messageLength d in
  (handledByJobs = true -> routed = Ok (true, d1))
  /\ (handledByJobs = false ->
      forall handledByStreams d2,
        mqttStreams_handleIncomingMessage topic topicLength message messageLength d1
        = Ok (handledByStreams, d2) ->
        routed
        = Ok (handledByStreams,
              if handledByStreams then d2
              else emit (printf_unrecognized topic topicLength message messageLength)
                        d2))
  /\ (forall handled d',
        routed = Ok (handled, d') ->
        (handled = true <->
         handledByJobs = true
         \/ exists d2,
              mqttStreams_handleIncomingMessage
                topic topicLength message messageLength d1
              = Ok (true, d2))).
Proof.
  intros Hjobs routed. subst routed.
  unfold otaDemo_handleIncomingMQTTMessage.
  rewrite Hjobs. run_bind.
  split; [|split].
  - intros ->. reflexivity.
  - intros -> handledByStreams d2 Hstreams.
    rewrite Hstreams. run_bind. destruct handledByStreams; reflexivity.
  - intros handled d'. destruct handledByJobs.
    + run_bind. cbn [negb]. intros [= <- _]. split; [auto|reflexivity].
    + destruct (mqttStreams_handleIncomingMessage topic topicLength message
                  messageLength d1) as [[handledByStreams d2]|f]; run_bind.
      * destruct handledByStreams; cbn [negb]; intros [= <- _].
        -- split; [intros _; right; exists d2; reflexivity|reflexivity].
        -- split; [discriminate|].
           intros [Hj|[d3 Hs]]; [discriminate Hj|discriminate Hs].
      * discriminate.
Qed.

End Router.

Lemma C9_witness :
  let topic := Some (lit "thingname/random/topic") in
  let message := Some (lit "hello") in
  otaDemo_handleIncomingMQTTMessage (handleJobDoc_with
      {| imageRef := None; fileId := 7; fileSize := 600 |})
    jobs_dispatch_declines streams_dispatch_declines
    topic 22 message 5 initial
  = Ok (false, emit (printf_unrecognized topic 22 message 5) initial).
Proof.
  intros topic message.
  destruct (C9_router_tries_jobs_then_streams
              (handleJobDoc_with {| imageRef := None; fileId := 7; fileSize := 600 |})
              jobs_dispatch_declines streams_dispatch_declines
              topic 22 message 5 initial initial false eq_refl)
    as (_ & Hstreams & _).
  apply (Hstreams eq_refl false initial eq_refl).
Defined.

(* ================================================================== *)
(** * Further properties of the builders and matchers                  *)
(* ================================================================== *)

(** X1.  For a thing name that is not empty and fits, the start-next topic
    builder writes exactly ["$aws/things/<thingname>/jobs/start-next"] at
    the start of the buffer, returns its length [28 + thingnameLength], and
    leaves the rest of the buffer as it was. *)
Theorem X1_start_next_topic_format
  (name tail buffer : list ascii) (bufferSize : Z) :
  0 < len name -> 28 + len name <= bufferSize ->
  bufferSize <= len buffer -> bufferSize <= SIZE_MAX ->
  exists buffer',
    getStartNextPendingJobExecutionTopic (Some (name ++ tail)) (len name)
      buffer bufferSize
    = Ok (28 + len name, buffer')
    /\ take (28 + len name) buffer'
       = lit "$aws/things/" ++ name ++ lit "/jobs/start-next"
    /\ drop (28 + len name) buffer' = drop (28 + len name) buffer
    /\ len buffer' = len buffer.
Proof.
  intros Hname Hsize Hbuf Hmax.
  pose proof (getStartNextPendingJobExecutionTopic_ok name tail buffer bufferSize
                Hname Hsize Hbuf Hmax) as H. cbv zeta in H.
  set (topic := lit "$aws/things/" ++ name ++ lit "/jobs/start-next") in *.
  assert (Hlen : len topic = 28 + len name)
    by (unfold topic; rewrite !len_app; lit_len; lia).
  rewrite Hlen in H. eexists. split; [exact H|].
  rewrite <- Hlen. rewrite take_app_len, drop_app_len.
  split; [reflexivity|]. split; [reflexivity|].
  rewrite len_app, len_drop by (pose proof (len_nonneg topic); lia). lia.
Qed.

Lemma X1_witness :
  exists buffer',
    getStartNextPendingJobExecutionTopic (Some (literal (lit "thingname")))
      (len (lit "thingname")) (zeros 257) 256
    = Ok (28 + len (lit "thingname"), buffer')
    /\ take (28 + len (lit "thingname")) buffer'
       = lit "$aws/things/" ++ lit "thingname" ++ lit "/jobs/start-next"
    /\ drop (28 + len (lit "thingname")) buffer'
       = drop (28 + len (lit "thingname")) (zeros 257)
    /\ len buffer' = len (zeros 257).
Proof.
  apply (X1_start_next_topic_format (lit "thingname") [NUL] (zeros 257) 256).
  - vm_compute; reflexivity.
  - vm_compute; discriminate.
  - rewrite len_zeros; lia.
  - vm_compute; discriminate.
Defined.

(** X2.  For a client token that is not empty and fits, the start-next
    message builder writes exactly [{"clientToken":"<clientToken>"}],
    returns its length [18 + clientTokenLength], and leaves the rest of the
    buffer as it was. *)
Theorem X2_start_next_message_format
  (token tail buffer : list ascii) (bufferSize : Z) :
  0 < len token -> 18 + len token <= bufferSize ->
  bufferSize <= len buffer -> bufferSize <= SIZE_MAX ->
  exists buffer',
    getStartNextPendingJobExecutionMsg (Some (token ++ tail)) (len token)
      buffer bufferSize
    = Ok (18 + len token, buffer')
    /\ take (18 + len token) buffer'
       = quoted "{'clientToken':'" ++ token ++ quoted "'}"
    /\ drop (18 + len token) buffer' = drop (18 + len token) buffer
    /\ len buffer' = len buffer.
Proof.
  intros Htoken Hsize Hbuf Hmax.
  pose proof (getStartNextPendingJobExecutionMsg_ok token tail buffer bufferSize
                Htoken Hsize Hbuf Hmax) as H. cbv zeta in H.
  set (message := quoted "{'clientToken':'" ++ token ++ quoted "'}") in *.
  assert (Hlen : len message = 18 + len token)
    by (unfold message; rewrite !len_app; lit_len; lia).
  rewrite Hlen in H. eexists. split; [exact H|].
  rewrite <- Hlen. rewrite take_app_len, drop_app_len.
  split; [reflexivity|]. split; [reflexivity|].
  rewrite len_app, len_drop by (pose proof (len_nonneg message); lia). lia.
Qed.

Lemma X2_witness :
  exists buffer',
    getStartNextPendingJobExecutionMsg (Some (literal (lit "clientToken")))
      (len (lit "clientToken")) (zeros 147) 147
    = Ok (18 + len (lit "clientToken"), buffer')
    /\ take (18 + len (lit "clientToken")) buffer'
       = quoted "{'clientToken':'" ++ lit "clientToken" ++ quoted "'}"
    /\ drop (18 + len (lit "clientToken")) buffer'
       = drop (18 + len (lit "clientToken")) (zeros 147)
    /\ len buffer' = len (zeros 147).
Proof.
  apply (X2_start_next_message_format (lit "clientToken") [NUL] (zeros 147) 147).
  - vm_compute; reflexivity.
  - vm_compute; discriminate.
  - rewrite len_zeros; lia.
  - vm_compute; discriminate.
Defined.

(** X3.  For a thing name and a job id that are not empty and fit, the
    update topic builder writes exactly
    ["$aws/things/<thingname>/jobs/<jobId>/update"], returns its length
    [25 + thingnameLength + jobIdLength], and leaves the rest of the buffer
    as it was. *)
Theorem X3_update_topic_format
  (name tail job tail' buffer : list ascii) (bufferSize : Z) :
  0 < len name -> 0 < len job -> 25 + len name + len job <= bufferSize ->
  bufferSize <= len buffer -> bufferSize <= SIZE_MAX ->
  exists buffer',
    getUpdateJobExecutionTopic (Some (name ++ tail)) (len name)
      (Some (job ++ tail')) (len job) buffer bufferSize
    = Ok (25 + len name + len job, buffer')
    /\ take (25 + len name + len job) buffer'
       = lit "$aws/things/" ++ name ++ lit "/jobs/" ++ job ++ lit "/update"
    /\ drop (25 + len name + len job) buffer'
       = drop (25 + len name + len job) buffer
    /\ len buffer' = len buffer.
Proof.
  intros Hname Hjob Hsize Hbuf Hmax.
  pose proof (getUpdateJobExecutionTopic_ok name tail job tail' buffer bufferSize
                Hname Hjob Hsize Hbuf Hmax) as H. cbv zeta in H.
  set (topic := lit "$aws/things/" ++ name ++ lit "/jobs/" ++ job ++ lit "/update")
    in *.
  assert (Hlen : len topic = 25 + len name + len job)
    by (unfold topic; rewrite !len_app; lit_len; lia).
  rewrite Hlen in H. eexists. split; [exact H|].
  rewrite <- Hlen. rewrite take_app_len, drop_app_len.
  split; [reflexivity|]. split; [reflexivity|].
  rewrite len_app, len_drop by (pose proof (len_nonneg topic); lia). lia.
Qed.

Lemma X3_witness :
  exists buffer',
    getUpdateJobExecutionTopic (Some (literal (lit "thingname")))
      (len (lit "thingname")) (Some (literal (lit "job-id"))) (len (lit "job-id"))
      (zeros 257) 256
    = Ok (25 + len (lit "thingname") + len (lit "job-id"), buffer')
    /\ take (25 + len (lit "thingname") + len (lit "job-id")) buffer'
       = lit "$aws/things/" ++ lit "thingname" ++ lit "/jobs/" ++ lit "job-id"
         ++ lit "/update"
    /\ drop (25 + len (lit "thingname") + len (lit "job-id")) buffer'
       = drop (25 + len (lit "thingname") + len (lit "job-id")) (zeros 257)
    /\ len buffer' = len (zeros 257).
Proof.
  apply (X3_update_topic_format (lit "thingname") [NUL] (lit "job-id") [NUL]
           (zeros 257) 256).
  - vm_compute; reflexivity.
  - vm_compute; reflexivity.
  - vm_compute; discriminate.
  - rewrite len_zeros; lia.
  - vm_compute; discriminate.
Defined.

Lemma isStartNextAccepted_exact g name t topicLength :
  stored_name g name -> 0 < topicLength <= len t ->
  exists b,
    coreJobs_isStartNextAccepted g (Some t) topicLength = Ok b
    /\ (b = true <->
        take topicLength t = expectedTopic name (lit "/jobs/start-next/accepted")).
Proof.
  intros Hstored Ht. unfold coreJobs_isStartNextAccepted, literal.
  rewrite strlen_terminated by nul_free_lit. run_bind.
  apply (isThingnameTopicMatch_spec g name t topicLength
           (lit "/jobs/start-next/accepted") [NUL] Hstored).
  - nul_free_lit.
  - vm_compute; discriminate.
  - exact Ht.
Qed.

(** X4.  With a device identity stored, [coreJobs_isStartNextAccepted] is
    the exact comparison of the first [topicLength] bytes at the topic
    pointer with ["$aws/things/<deviceId>/jobs/start-next/accepted"]:
    nothing shorter, longer or different is accepted, and what follows the
    first [topicLength] bytes is not looked at. *)
Theorem X4_start_next_accepted_is_an_exact_match
  (g name t : list ascii) (topicLength : Z) :
  stored_name g name -> 0 < topicLength <= len t ->
  exists b,
    coreJobs_isStartNextAccepted g (Some t) topicLength = Ok b
    /\ (b = true <->
        take topicLength t
        = lit "$aws/things/" ++ name ++ lit "/jobs/start-next/accepted").
Proof. apply isStartNextAccepted_exact. Qed.

Lemma X4_witness :
  exists b,
    coreJobs_isStartNextAccepted thingname_stored
      (Some (lit "$aws/things/thingname/jobs/start-next/accepted/extra")) 46
    = Ok b
    /\ (b = true <->
        take 46 (lit "$aws/things/thingname/jobs/start-next/accepted/extra")
        = lit "$aws/things/" ++ lit "thingname" ++ lit "/jobs/start-next/accepted").
Proof.
  apply (X4_start_next_accepted_is_an_exact_match thingname_stored
           (lit "thingname")
           (lit "$aws/things/thingname/jobs/start-next/accepted/extra") 46).
  - split; [nul_free_lit|].
    split; [vm_compute; split; [reflexivity|discriminate]|].
    exists (repeat NUL 119); reflexivity.
  - vm_compute; split; [reflexivity|discriminate].
Defined.

Lemma getThingName_unset rest buffer :
  mqttWrapper_getThingName (NUL :: rest) buffer = Fault AssertionFailed.
Proof. reflexivity. Qed.

(** X6.  A null or empty topic is never a match, whether or not a thing
    name has been stored.  While no thing name is stored, every other topic
    makes the matchers fail the assertion of [mqttWrapper_getThingName]:
    the process aborts. *)
Theorem X6_matchers_before_the_thing_name_is_set
  (g unset jid tail word : list ascii) (topic : ptr) (topicLength : Z)
  (expectedStatus : JobUpdateStatus_t) :
  nul_free jid -> len jid <= CoreJobs.MAX_JOB_ID_LENGTH ->
  In (expectedStatus, word) UPDATE_STATUS_STRING ->
  (is_null topic = true \/ topicLength = 0 ->
   coreJobs_isStartNextAccepted g topic topicLength = Ok false
   /\ coreJobs_isJobUpdateStatus g topic topicLength
        (Some (jid ++ tail)) (len jid) expectedStatus
      = Ok false)
  /\ (is_null topic = false -> topicLength <> 0 ->
      coreJobs_isStartNextAccepted (NUL :: unset) topic topicLength
      = Fault AssertionFailed
      /\ coreJobs_isJobUpdateStatus (NUL :: unset) topic topicLength
           (Some (jid ++ tail)) (len jid) expectedStatus
         = Fault AssertionFailed).
Proof.
  intros Hfree Hlen Hstatus.
  assert (Hstart : forall h,
            coreJobs_isStartNextAccepted h topic topicLength
            = isThingnameTopicMatch h topic topicLength
                (literal (lit "/jobs/start-next/accepted"))
                (len (lit "/jobs/start-next/accepted"))).
  { intros h. unfold coreJobs_isStartNextAccepted, literal.
    rewrite strlen_terminated by nul_free_lit. reflexivity. }
  assert (Hupdate : forall h,
            coreJobs_isJobUpdateStatus h topic topicLength
              (Some (jid ++ tail)) (len jid) expectedStatus
            = isThingnameTopicMatch h topic topicLength
                (updateSuffix jid word
                 ++ NUL :: zeros (TOPIC_BUFFER_SIZE - MAX_THING_NAME_LENGTH - 4
                                  - len (updateSuffix jid word) - 1))
                (len (updateSuffix jid word))).
  { intros h. unfold coreJobs_isJobUpdateStatus.
    rewrite (jobUpdateStatusSuffix_ok jid tail expectedStatus word) by assumption.
    reflexivity. }
  split.
  - intros Hno. rewrite Hstart, Hupdate. unfold isThingnameTopicMatch.
    destruct Hno as [-> | ->]; [split; reflexivity|].
    rewrite orb_true_r. split; reflexivity.
  - intros Hnull Hlength. rewrite Hstart, Hupdate. unfold isThingnameTopicMatch.
    rewrite Hnull. cbn [orb].
    replace (topicLength =? 0) with false by (symmetry; apply Z.eqb_neq; lia).
    cbv iota. rewrite getThingName_unset. split; reflexivity.
Qed.

Lemma X6_witness :
  (coreJobs_isStartNextAccepted globalThingName_initial None 1 = Ok false
   /\ coreJobs_isJobUpdateStatus globalThingName_initial None 1
        (Some (literal (lit "job-id"))) 6 JobUpdateStatus_Accepted
      = Ok false)
  /\ (coreJobs_isStartNextAccepted (NUL :: zeros 128)
        (Some (lit "any/topic")) 9
      = Fault AssertionFailed
      /\ coreJobs_isJobUpdateStatus (NUL :: zeros 128)
           (Some (lit "any/topic")) 9
           (Some (literal (lit "job-id"))) 6 JobUpdateStatus_Accepted
         = Fault AssertionFailed).
Proof.
  destruct (X6_matchers_before_the_thing_name_is_set
              globalThingName_initial (zeros 128) (lit "job-id") [NUL]
              (lit "accepted") None 1 JobUpdateStatus_Accepted) as [H1 _];
    [nul_free_lit|vm_compute; discriminate|left; reflexivity|].
  destruct (X6_matchers_before_the_thing_name_is_set
              globalThingName_initial (zeros 128) (lit "job-id") [NUL]
              (lit "accepted") (Some (lit "any/topic")) 9
              JobUpdateStatus_Accepted) as [_ H2];
    [nul_free_lit|vm_compute; discriminate|left; reflexivity|].
  split.
  - apply H1. left; reflexivity.
  - apply H2; [reflexivity|discriminate].
Defined.

Lemma app_same_length_inv {A : Type} (a a' b b' : list A) :
  length a = length a' -> a ++ b = a' ++ b' -> a = a' /\ b = b'.
Proof.
  revert a'; induction a as [|x a IH]; intros [|x' a'] Hlen Happ;
    simpl in *; try discriminate.
  - split; [reflexivity|exact Happ].
  - injection Happ as -> Happ. injection Hlen as Hlen.
    destruct (IH a' Hlen Happ) as [-> ->]. split; reflexivity.
Qed.

Lemma update_word_inj s1 w1 s2 w2 :
  In (s1, w1) UPDATE_STATUS_STRING -> In (s2, w2) UPDATE_STATUS_STRING ->
  w1 = w2 -> s1 = s2.
Proof.
  unfold UPDATE_STATUS_STRING; cbn [In].
  intros [H1|[H1|[]]] [H2|[H2|[]]]; injection H1 as <- <-; injection H2 as <- <-;
    intros E; try reflexivity; discriminate E.
Qed.

Lemma updateSuffix_inj j1 w1 j2 w2 :
  len w1 = len w2 ->
  updateSuffix j1 w1 = updateSuffix j2 w2 -> j1 = j2 /\ w1 = w2.
Proof.
  unfold updateSuffix. intros Hw H. apply app_inv_head in H.
  assert (Hlen : length j1 = length j2).
  { apply (f_equal (@length ascii)) in H. rewrite !length_app in H.
    unfold len in Hw. lia. }
  destruct (app_same_length_inv _ _ _ _ Hlen H) as [-> H'].
  apply app_inv_head in H'. split; [reflexivity|exact H'].
Qed.

Lemma updateSuffix_is_not_start_next j w :
  len w = 8 -> updateSuffix j w <> lit "/jobs/start-next/accepted".
Proof.
  unfold updateSuffix. intros Hw H.
  change (lit "/jobs/start-next/accepted")
    with (lit "/jobs/" ++ lit "start-next/accepted") in H.
  apply app_inv_head in H.
  assert (Hlen : length j = 3%nat).
  { apply (f_equal (@length ascii)) in H. rewrite !length_app in H.
    unfold len in Hw. simpl in H. lia. }
  destruct j as [|a [|b [|c [|e j]]]]; try discriminate Hlen.
  discriminate H.
Qed.

(** X7.  With job ids short enough for the matcher to work, a topic that
    [coreJobs_isJobUpdateStatus] recognises for one job id and status is
    rejected for every other job id or status, and is not taken for a
    start-next acceptance. *)
Theorem X7_a_topic_matches_one_job_and_status_only
  (g name t j1 tail1 w1 j2 tail2 w2 : list ascii) (topicLength : Z)
  (s1 s2 : JobUpdateStatus_t) :
  stored_name g name -> 0 < topicLength <= len t ->
  nul_free j1 -> len j1 <= 42 -> In (s1, w1) UPDATE_STATUS_STRING ->
  nul_free j2 -> len j2 <= 42 -> In (s2, w2) UPDATE_STATUS_STRING ->
  coreJobs_isJobUpdateStatus g (Some t) topicLength
    (Some (j1 ++ tail1)) (len j1) s1 = Ok true ->
  j1 <> j2 \/ s1 <> s2 ->
  coreJobs_isJobUpdateStatus g (Some t) topicLength
    (Some (j2 ++ tail2)) (len j2) s2 = Ok false
  /\ coreJobs_isStartNextAccepted g (Some t) topicLength = Ok false.
Proof.
  intros Hstored Ht Hf1 Hl1 Hs1 Hf2 Hl2 Hs2 Hmatch1 Hother.
  destruct (update_status_tables _ _ Hs1) as (_ & _ & Hw1 & _).
  destruct (update_status_tables _ _ Hs2) as (_ & _ & Hw2 & _).
  destruct (isJobUpdateStatus_exact_when_suffix_fits g name t j1 tail1 w1
              topicLength s1 Hstored Hf1 Hl1 Hs1 Ht) as [b1 [Hb1 Hiff1]].
  rewrite Hb1 in Hmatch1. injection Hmatch1 as ->.
  assert (E1 : take topicLength t = expectedTopic name (updateSuffix j1 w1))
    by (apply Hiff1; reflexivity).
  split.
  - destruct (isJobUpdateStatus_exact_when_suffix_fits g name t j2 tail2 w2
                topicLength s2 Hstored Hf2 Hl2 Hs2 Ht) as [b2 [Hb2 Hiff2]].
    rewrite Hb2. f_equal. destruct b2; [|reflexivity].
    exfalso.
    assert (E2 : take topicLength t = expectedTopic name (updateSuffix j2 w2))
      by (apply Hiff2; reflexivity).
    rewrite E1 in E2. unfold expectedTopic in E2.
    do 2 apply app_inv_head in E2.
    destruct (updateSuffix_inj j1 w1 j2 w2) as [Hj Hw]; [lia|exact E2|].
    destruct Hother as [Hne|Hne]; apply Hne; [exact Hj|].
    apply (update_word_inj s1 w1 s2 w2); assumption.
  - destruct (isStartNextAccepted_exact g name t topicLength Hstored Ht)
      as [b [Hb Hiff]].
    rewrite Hb. f_equal. destruct b; [|reflexivity].
    exfalso. apply (updateSuffix_is_not_start_next j1 w1 Hw1).
    assert (E : take topicLength t
                = expectedTopic name (lit "/jobs/start-next/accepted"))
      by (apply Hiff; reflexivity).
    rewrite E1 in E. unfold expectedTopic in E.
    do 2 apply app_inv_head in E. exact E.
Qed.

Lemma thingname_stored_ok : stored_name thingname_stored (lit "thingname").
Proof.
  split; [nul_free_lit|].
  split; [vm_compute; split; [reflexivity|discriminate]|].
  exists (repeat NUL 119); reflexivity.
Qed.

Lemma X7_witness :
  let topic := lit "$aws/things/thingname/jobs/job-id/update/accepted" in
  coreJobs_isJobUpdateStatus thingname_stored (Some topic) 49
    (Some (literal (lit "jobtwo"))) 6 JobUpdateStatus_Rejected = Ok false
  /\ coreJobs_isStartNextAccepted thingname_stored (Some topic) 49 = Ok false.
Proof.
  intros topic.
  apply (X7_a_topic_matches_one_job_and_status_only thingname_stored
           (lit "thingname") topic (lit "job-id") [NUL] (lit "accepted")
           (lit "jobtwo") [NUL] (lit "rejected") 49
           JobUpdateStatus_Accepted JobUpdateStatus_Rejected).
  - exact thingname_stored_ok.
  - vm_compute; split; [reflexivity|discriminate].
  - nul_free_lit.
  - vm_compute; discriminate.
  - left; reflexivity.
  - nul_free_lit.
  - vm_compute; discriminate.
  - right; left; reflexivity.
  - vm_compute; reflexivity.
  - left; discriminate.
Defined.

(** X5.  For a job id of at most 42 characters (so that the formatted
    suffix fits the matcher's buffer) and a declared status,
    [coreJobs_isJobUpdateStatus] is the exact comparison of the first
    [topicLength] bytes at the topic pointer with
    ["$aws/things/<deviceId>/jobs/<jobId>/update/<accepted|rejected>"]. *)
Theorem X5_job_update_status_is_an_exact_match
  (g name t jid tail word : list ascii) (topicLength : Z)
  (expectedStatus : JobUpdateStatus_t) :
  stored_name g name -> nul_free jid -> len jid <= 42 ->
  In (expectedStatus, word) UPDATE_STATUS_STRING ->
  0 < topicLength <= len t ->
  exists b,
    coreJobs_isJobUpdateStatus g (Some t) topicLength
      (Some (jid ++ tail)) (len jid) expectedStatus = Ok b
    /\ (b = true <->
        take topicLength t
        = lit "$aws/things/" ++ name ++ lit "/jobs/" ++ jid
          ++ lit "/update/" ++ word).
Proof. apply isJobUpdateStatus_exact_when_suffix_fits. Qed.

Lemma X5_witness :
  exists b,
    coreJobs_isJobUpdateStatus thingname_stored
      (Some (lit "$aws/things/thingname/jobs/job-id/update/rejected")) 49
      (Some (literal (lit "job-id"))) 6 JobUpdateStatus_Rejected = Ok b
    /\ (b = true <->
        take 49 (lit "$aws/things/thingname/jobs/job-id/update/rejected")
        = lit "$aws/things/" ++ lit "thingname" ++ lit "/jobs/" ++ lit "job-id"
          ++ lit "/update/" ++ lit "rejected").
Proof.
  apply (X5_job_update_status_is_an_exact_match thingname_stored
           (lit "thingname")
           (lit "$aws/things/thingname/jobs/job-id/update/rejected")
           (lit "job-id") [NUL] (lit "rejected") 49 JobUpdateStatus_Rejected).
  - exact thingname_stored_ok.
  - nul_free_lit.
  - vm_compute; discriminate.
  - right; left; reflexivity.
  - vm_compute; split; [reflexivity|discriminate].
Defined.

(* ================================================================== *)
(** * The stored thing name                                            *)
(* ================================================================== *)

Lemma thingname_ok_initial : thingname_ok globalThingName_initial.
Proof.
  exists (zeros MqttWrapper.MAX_THING_NAME_SIZE). split.
  - unfold globalThingName_initial. rewrite !zeros_repeat.
    replace (Z.to_nat (MqttWrapper.MAX_THING_NAME_SIZE + 1))
      with (S (Z.to_nat MqttWrapper.MAX_THING_NAME_SIZE)) by reflexivity.
    rewrite <- repeat_cons. reflexivity.
  - apply len_zeros. discriminate.
Qed.

Lemma strncpy_bytes_length src n bytes :
  strncpy_bytes src n = Some bytes -> length bytes = n.
Proof.
  revert src bytes; induction n as [|n IH]; intros src bytes; simpl.
  - intros [= <-]. reflexivity.
  - destruct src as [|c src]; [discriminate|].
    destruct (is_nul c).
    + intros [= <-]. simpl. rewrite repeat_length. reflexivity.
    + destruct (strncpy_bytes src n) as [rest|] eqn:E; [|discriminate].
      intros [= <-]. simpl. rewrite (IH _ _ E). reflexivity.
Qed.

Lemma strlen_bounded a rest :
  exists k, strlen (a ++ NUL :: rest) = Ok k /\ 0 <= k <= len a.
Proof.
  assert (H : exists n, strlen_nat (a ++ NUL :: rest) = Some n
                        /\ (n <= length a)%nat).
  { induction a as [|c a IH]; simpl.
    - exists O; split; [reflexivity|lia].
    - destruct (is_nul c); [exists O; split; [reflexivity|lia]|].
      destruct IH as [n [Hn Hle]]. rewrite Hn.
      exists (S n); split; [reflexivity|lia]. }
  destruct H as [n [Hn Hle]]. unfold strlen. rewrite Hn.
  eexists; split; [reflexivity|]. unfold len; lia.
Qed.

Lemma stored_bytes_ok g bytes :
  thingname_ok g -> len bytes = MqttWrapper.MAX_THING_NAME_SIZE ->
  store g 0 bytes = Ok (bytes ++ [NUL]) /\ thingname_ok (bytes ++ [NUL]).
Proof.
  intros (body & -> & Hbody) Hbytes. split.
  - rewrite store_first by (rewrite len_app, len_cons, len_nil; lia).
    rewrite Hbytes, <- Hbody, drop_app_len. reflexivity.
  - exists bytes. split; [reflexivity|exact Hbytes].
Qed.

Lemma setThingName_string g s tail :
  thingname_ok g -> nul_free s ->
  mqttWrapper_setThingName g (s ++ NUL :: tail)
  = Ok ((take MqttWrapper.MAX_THING_NAME_SIZE s
         ++ repeat NUL (Z.to_nat MqttWrapper.MAX_THING_NAME_SIZE - length s))
        ++ [NUL]).
Proof.
  intros Hok Hfree. unfold mqttWrapper_setThingName, strncpy.
  rewrite strncpy_bytes_terminated by assumption.
  apply stored_bytes_ok; [exact Hok|].
  unfold len.
  rewrite (strncpy_bytes_length (s ++ NUL :: tail)
             (Z.to_nat MqttWrapper.MAX_THING_NAME_SIZE)).
  - reflexivity.
  - apply strncpy_bytes_terminated. exact Hfree.
Qed.

Lemma nul_padding_terminates pad rest :
  exists rest', repeat NUL pad ++ NUL :: rest = NUL :: rest'.
Proof.
  exists (repeat NUL pad ++ rest).
  change (NUL :: repeat NUL pad ++ rest) with ((NUL :: repeat NUL pad) ++ rest).
  rewrite repeat_cons, <- app_assoc. reflexivity.
Qed.

(** X8.  Setting the thing name and reading it back, from any state of the
    wrapper: the name comes back cut to its first 128 characters and
    terminated, whatever was stored before.  After an empty name has been
    set, reading it back fails the assertion. *)
Theorem X8_thing_name_round_trip (g s tail : list ascii) :
  thingname_ok g -> nul_free s ->
  exists g',
    mqttWrapper_setThingName g (s ++ NUL :: tail) = Ok g'
    /\ thingname_ok g'
    /\ (0 < len s ->
        let name := take MqttWrapper.MAX_THING_NAME_SIZE s in
        stored_name g' name
        /\ forall n, len name < n ->
             mqttWrapper_getThingName g' (zeros n)
             = Ok (name ++ NUL :: zeros (n - len name - 1)))
    /\ (len s = 0 ->
        forall buffer, mqttWrapper_getThingName g' buffer = Fault AssertionFailed).
Proof.
  intros Hok Hfree.
  rewrite (setThingName_string g s tail Hok Hfree).
  eexists. split; [reflexivity|].
  set (pad := (Z.to_nat MqttWrapper.MAX_THING_NAME_SIZE - length s)%nat).
  assert (Hlen : len (take MqttWrapper.MAX_THING_NAME_SIZE s ++ repeat NUL pad)
                 = MqttWrapper.MAX_THING_NAME_SIZE).
  { unfold len, take, pad. rewrite length_app, length_firstn, repeat_length.
    unfold MqttWrapper.MAX_THING_NAME_SIZE. lia. }
  split; [eexists; split; [reflexivity|exact Hlen]|].
  split.
  - intros Hs name.
    assert (Hstored : stored_name
              ((name ++ repeat NUL pad) ++ [NUL]) name).
    { split; [apply nul_free_take; exact Hfree|].
      split.
      - unfold name, len, take. rewrite length_firstn.
        unfold len, MqttWrapper.MAX_THING_NAME_SIZE in *. lia.
      - destruct (nul_padding_terminates pad []) as [rest' Hrest].
        exists rest'. rewrite <- Hrest, app_assoc. reflexivity. }
    split; [exact Hstored|].
    intros n Hn. apply mqttWrapper_getThingName_stored; assumption.
  - intros Hs buffer.
    assert (s = []) by (destruct s; [reflexivity|unfold len in Hs; simpl in Hs; lia]).
    subst s. unfold take. rewrite firstn_nil. cbn [app].
    destruct (nul_padding_terminates pad []) as [rest' Hrest].
    rewrite Hrest. apply getThingName_unset.
Qed.

Lemma X8_witness :
  exists g',
    mqttWrapper_setThingName thingname_stored (literal (lit "dev")) = Ok g'
    /\ thingname_ok g'
    /\ (0 < len (lit "dev") ->
        let name := take MqttWrapper.MAX_THING_NAME_SIZE (lit "dev") in
        stored_name g' name
        /\ forall n, len name < n ->
             mqttWrapper_getThingName g' (zeros n)
             = Ok (name ++ NUL :: zeros (n - len name - 1)))
    /\ (len (lit "dev") = 0 ->
        forall buffer, mqttWrapper_getThingName g' buffer = Fault AssertionFailed).
Proof.
  apply (X8_thing_name_round_trip thingname_stored (lit "dev") []).
  - exists (lit "thingname" ++ repeat NUL 119). split; reflexivity.
  - nul_free_lit.
Defined.

(** Every array that ends with a zero holds a string: the bytes before
    its first zero. *)
Lemma first_nul_split (body : list ascii) :
  exists s rest,
    nul_free s /\ body ++ [NUL] = s ++ NUL :: rest /\ len s <= len body.
Proof.
  induction body as [|c body IH].
  - exists [], []. split; [constructor|]. split; [reflexivity|]. lia.
  - destruct (is_nul c) eqn:Hc.
    + apply is_nul_true in Hc. subst c.
      exists [], (body ++ [NUL]). split; [constructor|].
      split; [reflexivity|]. rewrite len_cons. pose proof (len_nonneg body).
      change (len (@nil ascii)) with 0. lia.
    + apply is_nul_false in Hc.
      destruct IH as (s & rest & Hfree & Heq & Hlen).
      exists (c :: s), rest. split; [constructor; assumption|].
      split; [cbn [app]; rewrite Heq; reflexivity|].
      rewrite !len_cons. lia.
Qed.

(** X9.  [mqttWrapper_setThingName] never writes the last byte of
    [globalThingName].  Whatever source it has copied from, also one of 128
    characters or more, of which [strncpy] copies 128 without a terminator,
    the array still ends with a zero, and [mqttWrapper_getThingName] into a
    buffer of [MAX_THING_NAME_SIZE + 1] bytes or more stays within bounds:
    it returns the stored name, of at most 128 characters, or fails the
    assertion when the array starts with a zero. *)
Theorem X9_thing_name_stays_terminated (g source g' : list ascii) (n : Z) :
  thingname_ok g ->
  mqttWrapper_setThingName g source = Ok g' ->
  MqttWrapper.MAX_THING_NAME_SIZE + 1 <= n ->
  thingname_ok g'
  /\ ((exists name,
         stored_name g' name
         /\ mqttWrapper_getThingName g' (zeros n)
            = Ok (name ++ NUL :: zeros (n - len name - 1)))
      \/ ((exists rest, g' = NUL :: rest)
          /\ mqttWrapper_getThingName g' (zeros n) = Fault AssertionFailed)).
Proof.
  intros Hok Hset Hn.
  assert (Hok' : thingname_ok g').
  { revert Hset. unfold mqttWrapper_setThingName, strncpy.
    destruct (strncpy_bytes source (Z.to_nat MqttWrapper.MAX_THING_NAME_SIZE))
      as [bytes|] eqn:E; [|discriminate].
    destruct (stored_bytes_ok g bytes Hok) as [Hstore Hkept].
    { unfold len. rewrite (strncpy_bytes_length _ _ _ E). reflexivity. }
    rewrite Hstore. intros [= <-]. exact Hkept. }
  split; [exact Hok'|].
  destruct Hok' as (body & -> & Hbody).
  destruct (first_nul_split body) as (s & rest & Hfree & Heq & Hlen).
  rewrite Heq.
  destruct s as [|c s].
  - right. split; [exists rest; reflexivity|]. apply getThingName_unset.
  - left. exists (c :: s).
    assert (Hstored : stored_name ((c :: s) ++ NUL :: rest) (c :: s)).
    { split; [exact Hfree|]. split; [|exists rest; reflexivity].
      rewrite len_cons in *. pose proof (len_nonneg s). lia. }
    split; [exact Hstored|].
    apply mqttWrapper_getThingName_stored; [exact Hstored|lia].
Qed.

Lemma X9_witness :
  let g' := repeat "a"%char 128 ++ [NUL] in
  mqttWrapper_setThingName thingname_stored (repeat "a"%char 200) = Ok g'
  /\ mqttWrapper_getThingName g' (zeros 129) = Ok (repeat "a"%char 128 ++ [NUL])
  /\ thingname_ok g'
  /\ exists name,
       stored_name g' name
       /\ mqttWrapper_getThingName g' (zeros 129)
          = Ok (name ++ NUL :: zeros (129 - len name - 1)).
Proof.
  intros g'.
  split; [vm_compute; reflexivity|].
  split; [vm_compute; reflexivity|].
  assert (Hset : mqttWrapper_setThingName thingname_stored (repeat "a"%char 200)
                 = Ok g') by (vm_compute; reflexivity).
  destruct (X9_thing_name_stays_terminated thingname_stored
              (repeat "a"%char 200) g' 129) as [Hok [Hname|[[rest Hrest] _]]].
  - exists (lit "thingname" ++ repeat NUL 119). split; reflexivity.
  - exact Hset.
  - vm_compute. discriminate.
  - split; [exact Hok|exact Hname].
  - discriminate Hrest.
Defined.

(* ================================================================== *)
(** * The download session, block after block                          *)
(* ================================================================== *)

Lemma drop_past (a b : list ascii) k :
  0 <= k -> drop (len a + k) (a ++ b) = drop k b.
Proof.
  intros H. unfold drop, len. rewrite skipn_app.
  replace (Z.to_nat (Z.of_nat (length a) + k) - length a)%nat
    with (Z.to_nat k) by lia.
  rewrite skipn_all2 by lia. reflexivity.
Qed.

Lemma drop_drop (m : list ascii) j k :
  0 <= j -> 0 <= k -> drop k (drop j m) = drop (j + k) m.
Proof.
  intros Hj Hk. unfold drop. rewrite skipn_skipn. f_equal. lia.
Qed.

Lemma len_received b : block_ok b -> len (received b) = payloadLength b.
Proof. intros [H _]. unfold received. apply len_take. exact H. Qed.

Lemma len_contents blocks :
  Forall block_ok blocks -> len (contents blocks) = total_length blocks.
Proof.
  induction 1 as [|b blocks Hb _ IH]; [reflexivity|].
  unfold contents in *. cbn [map concat total_length fold_right].
  fold (total_length blocks).
  rewrite len_app, IH, len_received by assumption. reflexivity.
Qed.

(** The blocks that arrive are laid down one behind the other, from the
    byte counter on. *)
Lemma blocksArrive_reassembles blocks :
  forall d,
    buffer_ok d -> Forall block_ok blocks ->
    totalBytesReceived d + total_length blocks < CONFIG_MAX_FILE_SIZE ->
    exists d',
      blocksArrive blocks d = Ok d'
      /\ buffer_ok d'
      /\ totalBytesReceived d' = totalBytesReceived d + total_length blocks
      /\ downloadedData d'
         = take (totalBytesReceived d) (downloadedData d) ++ contents blocks
           ++ drop (totalBytesReceived d + total_length blocks) (downloadedData d).
Proof.
  induction blocks as [|b blocks IH]; intros d Hok Hblocks Hfits.
  - exists d. cbn [blocksArrive total_length fold_right contents map concat app].
    rewrite Z.add_0_r, take_drop.
    split; [reflexivity|]. split; [exact Hok|]. split; reflexivity.
  - inversion Hblocks as [|b' blocks' Hb Hrest]; subst.
    pose proof (total_length_nonneg _ Hrest) as Hsum.
    pose proof (len_received b Hb) as Hrecv.
    cbn [total_length fold_right] in *. fold (total_length blocks) in *.
    assert (Hd := Hok). destruct Hd as (_ & Hcap & Htbr).
    destruct Hb as [[Hb0 Hb1] Hb2].
    destruct (arrival_accepts d b Hok) as
      (d1 & Hstep & Hok1 & Hdata1 & Htbr1 & _);
      [repeat split; assumption|lia|].
    destruct (IH d1 Hok1 Hrest) as (d' & Hrun & Hok' & Htbr' & Hdata'); [lia|].
    exists d'. cbn [blocksArrive]. rewrite Hstep. run_bind.
    split; [exact Hrun|]. split; [exact Hok'|]. split; [lia|].
    rewrite Hdata', Htbr1.
    set (t := totalBytesReceived d) in *.
    set (p := payloadLength b) in *.
    assert (Hfront : len (take t (downloadedData d) ++ received b) = t + p)
      by (rewrite len_app, len_take, Hrecv by lia; reflexivity).
    assert (Hsplit : downloadedData d1
                     = (take t (downloadedData d) ++ received b)
                       ++ drop (t + p) (downloadedData d))
      by (rewrite Hdata1, <- app_assoc; reflexivity).
    rewrite Hsplit.
    rewrite <- Hfront at 1. rewrite take_app_len.
    rewrite <- Hfront at 1. rewrite drop_past by lia.
    rewrite drop_drop by lia.
    unfold contents. cbn [map concat]. rewrite <- !app_assoc.
    replace (t + p + total_length blocks) with (t + (p + total_length blocks))
      by lia.
    reflexivity.
Qed.

(** What an arrival appends to the trace: the text at the start of the
    buffer and the completion signal, or the request for another block. *)
Lemma arrival_log b d d' :
  otaDemo_handleMqttStreamsBlockArrived b d = Ok d' ->
  (exists text,
     string_at (downloadedData d') = Ok text
     /\ trace d' = trace d ++ [printf_downloaded text; jobs_reportJobStatusComplete])
  \/ (exists blockOffset,
        trace d' = trace d ++ [ucRequestDataBlock (currentFileId d) CONFIG_BLOCK_SIZE
                                 blockOffset NUM_OF_BLOCKS_REQUESTED]).
Proof.
  unfold otaDemo_handleMqttStreamsBlockArrived.
  destruct (size_t (totalBytesReceived d + payloadLength b) <? CONFIG_MAX_FILE_SIZE);
    cbn [assert]; run_bind; [|discriminate].
  destruct (memcpy (downloadedData d) (totalBytesReceived d) (payload b)
              (payloadLength b)) as [data'|f]; run_bind; [|discriminate].
  cbv zeta. demo_fields.
  destruct (uint32_t (numOfBlocksRemaining d - 1) =? 0).
  - destruct (string_at data') as [text|f] eqn:Htext; run_bind; [|discriminate].
    unfold otaDemo_finishDownload. intros [= <-]. demo_fields.
    left. exists text. split; [exact Htext|].
    rewrite <- app_assoc. reflexivity.
  - intros [= <-]. demo_fields. right. eexists. reflexivity.
Qed.

Lemma blocksArrive_last_log blocks d d' pre text :
  blocks <> [] -> blocksArrive blocks d = Ok d' ->
  trace d' = pre ++ [printf_downloaded text; jobs_reportJobStatusComplete] ->
  string_at (downloadedData d') = Ok text.
Proof.
  intros Hne Hrun Htrace.
  destruct (exists_last Hne) as (front & b & ->).
  rewrite blocksArrive_app in Hrun.
  destruct (blocksArrive front d) as [d1|f]; cbn [bind] in Hrun; [|discriminate].
  cbn [blocksArrive] in Hrun.
  destruct (otaDemo_handleMqttStreamsBlockArrived b d1) as [d2|f] eqn:Hstep;
    cbn [bind] in Hrun; [|discriminate].
  injection Hrun as ->.
  destruct (arrival_log b d1 d' Hstep) as [(t & Ht & Hlog)|(off & Hlog)];
    rewrite Hlog in Htrace.
  - change [printf_downloaded t; jobs_reportJobStatusComplete]
      with ([printf_downloaded t] ++ [jobs_reportJobStatusComplete]) in Htrace.
    change [printf_downloaded text; jobs_reportJobStatusComplete]
      with ([printf_downloaded text] ++ [jobs_reportJobStatusComplete]) in Htrace.
    rewrite !app_assoc in Htrace.
    apply app_inj_tail in Htrace. destruct Htrace as [Htrace _].
    apply app_inj_tail in Htrace. destruct Htrace as [_ [= ->]].
    exact Ht.
  - change [printf_downloaded text; jobs_reportJobStatusComplete]
      with ([printf_downloaded text] ++ [jobs_reportJobStatusComplete]) in Htrace.
    rewrite app_assoc in Htrace.
    apply app_inj_tail in Htrace. destruct Htrace as [_ Habs]. discriminate Habs.
Qed.

(** X10.  Reassembly.  Whatever the block counter says, blocks that stay
    below the capacity together are all accepted, and the buffer then holds
    the bytes received before, the payloads of the blocks in the order of
    arrival, and behind them what the buffer held there before. *)
Theorem X10_blocks_are_reassembled_in_order
  (blocks : list MqttFileDownloaderDataBlockInfo_t) (d : Demo) :
  buffer_ok d -> Forall block_ok blocks ->
  totalBytesReceived d + total_length blocks < CONFIG_MAX_FILE_SIZE ->
  exists d',
    blocksArrive blocks d = Ok d'
    /\ buffer_ok d'
    /\ totalBytesReceived d' = totalBytesReceived d + total_length blocks
    /\ downloadedData d'
       = take (totalBytesReceived d) (downloadedData d) ++ contents blocks
         ++ drop (totalBytesReceived d + total_length blocks) (downloadedData d).
Proof. intros Hok Hblocks Hfits. apply blocksArrive_reassembles; assumption. Qed.

Lemma X10_witness :
  exists d',
    blocksArrive [block_of "a" 256; block_of "b" 88] initial = Ok d'
    /\ buffer_ok d'
    /\ totalBytesReceived d' = 344
    /\ downloadedData d'
       = repeat "a"%char 256 ++ repeat "b"%char 88 ++ zeros (CONFIG_MAX_FILE_SIZE - 344).
Proof.
  destruct (X10_blocks_are_reassembled_in_order
              [block_of "a" 256; block_of "b" 88] initial)
    as (d' & Hrun & Hok & Htbr & Hdata).
  - exact buffer_ok_initial.
  - repeat constructor; apply block_of_ok; lia.
  - vm_compute. reflexivity.
  - exists d'. split; [exact Hrun|]. split; [exact Hok|].
    split; [exact Htbr|]. rewrite Hdata.
    cbn [initial downloadedData totalBytesReceived].
    rewrite drop_zeros by (vm_compute; split; discriminate).
    reflexivity.
Defined.

(** X11.  A download into the fresh buffer that completes logs the file up
    to its first zero byte (the whole file when it has none), after the
    requests for the blocks that followed the first, and then signals
    completion. *)
Theorem X11_completed_download_is_logged_up_to_the_first_zero
  (blocks : list MqttFileDownloaderDataBlockInfo_t) (d : Demo)
  (text rest : list ascii) :
  downloadedData d = zeros CONFIG_MAX_FILE_SIZE -> totalBytesReceived d = 0 ->
  Forall block_ok blocks -> blocks <> [] ->
  total_length blocks < CONFIG_MAX_FILE_SIZE ->
  numOfBlocksRemaining d = len blocks ->
  0 <= currentBlockOffset d -> currentBlockOffset d + len blocks < 4294967296 ->
  nul_free text -> contents blocks ++ [NUL] = text ++ NUL :: rest ->
  exists d',
    blocksArrive blocks d = Ok d'
    /\ downloadedData d'
       = contents blocks ++ zeros (CONFIG_MAX_FILE_SIZE - total_length blocks)
    /\ trace d'
       = trace d
         ++ requests (currentFileId d) (currentBlockOffset d + 1)
              (length blocks - 1)
         ++ [printf_downloaded text; jobs_reportJobStatusComplete].
Proof.
  intros Hfresh Htbr Hblocks Hne Hfits Hn Hoff0 Hoff Hfree Htext.
  pose proof (total_length_nonneg _ Hblocks) as Hsum.
  pose proof (len_nonneg blocks) as Hlen.
  assert (Hok : buffer_ok d).
  { unfold buffer_ok. rewrite Hfresh, Htbr. split; [|split].
    - destruct buffer_ok_initial as [Hbody _]. exact Hbody.
    - apply len_zeros. discriminate.
    - unfold CONFIG_MAX_FILE_SIZE. lia. }
  destruct (blocksArrive_completes blocks d) as
    (d' & logged & Hrun & _ & _ & _ & Htrace); try assumption; try lia.
  destruct (blocksArrive_reassembles blocks d Hok Hblocks) as
    (d2 & Hrun2 & _ & _ & Hdata); [lia|].
  rewrite Hrun in Hrun2. injection Hrun2 as <-.
  rewrite Htbr, Hfresh in Hdata. cbn [Z.add] in Hdata.
  rewrite take_zeros, zeros_0, drop_zeros in Hdata
    by (unfold CONFIG_MAX_FILE_SIZE in *; lia).
  cbn [app] in Hdata.
  assert (Hlogged : string_at (downloadedData d') = Ok logged).
  { apply (blocksArrive_last_log blocks d d'
             (trace d ++ requests (currentFileId d) (currentBlockOffset d + 1)
                           (length blocks - 1))); [assumption|assumption|].
    rewrite Htrace, <- app_assoc. reflexivity. }
  rewrite Hdata in Hlogged.
  rewrite (zeros_succ (CONFIG_MAX_FILE_SIZE - total_length blocks)) in Hlogged
    by lia.
  change (contents blocks ++ NUL :: ?z)
    with (contents blocks ++ [NUL] ++ z) in Hlogged.
  rewrite app_assoc, Htext, <- app_assoc in Hlogged.
  cbn [app] in Hlogged.
  rewrite string_at_terminated in Hlogged by assumption.
  injection Hlogged as <-.
  exists d'. split; [exact Hrun|]. split; [exact Hdata|exact Htrace].
Qed.

Lemma X11_witness :
  let blocks := [block_of "a" 256; block_of "b" 88] in
  let d := {| numOfBlocksRemaining := 2; currentBlockOffset := 0;
              currentFileId := 7; totalBytesReceived := 0;
              downloadedData := zeros CONFIG_MAX_FILE_SIZE;
              globalJobId := zeros OtaDemo.MAX_JOB_ID_LENGTH; trace := [] |} in
  exists d',
    blocksArrive blocks d = Ok d'
    /\ downloadedData d'
       = contents blocks ++ zeros (CONFIG_MAX_FILE_SIZE - total_length blocks)
    /\ trace d'
       = requests 7 1 1
         ++ [printf_downloaded (repeat "a"%char 256 ++ repeat "b"%char 88);
             jobs_reportJobStatusComplete].
Proof.
  intros blocks d.
  apply (X11_completed_download_is_logged_up_to_the_first_zero blocks d
           (repeat "a"%char 256 ++ repeat "b"%char 88) []).
  - reflexivity.
  - reflexivity.
  - repeat constructor; apply block_of_ok; lia.
  - discriminate.
  - vm_compute. reflexivity.
  - reflexivity.
  - cbn [currentBlockOffset d]. lia.
  - vm_compute. reflexivity.
  - nul_free_lit.
  - vm_compute. reflexivity.
Defined.

(** X12.  Blocks that arrive when the block counter is zero (after the
    completion, or before any job) are accepted like any other: the counter
    wraps to 4294967295 and counts down from there, every arrival is
    answered by a request for a further block, and no completion is
    signalled. *)
Theorem X12_blocks_beyond_the_count_keep_the_session_going
  (blocks : list MqttFileDownloaderDataBlockInfo_t) (d : Demo) :
  buffer_ok d -> numOfBlocksRemaining d = 0 ->
  Forall block_ok blocks -> blocks <> [] ->
  totalBytesReceived d + total_length blocks < CONFIG_MAX_FILE_SIZE ->
  0 <= currentBlockOffset d -> currentBlockOffset d + len blocks < 4294967296 ->
  exists d',
    blocksArrive blocks d = Ok d'
    /\ numOfBlocksRemaining d' = 4294967296 - len blocks
    /\ trace d'
       = trace d ++ requests (currentFileId d) (currentBlockOffset d + 1)
                      (length blocks)
    /\ completions (trace d') = completions (trace d).
Proof.
  intros Hok Hn Hblocks Hne Hfits Hoff0 Hoff.
  destruct blocks as [|b blocks]; [contradiction|].
  inversion Hblocks as [|b' blocks' Hb Hrest]; subst.
  pose proof (total_length_nonneg _ Hrest) as Hsum.
  pose proof (len_nonneg blocks) as Hlen.
  rewrite len_cons in *.
  cbn [total_length fold_right] in Hfits. fold (total_length blocks) in Hfits.
  destruct (arrival_accepts d b Hok Hb) as
    (d1 & Hstep & Hok1 & _ & Htbr1 & Hn1 & Hfile1 & _ & Hcase); [lia|].
  rewrite Hn in Hn1. change (uint32_t (0 - 1)) with 4294967295 in Hn1.
  destruct Hcase as [(Hzero & _)|(_ & Hoff1 & Htrace1)]; [lia|].
  rewrite uint32_t_small in Hoff1, Htrace1 by lia.
  destruct (blocksArrive_requests blocks d1) as
    (d' & Hrun & _ & Hn' & _ & _ & _ & _ & Htrace'); try assumption; try lia.
  exists d'. cbn [blocksArrive]. rewrite Hstep. run_bind.
  split; [exact Hrun|]. split; [lia|].
  assert (Hlog : trace d'
                 = trace d ++ requests (currentFileId d) (currentBlockOffset d + 1)
                                (length (b :: blocks))).
  { rewrite Htrace', Htrace1, Hfile1, Hoff1. cbn [length].
    rewrite requests_cons, <- app_assoc. reflexivity. }
  split; [exact Hlog|].
  rewrite Hlog, completions_app, completions_requests. lia.
Qed.

Lemma X12_witness :
  exists d',
    blocksArrive [block_of "a" 10; block_of "b" 10] initial = Ok d'
    /\ numOfBlocksRemaining d' = 4294967294
    /\ trace d' = requests 0 1 2
    /\ completions (trace d') = O.
Proof.
  apply (X12_blocks_beyond_the_count_keep_the_session_going
           [block_of "a" 10; block_of "b" 10] initial).
  - exact buffer_ok_initial.
  - reflexivity.
  - repeat constructor; apply block_of_ok; lia.
  - discriminate.
  - vm_compute. reflexivity.
  - cbn [currentBlockOffset initial]. lia.
  - vm_compute. reflexivity.
Defined.

(* ================================================================== *)
(** * The job id of an accepted job                                    *)
(* ================================================================== *)

Lemma set_globalJobId_same d : set_globalJobId (globalJobId d) d = d.
Proof. destruct d; reflexivity. Qed.

(** X13.  A job accepted with an empty id is handed to the job document
    parser but leaves no record: [globalJobId] still starts with a zero, so
    the job accepted next is taken on as well. *)
Theorem X13_empty_job_id_is_not_recorded
  (handleJobDoc : handler) (d : Demo) (rest : list ascii)
  (jobId jobDoc : ptr) (jobDocLength : Z) :
  globalJobId d = NUL :: rest ->
  otaDemo_handleJobsStartNextAccepted handleJobDoc jobId 0 jobDoc jobDocLength d
  = handleJobDoc jobId 0 jobDoc jobDocLength d
  /\ forall handled d1 job tail jobDoc2 jobDocLength2,
       handleJobDoc jobId 0 jobDoc jobDocLength d = Ok (handled, d1) ->
       globalJobId d1 = globalJobId d ->
       nul_free job -> len job <= len (globalJobId d) ->
       otaDemo_handleJobsStartNextAccepted handleJobDoc
         (Some (job ++ tail)) (len job) jobDoc2 jobDocLength2 d1
       = handleJobDoc (Some (job ++ tail)) (len job) jobDoc2 jobDocLength2
           (set_globalJobId (job ++ drop (len job) (globalJobId d1)) d1).
Proof.
  intros Hempty. split.
  - unfold otaDemo_handleJobsStartNextAccepted.
    rewrite Hempty at 1. change (index (NUL :: rest) 0) with (@Ok ascii NUL).
    run_bind. rewrite is_nul_NUL.
    unfold strncpy. change (strncpy_bytes (deref jobId) (Z.to_nat 0))
      with (Some (@nil ascii)).
    cbv iota beta.
    rewrite store_first by apply len_nonneg.
    run_bind. cbn [app].
    change (drop (len (@nil ascii)) (globalJobId d)) with (globalJobId d).
    rewrite set_globalJobId_same. reflexivity.
  - intros handled d1 job tail jobDoc2 jobDocLength2 _ Hkept Hfree Hlen.
    apply first_acceptance_records with (rest := rest).
    + rewrite Hkept. exact Hempty.
    + exact Hfree.
    + rewrite Hkept. exact Hlen.
Qed.

Lemma X13_witness :
  let h := handleJobDoc_with {| imageRef := None; fileId := 7; fileSize := 600 |} in
  otaDemo_handleJobsStartNextAccepted h (Some (lit "x")) 0 (Some (lit "{}")) 2 initial
  = h (Some (lit "x")) 0 (Some (lit "{}")) 2 initial.
Proof.
  intros h.
  apply (X13_empty_job_id_is_not_recorded h initial
           (zeros (OtaDemo.MAX_JOB_ID_LENGTH - 1))).
  cbn [globalJobId initial]. apply zeros_succ. reflexivity.
Defined.

(** X14.  A job id longer than [MAX_JOB_ID_LENGTH] is not cut to size:
    while no job is recorded, [strncpy] is asked to write [jobIdLength]
    bytes into the 64 bytes of [globalJobId], whatever the memory at
    [jobId] holds. *)
Theorem X14_over_long_job_id_overruns_the_record
  (handleJobDoc : handler) (d : Demo) (rest : list ascii)
  (jobId jobDoc : ptr) (jobIdLength jobDocLength : Z) :
  globalJobId d = NUL :: rest ->
  len (globalJobId d) = OtaDemo.MAX_JOB_ID_LENGTH ->
  OtaDemo.MAX_JOB_ID_LENGTH < jobIdLength ->
  otaDemo_handleJobsStartNextAccepted handleJobDoc
    jobId jobIdLength jobDoc jobDocLength d
  = Fault OutOfBounds.
Proof.
  intros Hempty Hcap Hlong.
  unfold otaDemo_handleJobsStartNextAccepted.
  rewrite Hempty at 1. change (index (NUL :: rest) 0) with (@Ok ascii NUL).
  run_bind. rewrite is_nul_NUL.
  unfold strncpy.
  destruct (strncpy_bytes (deref jobId) (Z.to_nat jobIdLength)) as [bytes|] eqn:E;
    [|reflexivity].
  apply strncpy_bytes_length in E.
  rewrite store_fault; [reflexivity|].
  unfold len at 2. rewrite E, Hcap. lia.
Qed.

Lemma X14_witness :
  otaDemo_handleJobsStartNextAccepted
    (handleJobDoc_with {| imageRef := None; fileId := 7; fileSize := 600 |})
    (Some (repeat "j"%char 65 ++ lit "...")) 65 (Some (lit "{}")) 2 initial
  = Fault OutOfBounds.
Proof.
  apply (X14_over_long_job_id_overruns_the_record _ initial
           (zeros (OtaDemo.MAX_JOB_ID_LENGTH - 1))).
  - cbn [globalJobId initial]. apply zeros_succ. reflexivity.
  - cbn [globalJobId initial]. apply len_zeros. discriminate.
  - reflexivity.
Defined.

(* ================================================================== *)
(** * The MQTT wrapper and the two requests                            *)
(* ================================================================== *)

Section WrapperFacts.

Import MqttClient.

Variable MQTTContext_t : Type.
Variable connectStatus : MQTTContext_t -> Z.
Variable MQTTSuccess : Z.
Variable MQTTConnected : Z.
Variable MQTT_GetPacketId : MQTTContext_t -> Z * MQTTContext_t.
Variable MQTT_Connect :
  MQTTContext_t -> MQTTConnectInfo_t.t -> ptr -> Z -> Z * bool * MQTTContext_t.
Variable MQTT_Publish :
  MQTTContext_t -> MQTTPublishInfo_t.t -> Z -> Z * MQTTContext_t.
Variable MQTT_Subscribe :
  MQTTContext_t -> list MQTTSubscribeInfo_t.t -> Z -> Z -> Z * MQTTContext_t.
Variable MQTT_Unsubscribe :
  MQTTContext_t -> list MQTTSubscribeInfo_t.t -> Z -> Z -> Z * MQTTContext_t.

Local Abbreviation W := (Wrapper MQTTContext_t).
Local Abbreviation context w := (globalCoreMqttContext MQTTContext_t w).
Local Abbreviation isConnected :=
  (mqttWrapper_isConnected MQTTContext_t connectStatus MQTTConnected).
Local Abbreviation connect :=
  (mqttWrapper_connect MQTTContext_t MQTTSuccess MQTT_Connect).
Local Abbreviation publish :=
  (mqttWrapper_publish MQTTContext_t connectStatus MQTTSuccess MQTTConnected
     MQTT_GetPacketId MQTT_Publish).
Local Abbreviation subscribe :=
  (mqttWrapper_subscribe MQTTContext_t connectStatus MQTTSuccess MQTTConnected
     MQTT_GetPacketId MQTT_Subscribe).
Local Abbreviation unsubscribe :=
  (mqttWrapper_unsubscribe MQTTContext_t connectStatus MQTTSuccess MQTTConnected
     MQTT_GetPacketId MQTT_Unsubscribe).
Local Abbreviation startNextPendingJob :=
  (CoreJobsRequests.coreJobs_startNextPendingJob W publish).
Local Abbreviation updateJobStatus :=
  (CoreJobsRequests.coreJobs_updateJobStatus W publish).

Local Abbreviation published_as :=
  (published_as MQTTSuccess MQTT_GetPacketId MQTT_Publish).

Lemma publish_connected topic topicLength message messageLength w c :
  context w = Some c -> connectStatus c = MQTTConnected ->
  publish topic topicLength message messageLength w
  = Ok (published_as topic topicLength message messageLength c w).
Proof.
  intros Hc Hup.
  unfold mqttWrapper_publish, mqttWrapper_isConnected, context_is_set,
    context_of, pointee, published_as.
  rewrite Hc. cbn [assert bind]. rewrite Hup, Z.eqb_refl.
  destruct (MQTT_GetPacketId c) as [packetId c1]. cbn [fst snd].
  destruct (MQTT_Publish c1 _ packetId) as [mqttStatus c2]. reflexivity.
Qed.

Lemma publish_not_connected topic topicLength message messageLength w c :
  context w = Some c -> connectStatus c <> MQTTConnected ->
  publish topic topicLength message messageLength w = Ok (false, w).
Proof.
  intros Hc Hdown.
  unfold mqttWrapper_publish, mqttWrapper_isConnected, context_is_set,
    context_of, pointee.
  rewrite Hc. cbn [assert bind].
  apply Z.eqb_neq in Hdown. rewrite Hdown. reflexivity.
Qed.

Lemma publish_without_context topic topicLength message messageLength w :
  context w = None ->
  publish topic topicLength message messageLength w = Fault AssertionFailed.
Proof.
  intros Hc. unfold mqttWrapper_publish, context_is_set. rewrite Hc. reflexivity.
Qed.

(** X15.  Before a context is set every operation of the wrapper fails its
    assertion ([mqttWrapper_unsubscribe] through [mqttWrapper_isConnected]).
    With a context that is not connected, publish, subscribe and
    unsubscribe return false and leave the context alone: coreMQTT is not
    called and no packet id is used up. *)
Theorem X15_wrapper_does_nothing_unless_connected
  (topic : ptr) (topicLength : Z) (message : ptr) (messageLength : Z) (w : W) :
  (context w = None ->
   isConnected w = Fault AssertionFailed
   /\ connect w = Fault AssertionFailed
   /\ mqttWrapper_getCoreMqttContext MQTTContext_t w = Fault AssertionFailed
   /\ publish topic topicLength message messageLength w = Fault AssertionFailed
   /\ subscribe topic topicLength w = Fault AssertionFailed
   /\ unsubscribe topic topicLength w = Fault AssertionFailed)
  /\ (forall c,
        context w = Some c -> connectStatus c <> MQTTConnected ->
        isConnected w = Ok false
        /\ publish topic topicLength message messageLength w = Ok (false, w)
        /\ subscribe topic topicLength w = Ok (false, w)
        /\ unsubscribe topic topicLength w = Ok (false, w)).
Proof.
  split.
  - intros Hc.
    unfold mqttWrapper_isConnected, mqttWrapper_connect,
      mqttWrapper_getCoreMqttContext, mqttWrapper_publish,
      mqttWrapper_subscribe, mqttWrapper_unsubscribe,
      mqttWrapper_isConnected, context_is_set.
    rewrite Hc. repeat split; reflexivity.
  - intros c Hc Hdown. apply Z.eqb_neq in Hdown.
    unfold mqttWrapper_publish, mqttWrapper_subscribe, mqttWrapper_unsubscribe,
      mqttWrapper_isConnected, context_is_set, context_of, pointee.
    rewrite Hc. cbn [assert bind]. rewrite Hdown. repeat split; reflexivity.
Qed.

(** ** The start-next request *)

Lemma readable_split p n :
  readable p n -> is_null p = false -> 0 <= n ->
  exists s tail, p = Some (s ++ tail) /\ len s = n.
Proof.
  intros [Hnull|Hlen] Hp Hn; [congruence|].
  destruct p as [m|]; [|discriminate]. cbn [deref] in Hlen.
  exists (take n m), (drop n m). split.
  - rewrite take_drop. reflexivity.
  - apply len_take. lia.
Qed.

Lemma len_startNextTopic name : len (startNextTopic name) = 28 + len name.
Proof. unfold startNextTopic. len_solve. Qed.

Lemma len_startNextMessage token : len (startNextMessage token) = 18 + len token.
Proof. unfold startNextMessage. len_solve. Qed.

Lemma len_updateTopic name job : len (updateTopic name job) = 25 + len name + len job.
Proof. unfold updateTopic. len_solve. Qed.

Lemma len_updateMessage text version :
  len (updateMessage text version) = 34 + len version + len text.
Proof. unfold updateMessage. len_solve. Qed.

Lemma start_next_topic_built name tail :
  0 < len name <= 228 ->
  getStartNextPendingJobExecutionTopic (Some (name ++ tail)) (len name)
    (zeros (TOPIC_BUFFER_SIZE + 1)) TOPIC_BUFFER_SIZE
  = Ok (len (startNextTopic name),
        filled (TOPIC_BUFFER_SIZE + 1) (startNextTopic name)).
Proof.
  intros Hname. unfold TOPIC_BUFFER_SIZE.
  pose proof (getStartNextPendingJobExecutionTopic_ok name tail
                (zeros (256 + 1)) 256) as H.
  cbv zeta in H. fold (startNextTopic name) in H.
  rewrite H; try lia.
  - unfold filled. rewrite drop_zeros; [reflexivity|].
    rewrite len_startNextTopic. lia.
  - rewrite len_zeros; lia.
  - unfold SIZE_MAX. lia.
Qed.

Lemma start_next_message_built token tail :
  0 < len token <= 129 ->
  getStartNextPendingJobExecutionMsg (Some (token ++ tail)) (len token)
    (zeros START_JOB_MSG_LENGTH) START_JOB_MSG_LENGTH
  = Ok (len (startNextMessage token),
        filled START_JOB_MSG_LENGTH (startNextMessage token)).
Proof.
  intros Htoken. unfold START_JOB_MSG_LENGTH.
  pose proof (getStartNextPendingJobExecutionMsg_ok token tail (zeros 147) 147)
    as H.
  cbv zeta in H. fold (startNextMessage token) in H.
  rewrite H; try lia.
  - unfold filled. rewrite drop_zeros; [reflexivity|].
    rewrite len_startNextMessage. lia.
  - rewrite len_zeros; lia.
  - unfold SIZE_MAX. lia.
Qed.

Lemma start_next_topic_total thingname thingnameLength :
  0 <= thingnameLength <= SIZE_MAX - 28 -> readable thingname thingnameLength ->
  exists topicLength topicBuffer,
    getStartNextPendingJobExecutionTopic thingname thingnameLength
      (zeros (TOPIC_BUFFER_SIZE + 1)) TOPIC_BUFFER_SIZE
    = Ok (topicLength, topicBuffer)
    /\ (is_null thingname = true \/ thingnameLength = 0 \/ 228 < thingnameLength ->
        topicLength = 0).
Proof.
  intros Hn Hread.
  destruct (is_null thingname) eqn:Hnull;
    [|destruct (Z.eq_dec thingnameLength 0) as [Hz|Hz];
      [|destruct (Z_lt_dec 228 thingnameLength) as [Hl|Hl]]].
  1-3: exists 0; eexists; split; [|reflexivity];
       apply getStartNextPendingJobExecutionTopic_rejects;
       unfold TOPIC_BUFFER_SIZE; rewrite ?Hnull; (lia || auto).
  destruct (readable_split _ _ Hread Hnull) as (s & tail & -> & Hs); [lia|].
  rewrite <- Hs in *.
  rewrite start_next_topic_built by lia.
  eexists; eexists; split; [reflexivity|].
  intros [H|[H|H]]; [discriminate|lia|lia].
Qed.

Lemma start_next_message_total clientToken clientTokenLength :
  0 <= clientTokenLength <= SIZE_MAX - 18 -> readable clientToken clientTokenLength ->
  exists messageLength messageBuffer,
    getStartNextPendingJobExecutionMsg clientToken clientTokenLength
      (zeros START_JOB_MSG_LENGTH) START_JOB_MSG_LENGTH
    = Ok (messageLength, messageBuffer)
    /\ (is_null clientToken = true \/ clientTokenLength = 0
        \/ 129 < clientTokenLength ->
        messageLength = 0).
Proof.
  intros Hn Hread.
  destruct (is_null clientToken) eqn:Hnull;
    [|destruct (Z.eq_dec clientTokenLength 0) as [Hz|Hz];
      [|destruct (Z_lt_dec 129 clientTokenLength) as [Hl|Hl]]].
  1-3: exists 0; eexists; split; [|reflexivity];
       apply getStartNextPendingJobExecutionMsg_rejects;
       unfold START_JOB_MSG_LENGTH; rewrite ?Hnull; (lia || auto).
  destruct (readable_split _ _ Hread Hnull) as (s & tail & -> & Hs); [lia|].
  rewrite <- Hs in *.
  rewrite start_next_message_built by lia.
  eexists; eexists; split; [reflexivity|].
  intros [H|[H|H]]; [discriminate|lia|lia].
Qed.

(** X16.  The start-next request of a connected device: one QoS 0 publish,
    with a fresh packet id, of the body [{"clientToken":"<token>"}] on the
    topic [$aws/things/<name>/jobs/start-next]; the lengths passed are
    those of the topic and the body, without a terminator.  The call
    returns whether coreMQTT reported success. *)
Theorem X16_start_next_request_is_published
  (name tail token tail' : list ascii) (w : W) (c : MQTTContext_t) :
  0 < len name <= 228 -> 0 < len token <= 129 ->
  context w = Some c -> connectStatus c = MQTTConnected ->
  startNextPendingJob (Some (name ++ tail)) (len name)
    (Some (token ++ tail')) (len token) w
  = Ok (published_as
          (Some (filled (TOPIC_BUFFER_SIZE + 1) (startNextTopic name)))
          (28 + len name)
          (Some (filled START_JOB_MSG_LENGTH (startNextMessage token)))
          (18 + len token) c w).
Proof.
  intros Hname Htoken Hc Hup.
  unfold CoreJobsRequests.coreJobs_startNextPendingJob. cbv zeta.
  rewrite start_next_topic_built, start_next_message_built by assumption.
  run_bind. rewrite len_startNextTopic, len_startNextMessage.
  rewrite !gtb_true by lia. cbn [andb].
  apply publish_connected; assumption.
Qed.

(** X17.  A start-next request with a missing or empty thing name or
    client token, a thing name of more than 228 bytes or a token of more
    than 129 returns false without reaching the wrapper: nothing is
    published and no assertion is evaluated, whether or not a context is
    set. *)
Theorem X17_start_next_request_with_bad_input_is_dropped
  (thingname : ptr) (thingnameLength : Z)
  (clientToken : ptr) (clientTokenLength : Z) (w : W) :
  0 <= thingnameLength <= SIZE_MAX - 28 ->
  0 <= clientTokenLength <= SIZE_MAX - 18 ->
  readable thingname thingnameLength -> readable clientToken clientTokenLength ->
  (is_null thingname = true \/ thingnameLength = 0 \/ 228 < thingnameLength)
  \/ (is_null clientToken = true \/ clientTokenLength = 0
      \/ 129 < clientTokenLength) ->
  startNextPendingJob thingname thingnameLength clientToken clientTokenLength w
  = Ok (false, w).
Proof.
  intros Hn Ht Hrn Hrt Hbad.
  destruct (start_next_topic_total _ _ Hn Hrn) as (tl & tb & Htopic & Htl).
  destruct (start_next_message_total _ _ Ht Hrt) as (ml & mb & Hmsg & Hml).
  unfold CoreJobsRequests.coreJobs_startNextPendingJob. cbv zeta.
  rewrite Htopic. run_bind. rewrite Hmsg. run_bind.
  destruct Hbad as [Hbad|Hbad].
  - rewrite (Htl Hbad). reflexivity.
  - rewrite (Hml Hbad). rewrite andb_false_r. reflexivity.
Qed.

(** ** The status update *)

Lemma update_topic_built name tail job tail' :
  0 < len name -> 0 < len job -> len name + len job <= 231 ->
  getUpdateJobExecutionTopic (Some (name ++ tail)) (len name)
    (Some (job ++ tail')) (len job)
    (zeros (TOPIC_BUFFER_SIZE + 1)) TOPIC_BUFFER_SIZE
  = Ok (len (updateTopic name job),
        filled (TOPIC_BUFFER_SIZE + 1) (updateTopic name job)).
Proof.
  intros Hname Hjob Hfit. unfold TOPIC_BUFFER_SIZE.
  pose proof (getUpdateJobExecutionTopic_ok name tail job tail'
                (zeros (256 + 1)) 256) as H.
  cbv zeta in H. fold (updateTopic name job) in H.
  rewrite H; try lia.
  - unfold filled. rewrite drop_zeros; [reflexivity|].
    rewrite len_updateTopic. lia.
  - rewrite len_zeros; lia.
  - unfold SIZE_MAX. lia.
Qed.

(** X18.  A status update of a connected device is published on
    [$aws/things/<name>/jobs/<job>/update] with the body
    [{"status":"<STATUS>","expectedVersion":"<version>"}] as long as the
    status word and the version have at most 14 characters together, the
    48 bytes of the message buffer.  Beyond that the call returns false
    and nothing is published: with IN_PROGRESS the version may have three
    characters, with SUCCEEDED five. *)
Theorem X18_status_update_is_published_if_it_fits_48_bytes
  (name tail job tail' version tail'' text : list ascii) (status : JobStatus_t)
  (w : W) (c : MQTTContext_t) :
  0 < len name -> 0 < len job -> len name + len job <= 231 ->
  In (status, text) STATUS_STRING ->
  0 < len version <= SIZE_MAX - 45 ->
  context w = Some c -> connectStatus c = MQTTConnected ->
  let call :=
    updateJobStatus (Some (name ++ tail)) (len name) (Some (job ++ tail'))
      (len job) status (Some (version ++ tail'')) (len version) w in
  (len text + len version <= 14 ->
   call
   = Ok (published_as
           (Some (filled (TOPIC_BUFFER_SIZE + 1) (updateTopic name job)))
           (25 + len name + len job)
           (Some (filled UPDATE_JOB_MSG_LENGTH (updateMessage text version)))
           (34 + len version + len text) c w))
  /\ (14 < len text + len version -> call = Ok (false, w)).
Proof.
  intros Hname Hjob Hfit Hstatus Hversion Hc Hup call. subst call.
  destruct (status_tables _ _ Hstatus) as (_ & _ & Htext).
  unfold CoreJobsRequests.coreJobs_updateJobStatus. cbv zeta.
  rewrite update_topic_built by assumption. run_bind.
  rewrite len_updateTopic.
  split; intros Hsize.
  - unfold UPDATE_JOB_MSG_LENGTH.
    rewrite (getUpdateJobExecutionMsg_ok status text version tail'' (zeros 48) 48);
      try assumption; try lia;
      [|rewrite len_zeros; lia|unfold SIZE_MAX; lia].
    run_bind.
    rewrite drop_zeros by (rewrite len_updateMessage; lia).
    fold (filled 48 (updateMessage text version)).
    rewrite len_updateMessage.
    rewrite !gtb_true by lia. cbn [andb].
    apply publish_connected; assumption.
  - unfold UPDATE_JOB_MSG_LENGTH.
    rewrite (getUpdateJobExecutionMsg_rejects status text
               (Some (version ++ tail'')) (len version) (zeros 48) 48 Hstatus)
      by (unfold SIZE_MAX in *; lia).
    run_bind. rewrite andb_false_r. reflexivity.
Qed.

(** ** Connecting *)

(** X19.  [mqttWrapper_connect] identifies the device by the stored thing
    name: the client identifier is [globalThingName] with the length of
    the name, no user name and no password, a keep-alive of 60 seconds, a
    clean session and a timeout of 5000 ms.  When no name has been stored
    it does not fail as [mqttWrapper_getThingName] does: it connects with
    an empty client identifier. *)
Theorem X19_connect_identifies_the_device_by_the_stored_name
  (w : W) (c : MQTTContext_t) (name rest : list ascii) :
  context w = Some c -> nul_free name ->
  globalThingName MQTTContext_t w = name ++ NUL :: rest ->
  let info := {|
    MQTTConnectInfo_t.pClientIdentifier := Some (globalThingName MQTTContext_t w);
    MQTTConnectInfo_t.clientIdentifierLength := len name;
    MQTTConnectInfo_t.pUserName := None;
    MQTTConnectInfo_t.userNameLength := 0;
    MQTTConnectInfo_t.pPassword := None;
    MQTTConnectInfo_t.passwordLength := 0;
    MQTTConnectInfo_t.keepAliveSeconds := 60;
    MQTTConnectInfo_t.cleanSession := true
  |} in
  let answer := MQTT_Connect c info None 5000 in
  connect w
  = Ok (fst (fst answer) =? MQTTSuccess,
        with_context MQTTContext_t (snd answer) w).
Proof.
  intros Hc Hfree Hname info answer. subst answer info.
  unfold mqttWrapper_connect, context_is_set, context_of, pointee.
  rewrite Hc. cbn [assert bind].
  rewrite Hname at 1. rewrite strlen_terminated by assumption. run_bind.
  destruct (MQTT_Connect c _ None 5000) as [[mqttStatus sessionPresent] c'].
  reflexivity.
Qed.

End WrapperFacts.

Lemma X15_witness :
  MqttClient.mqttWrapper_publish (Z * Z) fst 0 1 loop_GetPacketId loop_Publish
    (Some (lit "Hello")) 5 (Some (lit "hello world")) 11 (loop_wrapper 0)
  = Ok (false, loop_wrapper 0).
Proof.
  destruct (X15_wrapper_does_nothing_unless_connected (Z * Z) fst 0 1
              loop_GetPacketId loop_Connect loop_Publish loop_Subscribe
              loop_Subscribe (Some (lit "Hello")) 5 (Some (lit "hello world")) 11
              (loop_wrapper 0)) as [_ Hdown].
  destruct (Hdown (0, 0)) as (_ & Hpublish & _).
  - reflexivity.
  - discriminate.
  - exact Hpublish.
Defined.

Lemma X16_witness :
  CoreJobsRequests.coreJobs_startNextPendingJob _
    (MqttClient.mqttWrapper_publish (Z * Z) fst 0 1 loop_GetPacketId loop_Publish)
    (Some (literal (lit "thingname"))) 9 (Some (literal (lit "token"))) 5
    (loop_wrapper 1)
  = Ok (published_as 0 loop_GetPacketId loop_Publish
          (Some (filled 257 (startNextTopic (lit "thingname")))) 37
          (Some (filled 147 (startNextMessage (lit "token")))) 23
          (1, 0) (loop_wrapper 1)).
Proof.
  apply (X16_start_next_request_is_published (Z * Z) fst 0 1 loop_GetPacketId
           loop_Publish (lit "thingname") [NUL] (lit "token") [NUL]
           (loop_wrapper 1) (1, 0)).
  - vm_compute. split; [reflexivity|discriminate].
  - vm_compute. split; [reflexivity|discriminate].
  - reflexivity.
  - reflexivity.
Defined.

Lemma X17_witness :
  CoreJobsRequests.coreJobs_startNextPendingJob _
    (MqttClient.mqttWrapper_publish (Z * Z) fst 0 1 loop_GetPacketId loop_Publish)
    (Some (literal (lit "thingname"))) 9 None 5
    (MqttClient.Wrapper_initial (Z * Z))
  = Ok (false, MqttClient.Wrapper_initial (Z * Z)).
Proof.
  apply (X17_start_next_request_with_bad_input_is_dropped (Z * Z) fst 0 1
           loop_GetPacketId loop_Publish).
  - vm_compute. split; discriminate.
  - vm_compute. split; discriminate.
  - right. vm_compute. discriminate.
  - left. reflexivity.
  - right. left. reflexivity.
Defined.

Lemma X18_witness :
  let call version :=
    CoreJobsRequests.coreJobs_updateJobStatus _
      (MqttClient.mqttWrapper_publish (Z * Z) fst 0 1 loop_GetPacketId loop_Publish)
      (Some (literal (lit "thingname"))) 9 (Some (literal (lit "job-id"))) 6
      InProgress (Some (literal version)) (len version) (loop_wrapper 1) in
  call (lit "1.0")
  = Ok (published_as 0 loop_GetPacketId loop_Publish
          (Some (filled 257 (updateTopic (lit "thingname") (lit "job-id")))) 40
          (Some (filled 48 (updateMessage (lit "IN_PROGRESS") (lit "1.0")))) 48
          (1, 0) (loop_wrapper 1))
  /\ call (lit "1.0.1") = Ok (false, loop_wrapper 1).
Proof.
  intros call. subst call. cbv beta. split.
  - destruct (X18_status_update_is_published_if_it_fits_48_bytes (Z * Z) fst 0 1
                loop_GetPacketId loop_Publish (lit "thingname") [NUL]
                (lit "job-id") [NUL] (lit "1.0") [NUL] (lit "IN_PROGRESS")
                InProgress (loop_wrapper 1) (1, 0)) as [Hfits _].
    + reflexivity.
    + reflexivity.
    + vm_compute. discriminate.
    + right. left. reflexivity.
    + vm_compute. split; [reflexivity|discriminate].
    + reflexivity.
    + reflexivity.
    + apply Hfits. vm_compute. discriminate.
  - destruct (X18_status_update_is_published_if_it_fits_48_bytes (Z * Z) fst 0 1
                loop_GetPacketId loop_Publish (lit "thingname") [NUL]
                (lit "job-id") [NUL] (lit "1.0.1") [NUL] (lit "IN_PROGRESS")
                InProgress (loop_wrapper 1) (1, 0)) as [_ Hlong].
    + reflexivity.
    + reflexivity.
    + vm_compute. discriminate.
    + right. left. reflexivity.
    + vm_compute. split; [reflexivity|discriminate].
    + reflexivity.
    + reflexivity.
    + apply Hlong. vm_compute. reflexivity.
Defined.

Lemma X19_witness :
  MqttClient.mqttWrapper_connect (Z * Z) 0 loop_Connect (loop_wrapper 0)
  = Ok (true, loop_wrapper 1)
  /\ MqttClient.mqttWrapper_connect (Z * Z) 0 loop_Connect
       {| MqttClient.globalCoreMqttContext := Some (0, 0);
          MqttClient.globalThingName := globalThingName_initial |}
     = Ok (true,
           {| MqttClient.globalCoreMqttContext := Some (1, 0);
              MqttClient.globalThingName := globalThingName_initial |}).
Proof.
  split.
  - apply (X19_connect_identifies_the_device_by_the_stored_name (Z * Z) 0
             loop_Connect (loop_wrapper 0) (0, 0) (lit "thingname")
             (repeat NUL 119)).
    + reflexivity.
    + nul_free_lit.
    + reflexivity.
  - apply (X19_connect_identifies_the_device_by_the_stored_name (Z * Z) 0
             loop_Connect
             {| MqttClient.globalCoreMqttContext := Some (0, 0);
                MqttClient.globalThingName := globalThingName_initial |}
             (0, 0) [] (zeros MqttWrapper.MAX_THING_NAME_SIZE)).
    + reflexivity.
    + constructor.
    + cbn [MqttClient.globalThingName app]. unfold globalThingName_initial.
      apply zeros_succ. reflexivity.
Defined.

(* ================================================================== *)
(** * main.c: incoming messages and the clock                          *)
(* ================================================================== *)

Lemma take_cons_succ (y : ascii) m k :
  0 <= k -> take (k + 1) (y :: m) = y :: take k m.
Proof.
  intros H. unfold take.
  replace (Z.to_nat (k + 1)) with (S (Z.to_nat k)) by lia. reflexivity.
Qed.

(** Comparing a literal with the memory at a pointer: the result is zero
    exactly when the memory starts with the literal and its terminator. *)
Lemma strcmp_literal s :
  nul_free s ->
  forall m,
    len s < len m ->
    exists r,
      strcmp (s ++ [NUL]) m = Ok r
      /\ (r = 0 <-> take (len s + 1) m = s ++ [NUL]).
Proof.
  unfold strcmp.
  induction 1 as [|c s Hc Hs IH]; intros m Hm.
  - destruct m as [|y m]; [unfold len in Hm; simpl in Hm; lia|].
    cbn [app strcmp_nat].
    change (take (len (@nil ascii) + 1) (y :: m)) with [y].
    destruct (Ascii.eqb_spec NUL y) as [<-|Hy].
    + rewrite is_nul_NUL. exists 0. split; [reflexivity|]. split; reflexivity.
    + eexists. split; [reflexivity|]. split.
      * intros Hr. exfalso. apply Hy. apply uchar_inj. lia.
      * intros [= ->]. contradiction.
  - destruct m as [|y m]; [unfold len in Hm; simpl in Hm; lia|].
    rewrite !len_cons in Hm.
    cbn [app strcmp_nat].
    rewrite len_cons.
    replace (1 + len s + 1) with ((len s + 1) + 1) by lia.
    rewrite take_cons_succ by (pose proof (len_nonneg s); lia).
    destruct (Ascii.eqb_spec c y) as [<-|Hy].
    + apply is_nul_false in Hc. rewrite Hc.
      destruct (IH m) as (r & Hr & Hiff); [lia|].
      destruct (strcmp_nat (s ++ [NUL]) m) as [r'|]; [|discriminate].
      injection Hr as ->.
      exists r. split; [reflexivity|].
      rewrite Hiff. split; [intros ->; reflexivity|intros [= ->]; reflexivity].
    + eexists. split; [reflexivity|]. split.
      * intros Hr. exfalso. apply Hy. apply uchar_inj. lia.
      * intros [= ->]. contradiction.
Qed.

Section MainFacts.

Import Main.

Variable handleJobDoc : handler.
Variable coreJobsMQTTAPI_handleIncomingMQTTMessage : handler -> handler.
Variable mqttStreams_handleIncomingMessage : handler.

Local Abbreviation handleIncoming :=
  (handleIncomingMQTTMessage handleJobDoc
     coreJobsMQTTAPI_handleIncomingMQTTMessage mqttStreams_handleIncomingMessage).

Lemma strcmp_hello rest :
  strcmp (literal (lit "Hello")) (lit "Hello" ++ NUL :: rest) = Ok 0.
Proof. reflexivity. Qed.

Lemma strcmp_not_hello mem :
  6 <= len mem -> take 6 mem <> literal (lit "Hello") ->
  exists r, strcmp (literal (lit "Hello")) mem = Ok r /\ r <> 0.
Proof.
  intros Hlen Hne.
  destruct (strcmp_literal (lit "Hello") ltac:(nul_free_lit) mem)
    as (r & Hr & Hiff).
  - change (len (lit "Hello")) with 5. lia.
  - exists r. split; [exact Hr|]. intros Hz. apply Hne. apply Hiff. exact Hz.
Qed.

(** X20.  A message is taken for a Hello message when the memory at
    [topic] holds "Hello" followed by a zero; [topicLength] is not looked
    at.  The payload is then printed as a string, up to its first zero,
    whatever [messageLength] says, and the OTA demo is not consulted; a
    payload that is not followed by a zero is read past its end. *)
Theorem X20_hello_is_recognised_by_the_bytes_at_topic
  (topicLength messageLength : Z) (m : State) (rest text tail : list ascii) :
  nul_free text ->
  let topic := Some (lit "Hello" ++ NUL :: rest) in
  handleIncoming topic topicLength (Some (text ++ NUL :: tail)) messageLength m
  = Ok (print (printf_hello text) m)
  /\ handleIncoming topic topicLength (Some text) messageLength m
     = Fault OutOfBounds.
Proof.
  intros Hfree topic. subst topic.
  unfold handleIncomingMQTTMessage. cbn [deref].
  rewrite strcmp_hello. run_bind. cbn [Z.eqb].
  rewrite string_at_terminated, string_at_unterminated by assumption.
  split; reflexivity.
Qed.

(** X21.  Any other topic, among them "Hello" not followed by a zero, goes
    to the OTA demo.  What the demo handles is not mentioned by main.c; a
    message that neither the jobs dispatch nor the block dispatch takes is
    logged twice, by the demo and by main.c. *)
Theorem X21_other_topics_go_to_the_demo
  (mem : list ascii) (topicLength : Z) (message : ptr) (messageLength : Z)
  (m : State) :
  6 <= len mem -> take 6 mem <> literal (lit "Hello") ->
  let topic := Some mem in
  (forall d,
     otaDemo_handleIncomingMQTTMessage handleJobDoc
       coreJobsMQTTAPI_handleIncomingMQTTMessage mqttStreams_handleIncomingMessage
       topic topicLength message messageLength (demo m)
     = Ok (true, d) ->
     handleIncoming topic topicLength message messageLength m
     = Ok (set_demo d m))
  /\ (forall d1 d2,
        coreJobsMQTTAPI_handleIncomingMQTTMessage
          (otaDemo_handleJobsStartNextAccepted handleJobDoc)
          topic topicLength message messageLength (demo m)
        = Ok (false, d1) ->
        mqttStreams_handleIncomingMessage topic topicLength message messageLength d1
        = Ok (false, d2) ->
        handleIncoming topic topicLength message messageLength m
        = Ok {| demo := emit (printf_unrecognized topic topicLength message
                                messageLength) d2;
                console := console m
                           ++ [printf_unhandled topic topicLength message
                                 messageLength] |}).
Proof.
  intros Hlen Hne topic. subst topic.
  destruct (strcmp_not_hello mem Hlen Hne) as (r & Hr & Hnz).
  apply Z.eqb_neq in Hnz.
  unfold handleIncomingMQTTMessage. cbn [deref].
  rewrite Hr. run_bind. rewrite Hnz.
  split.
  - intros d Hrouted. rewrite Hrouted. reflexivity.
  - intros d1 d2 Hjobs Hstreams.
    unfold otaDemo_handleIncomingMQTTMessage.
    rewrite Hjobs. run_bind. rewrite Hstreams. reflexivity.
Qed.

End MainFacts.

Lemma X20_witness :
  Main.handleIncomingMQTTMessage
    (handleJobDoc_with {| imageRef := None; fileId := 7; fileSize := 600 |})
    jobs_dispatch_declines streams_dispatch_declines
    (Some (literal (lit "Hello"))) 6 (Some (literal (lit "hello world"))) 12
    main_initial
  = Ok (Main.print (Main.printf_hello (lit "hello world")) main_initial).
Proof.
  apply (X20_hello_is_recognised_by_the_bytes_at_topic
           (handleJobDoc_with {| imageRef := None; fileId := 7; fileSize := 600 |})
           jobs_dispatch_declines streams_dispatch_declines
           6 12 main_initial [] (lit "hello world") []).
  nul_free_lit.
Defined.

Lemma X21_witness :
  let topic := Some (lit "Hello world") in
  let message := Some (lit "hello") in
  Main.handleIncomingMQTTMessage
    (handleJobDoc_with {| imageRef := None; fileId := 7; fileSize := 600 |})
    jobs_dispatch_declines streams_dispatch_declines
    topic 5 message 5 main_initial
  = Ok {| Main.demo := emit (printf_unrecognized topic 5 message 5) initial;
          Main.console := [Main.printf_unhandled topic 5 message 5] |}.
Proof.
  intros topic message.
  destruct (X21_other_topics_go_to_the_demo
              (handleJobDoc_with {| imageRef := None; fileId := 7; fileSize := 600 |})
              jobs_dispatch_declines streams_dispatch_declines
              (lit "Hello world") 5 message 5 main_initial) as [_ Hboth].
  - vm_compute. discriminate.
  - vm_compute. discriminate.
  - apply (Hboth initial initial); reflexivity.
Defined.

(** X22.  The clock of the MQTT library.  [getTimeMs] is the tick count in
    milliseconds as long as a thousand times the count fits 32 bits.  The
    product is cut to 32 bits before the division, so the clock never
    passes [4294967295 / configTICK_RATE_HZ] and repeats every 536870912
    ticks. *)
Theorem X22_the_clock_wraps_with_the_product
  (configTICK_RATE_HZ xTaskGetTickCount : Z) :
  0 < configTICK_RATE_HZ -> 0 <= xTaskGetTickCount ->
  (xTaskGetTickCount * 1000 < 4294967296 ->
   Main.getTimeMs configTICK_RATE_HZ xTaskGetTickCount
   = xTaskGetTickCount * 1000 / configTICK_RATE_HZ)
  /\ 0 <= Main.getTimeMs configTICK_RATE_HZ xTaskGetTickCount
     <= 4294967295 / configTICK_RATE_HZ
  /\ Main.getTimeMs configTICK_RATE_HZ (xTaskGetTickCount + 536870912)
     = Main.getTimeMs configTICK_RATE_HZ xTaskGetTickCount.
Proof.
  intros Hrate Hticks. unfold Main.getTimeMs.
  assert (Hquot : forall p, 0 <= p < 4294967296 ->
            0 <= p / configTICK_RATE_HZ <= 4294967295 / configTICK_RATE_HZ
            /\ p / configTICK_RATE_HZ < 4294967296).
  { intros p Hp.
    assert (0 <= p / configTICK_RATE_HZ) by (apply Z.div_pos; lia).
    assert (p / configTICK_RATE_HZ <= 4294967295 / configTICK_RATE_HZ)
      by (apply Z.div_le_mono; lia).
    assert (4294967295 / configTICK_RATE_HZ <= 4294967295)
      by (apply Z.div_le_upper_bound; nia).
    lia. }
  split; [|split].
  - intros Hsmall.
    rewrite (uint32_t_small xTaskGetTickCount) by lia.
    rewrite (uint32_t_small (xTaskGetTickCount * 1000)) by lia.
    apply uint32_t_small.
    destruct (Hquot (xTaskGetTickCount * 1000)); lia.
  - set (p := uint32_t (uint32_t xTaskGetTickCount * 1000)).
    assert (Hp : 0 <= p < 4294967296)
      by (unfold p, uint32_t; apply Z.mod_pos_bound; lia).
    destruct (Hquot p Hp) as [Hq Hlt].
    rewrite uint32_t_small by lia. exact Hq.
  - f_equal. f_equal. unfold uint32_t.
    rewrite !Z.mul_mod_idemp_l by lia.
    replace ((xTaskGetTickCount + 536870912) * 1000)
      with (xTaskGetTickCount * 1000 + 125 * 4294967296) by lia.
    apply Z.mod_add. lia.
Qed.

Lemma X22_witness :
  Main.getTimeMs 1000 4294967 = 4294967
  /\ Main.getTimeMs 1000 4294968 = 0.
Proof.
  destruct (X22_the_clock_wraps_with_the_product 1000 4294967)
    as (Hexact & _ & _); [lia|lia|].
  split; [apply Hexact; lia|reflexivity].
Defined.

(* ================================================================== *)
(** * Builders and matchers agree                                      *)
(* ================================================================== *)

(** X23.  Round trip.  The topic [getUpdateJobExecutionTopic] builds for
    the stored thing name and a job, extended by ["/accepted"] or
    ["/rejected"] as the service does in its answer, is the topic that
    [coreJobs_isJobUpdateStatus] accepts for that job and status (job ids
    of at most 42 characters). *)
Theorem X23_answer_to_an_update_is_recognised
  (g name job tail word : list ascii) (status : JobUpdateStatus_t) :
  stored_name g name -> nul_free job -> 0 < len job <= 42 ->
  In (status, word) UPDATE_STATUS_STRING ->
  exists topicLength topicBuffer,
    getUpdateJobExecutionTopic (Some (literal name)) (len name)
      (Some (job ++ tail)) (len job)
      (zeros (TOPIC_BUFFER_SIZE + 1)) TOPIC_BUFFER_SIZE
    = Ok (topicLength, topicBuffer)
    /\ let answer := take topicLength topicBuffer ++ lit "/" ++ word in
       coreJobs_isJobUpdateStatus g (Some answer) (len answer)
         (Some (job ++ tail)) (len job) status
       = Ok true.
Proof.
  intros Hstored Hfree Hjob Hstatus.
  assert (Hname := Hstored). destruct Hname as (_ & Hname & _).
  unfold MqttWrapper.MAX_THING_NAME_SIZE in Hname.
  destruct (update_status_tables _ _ Hstatus) as (_ & _ & Hword & _).
  unfold literal.
  pose proof (getUpdateJobExecutionTopic_ok name [NUL] job tail
                (zeros (TOPIC_BUFFER_SIZE + 1)) TOPIC_BUFFER_SIZE) as Hbuilt.
  cbv zeta in Hbuilt.
  rewrite Hbuilt;
    [|lia|lia|unfold TOPIC_BUFFER_SIZE; lia
     |unfold TOPIC_BUFFER_SIZE; rewrite len_zeros; lia
     |unfold TOPIC_BUFFER_SIZE, SIZE_MAX; lia].
  eexists. eexists. split; [reflexivity|].
  rewrite take_app_len. cbv zeta.
  set (answer := (lit "$aws/things/" ++ name ++ lit "/jobs/" ++ job
                  ++ lit "/update") ++ lit "/" ++ word).
  destruct (isJobUpdateStatus_exact_when_suffix_fits g name answer job tail word
              (len answer) status Hstored Hfree) as [b [Hb Hiff]];
    [lia|exact Hstatus| |].
  - unfold answer. rewrite !len_app. pose proof (len_nonneg name).
    pose proof (len_nonneg word). lit_len. lia.
  - rewrite Hb. f_equal. apply Hiff.
    rewrite take_len. unfold answer. rewrite <- !app_assoc. reflexivity.
Qed.

Lemma X23_witness :
  exists topicLength topicBuffer,
    getUpdateJobExecutionTopic (Some (literal (lit "thingname"))) 9
      (Some (literal (lit "job-id"))) 6
      (zeros (TOPIC_BUFFER_SIZE + 1)) TOPIC_BUFFER_SIZE
    = Ok (topicLength, topicBuffer)
    /\ let answer := take topicLength topicBuffer ++ lit "/" ++ lit "rejected" in
       coreJobs_isJobUpdateStatus thingname_stored (Some answer) (len answer)
         (Some (literal (lit "job-id"))) 6 JobUpdateStatus_Rejected
       = Ok true.
Proof.
  apply (X23_answer_to_an_update_is_recognised thingname_stored
           (lit "thingname") (lit "job-id") [NUL] (lit "rejected")
           JobUpdateStatus_Rejected).
  - exact thingname_stored_ok.
  - nul_free_lit.
  - vm_compute. split; [reflexivity|discriminate].
  - right. left. reflexivity.
Defined.
